(** * pandoras-box: funding, nonce sequencing and dispatch

    A shallow embedding of the resource-distribution and dispatch engine
    (distributor.ts, tokenDistributor.ts, batcher.ts, signer.ts, eoa.ts)
    and the properties its specification states about it.

    The last part holds further properties of the same code, of the
    transaction builders of the token runtimes (erc20.ts, erc721.ts),
    and of the versions of signer.ts, eoa.ts and engine.ts that work on
    one flat list of requests.

    Conventions of the embedding:
    - [BigNumber] values and the token amounts (JS numbers holding
      integers) are [Z]; nonces, indexes and lengths are [nat]. A JS
      number is a double: [Z] is its arithmetic for the amounts that
      satisfy [safeAmount], and the properties of the token distributor
      are stated for such amounts;
    - an [async] function that can [throw] returns a [result]; a loop
      that never exits is the outcome [Diverge];
    - node queries are oracles (fields of a record, or section variables);
      the HTTP calls of the batcher are numbered and the number of the
      next call is part of the dispatcher state. *)

From stdpp Require Import base option list list_numbers strings pretty gmap.
From Stdlib Require Import ZArith Lia.

Set Default Proof Using "Type".

(** ** Outcomes of a call *)

Inductive error : Type :=
| errNotEnoughFunds          (* DistributorErrors.errNotEnoughFunds *)
| errRuntimeNotInitialized   (* RuntimeErrors.errRuntimeNotInitialized *)
| errDynamicFee              (* Error('Dynamic fee data not available') *)
| TypeError.                 (* property access on undefined *)

Inductive result (A : Type) : Type :=
| Ok (a : A)
| Throw (e : error)
| Diverge.
Arguments Ok {A} a.
Arguments Throw {A} e.
Arguments Diverge {A}.

#[export] Instance result_ret : MRet result := λ A a, Ok a.
#[export] Instance result_bind : MBind result := λ A B f m,
  match m with
  | Ok a => f a
  | Throw e => Throw e
  | Diverge => Diverge
  end.
#[export] Instance result_fmap : FMap result := λ A B f m,
  match m with
  | Ok a => Ok (f a)
  | Throw e => Throw e
  | Diverge => Diverge
  end.

(** ** JS numbers where they leave the integers

    [Math.ceil(items.length / batchSize)] is a float: dividing by zero
    gives [Infinity] (or [NaN] for 0/0), and [x % 0] is [NaN]. *)

Inductive jsnum : Type :=
| Finite (n : nat)
| Infinity
| NaN.

(** [Math.ceil(n / d)] for non-negative integers [n], [d]. *)
Definition ceil_div (n d : nat) : jsnum :=
  match d with
  | 0 => match n with 0 => NaN | S _ => Infinity end
  | S _ => Finite (if n mod d =? 0 then n / d else S (n / d))
  end.

(** [x == 0] *)
Definition js_is_zero (x : jsnum) : bool :=
  match x with Finite 0 => true | _ => false end.

(** [i < x] for an integer [i] *)
Definition js_lt (i : nat) (x : jsnum) : bool :=
  match x with
  | Finite n => i <? n
  | Infinity => true
  | NaN => false
  end.

(** [n % d == 0]: [n % 0] is [NaN], which equals nothing. *)
Definition js_mod_is_zero (n d : nat) : bool :=
  match d with
  | 0 => false
  | S _ => n mod d =? 0
  end.

(** ** JS numbers where they hold integers

    The token distributor reads balances and costs as JS numbers:
    [balance < singleRunCost], [singleRunCost - balance],
    [distributorBalance > costs.subAccount] and
    [distributorBalance -= acc.missingFunds.toNumber()] are operations
    on doubles, and [BigNumber.from] and [toNumber] throw on a number
    that is not below [Number.MAX_SAFE_INTEGER]. On amounts that are
    not negative and below that bound the doubles are exact and nothing
    throws: there the comparison and the subtraction are those of [Z]. *)

Definition MAX_SAFE_INTEGER : Z := 2 ^ 53 - 1.

Definition safeAmount (x : Z) : Prop := (0 ≤ x < MAX_SAFE_INTEGER)%Z.

(** ** Batcher (src/runtime/batcher.ts) *)

Module Batcher.

Section generateBatches.
Context {ItemType : Type}.

(** [for (let i = 0; i < numBatches; i++) batches[i] = [];]
    [i] is the length of [batches] throughout, so the assignment
    appends. The loop is run on fuel: with [None] it has not finished. *)
Fixpoint initBatches (fuel i : nat) (numBatches : jsnum)
    (batches : list (list ItemType)) : option (list (list ItemType)) :=
  match fuel with
  | 0 => None
  | S fuel' =>
      if js_lt i numBatches
      then initBatches fuel' (S i) numBatches (batches ++ [[]])
      else Some batches
  end.

(** Fuel that lets the initialisation loop finish when it can. *)
Definition initFuel (numBatches : jsnum) : nat :=
  match numBatches with
  | Finite n => S n
  | Infinity => 0
  | NaN => 1
  end.

(** [for (const item of items) { batches[currentBatch].push(item); ... }]
    [batches[currentBatch]] out of range is [undefined], and [.push] on
    it throws. *)
Fixpoint fillBatches (batchSize : nat) (items : list ItemType)
    (currentBatch : nat) (batches : list (list ItemType))
    : result (list (list ItemType)) :=
  match items with
  | [] => Ok batches
  | item :: rest =>
      match batches !! currentBatch with
      | None => Throw TypeError
      | Some b =>
          let b' := b ++ [item] in
          fillBatches batchSize rest
            (if js_mod_is_zero (length b') batchSize
             then S currentBatch else currentBatch)
            (<[currentBatch := b']> batches)
      end
  end.

Definition generateBatches (items : list ItemType) (batchSize : nat)
    : result (list (list ItemType)) :=
  let numBatches := ceil_div (length items) batchSize in
  let numBatches := if js_is_zero numBatches then Finite 1 else numBatches in
  match initBatches (initFuel numBatches) 0 numBatches [] with
  | None => Diverge
  | Some batches => fillBatches batchSize items 0 batches
  end.
End generateBatches.

(** *** JSON-RPC calls

    [singleRequests] is the comma-separated text of the request objects;
    the embedding keeps the objects. A response element either has an
    [error] property or carries the transaction hash in [result]. *)

Record RpcRequest (Payload : Type) : Type := mkRequest {
  rpc_method : string;
  rpc_params : list Payload;
  rpc_id : nat
}.
Arguments mkRequest {Payload} _ _ _.
Arguments rpc_method {Payload} _.
Arguments rpc_params {Payload} _.
Arguments rpc_id {Payload} _.

Inductive RpcResponse : Type :=
| RpcError (message : string)
| RpcResult (hash : string).

(** What the send functions pass to [Logger.error]. *)
Inductive logLine : Type :=
| LogError (message : string)   (* Logger.error(e.message) *)
| LogMaxRetries.                (* 'Max retries reached. Failed to send transaction.' *)

(** The arrays [txHashes] and [batchErrors] shared by reference with the
    send functions, the number of HTTP requests issued so far, the calls
    of [sendTransaction] that were started without [await], and the lines
    logged by the send functions. *)
Record Dispatch (Payload : Type) : Type := mkDispatch {
  calls : nat;
  txHashes : list string;
  batchErrors : list string;
  detached : list (list (RpcRequest Payload));
  sendLog : list logLine
}.
Arguments mkDispatch {Payload} _ _ _ _ _.
Arguments calls {Payload} _.
Arguments txHashes {Payload} _.
Arguments batchErrors {Payload} _.
Arguments detached {Payload} _.
Arguments sendLog {Payload} _.

Section send.
Context {Payload : Type}.

(** [axios n data]: the outcome of the [n]-th POST of the process, with
    body [data]: [inl message] when the promise rejects (transport
    failure, or a body that cannot be iterated), [inr content] when it
    resolves with the response array [content]. *)
Variable axios : nat → list (RpcRequest Payload) → string + list RpcResponse.

Definition newDispatch (calls0 : nat) : Dispatch Payload :=
  mkDispatch calls0 [] [] [] [].

Definition tick (st : Dispatch Payload) : Dispatch Payload :=
  mkDispatch (S (calls st)) (txHashes st) (batchErrors st) (detached st) (sendLog st).

Definition logError (l : logLine) (st : Dispatch Payload) : Dispatch Payload :=
  mkDispatch (calls st) (txHashes st) (batchErrors st) (detached st) (sendLog st ++ [l]).

Definition detach (req : list (RpcRequest Payload)) (st : Dispatch Payload)
    : Dispatch Payload :=
  mkDispatch (calls st) (txHashes st) (batchErrors st) (detached st ++ [req]) (sendLog st).

(** [for (const cnt of content) { if (cnt.hasOwnProperty('error')) {
      batchErrors.push(cnt.error.message); continue; }
      txHashes.push(cnt.result); }] *)
Definition collect1 (st : Dispatch Payload) (cnt : RpcResponse) : Dispatch Payload :=
  match cnt with
  | RpcError message =>
      mkDispatch (calls st) (txHashes st) (batchErrors st ++ [message])
                 (detached st) (sendLog st)
  | RpcResult hash =>
      mkDispatch (calls st) (txHashes st ++ [hash]) (batchErrors st)
                 (detached st) (sendLog st)
  end.

Definition collect (content : list RpcResponse) (st : Dispatch Payload)
    : Dispatch Payload :=
  foldl collect1 st content.

(** [sendTransaction]: on a rejected call the message is logged and the
    same request is sent again by a recursive call that is not awaited:
    the caller goes on, the retry is left pending in [detached]. The
    POST of the retry leaves at once in the source; here it is made, and
    numbered, when the retry is taken up by [resumeDetached]. The two
    agree on a run in which no call is rejected. *)
Definition sendTransaction (singleRequests : list (RpcRequest Payload))
    (st : Dispatch Payload) : Dispatch Payload :=
  match axios (calls st) singleRequests with
  | inr content => collect content (tick st)
  | inl message => detach singleRequests (logError (LogError message) (tick st))
  end.

(** The retry left pending the longest, taken up by the event loop: the
    same request goes through [sendTransaction] again, which may leave
    it pending once more. *)
Definition resumeDetached (st : Dispatch Payload) : Dispatch Payload :=
  match detached st with
  | [] => st
  | singleRequests :: rest =>
      sendTransaction singleRequests
        (mkDispatch (calls st) (txHashes st) (batchErrors st) rest (sendLog st))
  end.

(** The [while (retries < maxRetries)] loop of [sendTransactionWithRetry],
    on the number [maxRetries - retries] of attempts left. *)
Fixpoint sendTransactionWithRetry_loop (attemptsLeft : nat)
    (singleRequests : list (RpcRequest Payload)) (st : Dispatch Payload)
    : Dispatch Payload :=
  match attemptsLeft with
  | 0 => logError LogMaxRetries st
  | S attemptsLeft' =>
      match axios (calls st) singleRequests with
      | inr content => collect content (tick st)
      | inl message =>
          sendTransactionWithRetry_loop attemptsLeft' singleRequests
            (logError (LogError message) (tick st))
      end
  end.

Definition sendTransactionWithRetry (singleRequests : list (RpcRequest Payload))
    (maxRetries : nat) (st : Dispatch Payload) : Dispatch Payload :=
  sendTransactionWithRetry_loop maxRetries singleRequests st.

Definition eth_sendRawTransaction (tx : Payload) (id : nat) : RpcRequest Payload :=
  mkRequest "eth_sendRawTransaction" [tx] id.

(** One sender's task of [sendTransactionsInParallelBySender]: its
    transactions one at a time, each a call of its own with up to 3
    attempts. *)
Definition sendBySender (txs : list Payload) (st : Dispatch Payload)
    : Dispatch Payload :=
  foldl (λ st tx, sendTransactionWithRetry [eth_sendRawTransaction tx 0] 3 st) st txs.

(** [sendTransactionsInParallelBySender]. The tasks of [Promise.all] are
    run here one sender after the other; another interleaving numbers
    the calls differently, which a different oracle [axios] accounts
    for. The function returns [txHashes]; the embedding returns the
    whole state, of which [batchErrors] is only logged by the source. *)
Definition sendTransactionsInParallelBySender_run
    (signedTxs : gmap string (list Payload)) (calls0 : nat) : Dispatch Payload :=
  foldl (λ st entry, sendBySender entry.2 st) (newDispatch calls0)
        (map_to_list signedTxs).

Definition sendTransactionsInParallelBySender
    (signedTxs : gmap string (list Payload)) (calls0 : nat) : list string :=
  txHashes (sendTransactionsInParallelBySender_run signedTxs calls0).

(** The requests of one batch: [id: nextIndx++] for each element. *)
Definition batchRequests (batch : list Payload) (nextIndx : nat)
    : list (RpcRequest Payload) :=
  imap (λ i tx, eth_sendRawTransaction tx (nextIndx + i)) batch.

(** [for (const batch of batches) { ...; await Batcher.sendTransaction(...) }] *)
Fixpoint sendBatches (batches : list (list Payload)) (nextIndx : nat)
    (st : Dispatch Payload) : Dispatch Payload :=
  match batches with
  | [] => st
  | batch :: rest =>
      sendBatches rest (nextIndx + length batch)
        (sendTransaction (batchRequests batch nextIndx) st)
  end.

(** [batchTransactions]: [generateBatches] runs before the [try], whose
    body cannot throw ([sendTransaction] catches everything). *)
Definition batchTransactions_run (signedTxs : list Payload) (batchSize : nat)
    (calls0 : nat) : result (Dispatch Payload) :=
  batches ← generateBatches signedTxs batchSize;
  mret (sendBatches batches 0 (newDispatch calls0)).

Definition batchTransactions (signedTxs : list Payload) (batchSize : nat)
    (calls0 : nat) : result (list string) :=
  txHashes <$> batchTransactions_run signedTxs batchSize calls0.
End send.

(** A group that holds [batchSize] items. *)
Definition full {ItemType} (batchSize : nat) (group : list ItemType) : Prop :=
  length group = batchSize.

(** *** What a caller can count afterwards *)

Definition isMaxRetries (l : logLine) : bool :=
  match l with LogMaxRetries => true | LogError _ => false end.

(** Sends given up after the last attempt: they leave a log line only. *)
Definition abandoned {Payload} (st : Dispatch Payload) : nat :=
  length (filter (λ l, isMaxRetries l = true) (sendLog st)).

(** Transactions of the groups whose call failed and whose retry was
    started without being awaited. *)
Definition pending {Payload} (st : Dispatch Payload) : nat :=
  sum_list_with length (detached st).

(** The number of transactions in the map handed to the parallel mode. *)
Definition submitted {Payload} (signedTxs : gmap string (list Payload)) : nat :=
  sum_list_with (λ entry, length entry.2) (map_to_list signedTxs).

(** Identifiers and errors recorded so far. *)
Definition recorded {Payload} (st : Dispatch Payload) : nat :=
  length (txHashes st) + length (batchErrors st).

(** The node answers a call that succeeds with one element per request. *)
Definition answersEachRequest {Payload}
    (axios : nat → list (RpcRequest Payload) → string + list RpcResponse) : Prop :=
  ∀ n data content, axios n data = inr content → length content = length data.

(** The node accepts every transaction: each call succeeds and answers
    each request with the hash of the transaction in it. *)
Definition hashOfRequest {Payload} (hashOf : Payload → string)
    (request : RpcRequest Payload) : string :=
  match rpc_params request with
  | [tx] => hashOf tx
  | _ => EmptyString
  end.

Definition accepts {Payload} (hashOf : Payload → string)
    (axios : nat → list (RpcRequest Payload) → string + list RpcResponse) : Prop :=
  ∀ n data, axios n data = inr ((λ request, RpcResult (hashOfRequest hashOf request)) <$> data).

(** No call fails at the transport level. *)
Definition neverRejects {Payload}
    (axios : nat → list (RpcRequest Payload) → string + list RpcResponse) : Prop :=
  ∀ n data, ∃ content, axios n data = inr content.

(** *** Nodes that judge each transaction by itself *)

(** The hash of a response element that has one, and the message of one
    that has an error. *)
Definition resultOf (cnt : RpcResponse) : option string :=
  match cnt with RpcResult hash => Some hash | RpcError _ => None end.

Definition errorOf (cnt : RpcResponse) : option string :=
  match cnt with RpcError message => Some message | RpcResult _ => None end.

(** The node answers every call, and each request in it with its verdict
    on the transaction the request carries. *)
Definition verdictOfRequest {Payload} (verdict : Payload → RpcResponse)
    (request : RpcRequest Payload) : RpcResponse :=
  match rpc_params request with
  | [tx] => verdict tx
  | _ => RpcError EmptyString
  end.

Definition judges {Payload} (verdict : Payload → RpcResponse)
    (axios : nat → list (RpcRequest Payload) → string + list RpcResponse) : Prop :=
  ∀ n data, axios n data = inr (verdictOfRequest verdict <$> data).

(** Every call is rejected. *)
Definition alwaysRejects {Payload}
    (axios : nat → list (RpcRequest Payload) → string + list RpcResponse) : Prop :=
  ∀ n data, ∃ message, axios n data = inl message.

(** The number of groups for [n] items: the quotient rounded up, and one
    group for no item. *)
Definition groupCount (n batchSize : nat) : nat :=
  if n =? 0 then 1 else (n + batchSize - 1) / batchSize.

End Batcher.

(** ** Transactions and wallets *)

Record TransactionRequest : Type := mkTx {
  tx_from : option string;
  tx_to : string;
  tx_chainId : Z;
  tx_gasLimit : Z;
  tx_value : Z;
  tx_nonce : nat;
  tx_gasPrice : option Z;
  tx_maxFeePerGas : option Z;
  tx_maxPriorityFeePerGas : option Z;
  tx_type : option nat;
  tx_data : option (string * Z)     (* token transfer(to, amount) call data *)
}.

(** A raw signed transaction: the request, under the signature of the
    wallet with the given address. *)
Record SignedTransaction : Type := mkSigned {
  signer : string;
  signedRequest : TransactionRequest
}.

(** [Wallet.fromMnemonic(mnemonic, `m/44'/60'/0'/0/${index}`)] *)
Record Wallet : Type := mkWallet {
  walletIndex : nat;
  walletAddress : string
}.

Definition signTransaction (w : Wallet) (tx : TransactionRequest) : SignedTransaction :=
  mkSigned (walletAddress w) tx.

(** [FeeData]: a fee is [None] when the field is [undefined], which is
    what the guard [=== undefined] of the runtimes tests. A fee that is
    [null] passes that guard and is not part of the embedding. *)
Record FeeData : Type := mkFeeData {
  maxFeePerGas : option Z;
  maxPriorityFeePerGas : option Z
}.

(** ** Signer (runtime/signer.ts) *)

Module Signer.

Record senderAccount : Type := mkSender {
  mnemonicIndex : nat;
  nonce : nat;
  wallet : Wallet
}.

Definition incrNonce (a : senderAccount) : senderAccount :=
  mkSender (mnemonicIndex a) (S (nonce a)) (wallet a).

Definition getNonce (a : senderAccount) : nat := nonce a.

Definition getAddress (a : senderAccount) : string := walletAddress (wallet a).

Section getSenderAccounts.
(** The address derived from the mnemonic at an index, and the node's
    answer to [getTransactionCount] for an address. *)
Variable fromMnemonic : nat → string.
Variable getTransactionCount : string → nat.

Definition deriveWallet (index : nat) : Wallet :=
  mkWallet index (fromMnemonic index).

(** [for (let i = 0; i < walletsToInit; i++) { accIndex = accountIndexes[i]; ... }]
    with [walletsToInit <= accountIndexes.length]: the loop visits the
    first [walletsToInit] indexes in order. *)
Definition getSenderAccounts (accountIndexes : list nat) (numTxs : nat)
    : list senderAccount :=
  let walletsToInit :=
    if numTxs <? length accountIndexes then numTxs else length accountIndexes in
  (λ accIndex,
     let wallet := deriveWallet accIndex in
     let accountNonce := getTransactionCount (walletAddress wallet) in
     mkSender accIndex accountNonce wallet)
  <$> take walletsToInit accountIndexes.
End getSenderAccounts.

(** *** [signTransactions], of the version of signer.ts that signs the
    requests of a flat list *)

Section signTransactions.
Context {Request SignedTx : Type}.
(** [wallet.signTransaction(tx)]: the raw signed transaction, or the
    message of the rejection. *)
Variable sign : Wallet → Request → string + SignedTx.

(** [for (const transaction of txs) {
      try { signedTxns.push(await wallet.signTransaction(transaction)); }
      catch (e) { failedTxnSignErrors.push(e); } }] *)
Definition signEach (w : Wallet) (txs : list Request)
    (st : list SignedTx * list string) : list SignedTx * list string :=
  foldl (λ st tx,
           match sign w tx with
           | inr signed => (st.1 ++ [signed], st.2)
           | inl message => (st.1, st.2 ++ [message])
           end)
        st txs.

(** [l.slice(startIndex, endIndex)] *)
Definition slice {A} (l : list A) (startIndex endIndex : nat) : list A :=
  take (endIndex - startIndex) (drop startIndex l).

(** One task of [Promise.all(accounts.map(async (sender, index) => ...))];
    the state is [signedTxs] and [failedTxnSignErrors]. *)
Definition signTask (txsPerAccount : nat) (transactions : list Request)
    (st : gmap string (list SignedTx) * list string)
    (index : nat) (sender : senderAccount)
    : gmap string (list SignedTx) * list string :=
  let address := getAddress sender in
  let startIndex := index * txsPerAccount in
  let endIndex := startIndex + txsPerAccount in
  let senderTransactions := slice transactions startIndex endIndex in
  let r := signEach (wallet sender) senderTransactions ([], st.2) in
  (<[address := r.1]> st.1, r.2).

(** The tasks, here one account after the other; with distinct
    addresses another interleaving orders [failedTxnSignErrors]
    differently and leaves the same map. *)
Fixpoint signTasks (txsPerAccount : nat) (transactions : list Request)
    (index : nat) (accounts : list senderAccount)
    (st : gmap string (list SignedTx) * list string)
    : gmap string (list SignedTx) * list string :=
  match accounts with
  | [] => st
  | sender :: rest =>
      signTasks txsPerAccount transactions (S index) rest
        (signTask txsPerAccount transactions st index sender)
  end.

(** [signTransactions]: the returned map and [failedTxnSignErrors]. With
    no account [accounts[accounts.length - 1]] is [undefined], whose
    address cannot be read. *)
Definition signTransactions (accounts : list senderAccount) (transactions : list Request)
    : result (gmap string (list SignedTx) * list string) :=
  let numTxs := length transactions in
  let numAccounts := length accounts in
  match last accounts with
  | None => Throw TypeError
  | Some account =>
      let txsPerAccount := numTxs / numAccounts in
      let st := signTasks txsPerAccount transactions 0 accounts (∅, []) in
      let address := getAddress account in
      let signedTxns := default [] (st.1 !! address) in
      let remainingTxns := drop (numAccounts * txsPerAccount) transactions in
      let r := signEach (wallet account) remainingTxns (signedTxns, st.2) in
      Ok (<[address := r.1]> st.1, r.2)
  end.

(** What a wallet makes of a list of requests: the signed ones, and the
    messages of the rejections. *)
Definition signedOf (w : Wallet) (txs : list Request) : list SignedTx :=
  omap (λ tx, match sign w tx with inr signed => Some signed | inl _ => None end) txs.

Definition rejectionsOf (w : Wallet) (txs : list Request) : list string :=
  omap (λ tx, match sign w tx with inl message => Some message | inr _ => None end) txs.
End signTransactions.

End Signer.

(** ** EOA runtime (runtime/eoa.ts) *)

Module EOARuntime.
Import Signer.

Record t : Type := mkRuntime {
  gasEstimation : Z;
  gasPrice : Z;
  defaultValue : Z;
  feeData : option FeeData;
  chainID : Z
}.

Definition createTransferTransaction (rt : t) (sender receiver : senderAccount)
    (gasPrice : Z) (dynamic : bool) : result TransactionRequest :=
  let transaction :=
    mkTx (Some (getAddress sender)) (getAddress receiver) (chainID rt)
         (gasEstimation rt) (defaultValue rt) (getNonce sender)
         None None None None None in
  if dynamic then
    match feeData rt ≫= maxFeePerGas, feeData rt ≫= maxPriorityFeePerGas with
    | Some maxFee, Some maxPriorityFee =>
        Ok (mkTx (tx_from transaction) (tx_to transaction) (tx_chainId transaction)
                 (tx_gasLimit transaction) (tx_value transaction) (tx_nonce transaction)
                 None (Some (maxFee * 2)%Z) (Some (maxPriorityFee * 2)%Z) (Some 2) None)
    | _, _ => Throw errDynamicFee
    end
  else
    Ok (mkTx (tx_from transaction) (tx_to transaction) (tx_chainId transaction)
             (tx_gasLimit transaction) (tx_value transaction) (tx_nonce transaction)
             (Some gasPrice) None None None None).

(** The inner loop [for (let j = 0; j < numOfTxPerAccount; j++)] for the
    sender at position [i], on the number of iterations left. The account
    objects live in the array [accounts]; [sender.incrNonce()] updates the
    object at position [i], which the receiver lookups of this and later
    iterations see. *)
Fixpoint constructForSender (rt : t) (dynamic : bool) (i : nat) (left j : nat)
    (accounts : list senderAccount) (txs : list SignedTransaction)
    : result (list senderAccount * list SignedTransaction) :=
  match left with
  | 0 => Ok (accounts, txs)
  | S left' =>
      match accounts !! i, accounts !! ((i + j) mod length accounts) with
      | Some sender, Some receiver =>
          tx ← createTransferTransaction rt sender receiver (gasPrice rt) dynamic;
          constructForSender rt dynamic i left' (S j)
            (<[i := incrNonce sender]> accounts)
            (txs ++ [signTransaction (wallet sender) tx])
      | _, _ => Throw TypeError
      end
  end.

(** The outer loop [for (let i = 0; i < numAccounts; i++)], on the number
    of senders left. *)
Fixpoint constructLoop (rt : t) (dynamic : bool) (numOfTxPerAccount : nat)
    (left i : nat) (accounts : list senderAccount)
    (transactions : gmap string (list SignedTransaction))
    : result (list senderAccount * gmap string (list SignedTransaction)) :=
  match left with
  | 0 => Ok (accounts, transactions)
  | S left' =>
      match accounts !! i with
      | Some sender =>
          '(accounts', txs) ←
             constructForSender rt dynamic i numOfTxPerAccount 0 accounts [];
          constructLoop rt dynamic numOfTxPerAccount left' (S i) accounts'
            (<[getAddress sender := txs]> transactions)
      | None => Throw TypeError
      end
  end.

(** [ConstructTransactions]: the returned map, together with the account
    objects as the call leaves them. *)
Definition ConstructTransactions (rt : t) (accounts : list senderAccount)
    (numOfTxPerAccount : nat) (dynamic : bool)
    : result (list senderAccount * gmap string (list SignedTransaction)) :=
  constructLoop rt dynamic numOfTxPerAccount (length accounts) 0 accounts ∅.

(** Signed by the address, and sent from it. *)
Definition sentBy (address : string) (signed : SignedTransaction) : Prop :=
  signer signed = address ∧ tx_from (signedRequest signed) = Some address.

(** The fee data that the dynamic mode reads is there. *)
Definition feesAvailable (rt : t) (dynamic : bool) : Prop :=
  dynamic = true →
  is_Some (feeData rt ≫= maxFeePerGas) ∧ is_Some (feeData rt ≫= maxPriorityFeePerGas).

(** A sender account after [k] calls of [incrNonce]. *)
Definition advance (k : nat) (a : senderAccount) : senderAccount :=
  mkSender (mnemonicIndex a) (nonce a + k) (wallet a).

(** The nonces of a list of signed transactions. *)
Definition nonces (txs : list SignedTransaction) : list nat :=
  (λ signed, tx_nonce (signedRequest signed)) <$> txs.

(** What the map holds for an address: transactions of one of the
    accounts with that address, with the nonces that follow the
    account's. *)
Definition builtFor (accounts : list senderAccount) (k : nat) (address : string)
    (txs : list SignedTransaction) : Prop :=
  (∃ sender, sender ∈ accounts ∧ getAddress sender = address
             ∧ nonces txs = seq (nonce sender) k)
  ∧ Forall (sentBy address) txs.

End EOARuntime.

(** ** The version of eoa.ts that builds one flat list of requests *)

Module EOARuntimeList.
Import Signer.

(** [createTransferTransaction(sender, receiver, chainID, gasPrice,
    feeData, dynamic)]: the chain id and the fee data are arguments. *)
Definition createTransferTransaction (rt : EOARuntime.t) (sender receiver : senderAccount)
    (chainID : Z) (gasPrice : Z) (feeData : FeeData) (dynamic : bool)
    : result TransactionRequest :=
  let transaction :=
    mkTx (Some (getAddress sender)) (getAddress receiver) chainID
         (EOARuntime.gasEstimation rt) (EOARuntime.defaultValue rt) (getNonce sender)
         None None None None None in
  if dynamic then
    match maxFeePerGas feeData, maxPriorityFeePerGas feeData with
    | Some maxFee, Some maxPriorityFee =>
        Ok (mkTx (tx_from transaction) (tx_to transaction) (tx_chainId transaction)
                 (tx_gasLimit transaction) (tx_value transaction) (tx_nonce transaction)
                 None (Some (maxFee * 2)%Z) (Some (maxPriorityFee * 2)%Z) (Some 2) None)
    | _, _ => Throw errDynamicFee
    end
  else
    Ok (mkTx (tx_from transaction) (tx_to transaction) (tx_chainId transaction)
             (tx_gasLimit transaction) (tx_value transaction) (tx_nonce transaction)
             (Some gasPrice) None None None None).

Section ConstructTransactions.
Variable rt : EOARuntime.t.
Variable chainID : Z.
Variable feeData : FeeData.
Variable dynamic : bool.

(** [for (let j = 0; j < txsPerAccount; j++)] for the sender at
    position [i], on the number of iterations left. *)
Fixpoint constructForSender (i : nat) (left j : nat)
    (accounts : list senderAccount) (transactions : list TransactionRequest)
    : result (list senderAccount * list TransactionRequest) :=
  match left with
  | 0 => Ok (accounts, transactions)
  | S left' =>
      match accounts !! i, accounts !! ((i + j) mod length accounts) with
      | Some sender, Some receiver =>
          tx ← createTransferTransaction rt sender receiver chainID
                 (EOARuntime.gasPrice rt) feeData dynamic;
          constructForSender i left' (S j)
            (<[i := incrNonce sender]> accounts) (transactions ++ [tx])
      | _, _ => Throw TypeError
      end
  end.

(** [for (let i = 0; i < numAccounts; i++)] *)
Fixpoint constructLoop (txsPerAccount : nat) (left i : nat)
    (accounts : list senderAccount) (transactions : list TransactionRequest)
    : result (list senderAccount * list TransactionRequest) :=
  match left with
  | 0 => Ok (accounts, transactions)
  | S left' =>
      '(accounts', transactions') ←
         constructForSender i txsPerAccount 0 accounts transactions;
      constructLoop txsPerAccount left' (S i) accounts' transactions'
  end.

(** [for (let i = 0; i < remainingTxs; i++)], from the last account to
    the first: the two objects are read once before the loop and are
    those of the array, which the loop updates at the sender's
    position. *)
Fixpoint constructRemaining (left : nat)
    (accounts : list senderAccount) (transactions : list TransactionRequest)
    : result (list senderAccount * list TransactionRequest) :=
  match left with
  | 0 => Ok (accounts, transactions)
  | S left' =>
      match accounts !! (length accounts - 1), accounts !! 0 with
      | Some sender, Some receiver =>
          tx ← createTransferTransaction rt sender receiver chainID
                 (EOARuntime.gasPrice rt) feeData dynamic;
          constructRemaining left'
            (<[length accounts - 1 := incrNonce sender]> accounts) (transactions ++ [tx])
      | _, _ => Throw TypeError
      end
  end.

(** [ConstructTransactions(accounts, numTx, dynamic)]: the list, and the
    account objects as the call leaves them. With no account the
    quotient and the remainder are not numbers and no loop runs. *)
Definition ConstructTransactions (accounts : list senderAccount) (numTx : nat)
    : result (list senderAccount * list TransactionRequest) :=
  let numAccounts := length accounts in
  match numAccounts with
  | 0 => Ok (accounts, [])
  | S _ =>
      let txsPerAccount := numTx / numAccounts in
      let remainingTxs := numTx mod numAccounts in
      '(accounts', transactions) ←
         constructLoop txsPerAccount numAccounts 0 accounts [];
      constructRemaining remainingTxs accounts' transactions
  end.
End ConstructTransactions.

(** What the flat version creates for a sender and the account read as
    receiver. *)
Definition create (rt : EOARuntime.t) (chainID : Z) (feeData : FeeData) (dynamic : bool)
    (sender : senderAccount) (receiver : option senderAccount)
    : result TransactionRequest :=
  match receiver with
  | Some receiver =>
      createTransferTransaction rt sender receiver chainID (EOARuntime.gasPrice rt)
        feeData dynamic
  | None => Throw TypeError
  end.

(** A wallet signs the requests sent from its own address, whatever it
    does with the others. *)
Definition signsOwn {SignedTx} (sign : Wallet → TransactionRequest → string + SignedTx)
    : Prop :=
  ∀ w tx, tx_from tx = Some (walletAddress w) → ∃ signed, sign w tx = inr signed.

End EOARuntimeList.

(** ** The node, as the distributors see it *)

Record TransactionReceipt : Type := mkReceipt {
  status : option nat          (* [None]: the receipt has no status *)
}.

(** [provider.waitForTransaction(txHash, 1, 60*1000)]: the promise rejects
    (the timeout among the reasons) or resolves with a receipt or [null]. *)
Inductive waitOutcome : Type :=
| WaitRejected (message : string)
| WaitResolved (receipt : option TransactionReceipt).

Record Node : Type := mkNode {
  getBalance : string → Z;
  getGasPrice : Z;
  getChainId : Z;
  getTransactionCount : string → nat;
  estimateGas : string → string → Z → Z;     (* from, to, value *)
  waitForTransaction : string → waitOutcome;
  axios : nat → list (Batcher.RpcRequest SignedTransaction) → string + list Batcher.RpcResponse
}.

(** The part of the [Runtime] interface the native distributor calls. *)
Record Runtime : Type := mkEstimator {
  GetValue : Z;
  EstimateBaseTx : result Z;
  GetGasPrice : Z
}.

(** ** The value-transfer runtime as the distributor's estimator
    (runtime/eoa.ts) *)

Module EOAEstimator.

Section queries.
Variable fromMnemonic : nat → string.
Variable node : Node.
(** [provider.getFeeData()] *)
Variable getFeeData : FeeData.

(** [EstimateBaseTx]: the runtime as the call leaves it, and the
    estimate it returns. *)
Definition EstimateBaseTx (rt : EOARuntime.t) : EOARuntime.t * Z :=
  let gasEstimation :=
    estimateGas node (fromMnemonic 0) (fromMnemonic 1) (EOARuntime.defaultValue rt) in
  (EOARuntime.mkRuntime gasEstimation (EOARuntime.gasPrice rt)
     (EOARuntime.defaultValue rt) (Some getFeeData) (getChainId node),
   gasEstimation).

Definition GetValue (rt : EOARuntime.t) : Z := EOARuntime.defaultValue rt.

Definition GetGasPrice (rt : EOARuntime.t) : EOARuntime.t * Z :=
  let gasPrice := getGasPrice node in
  (EOARuntime.mkRuntime (EOARuntime.gasEstimation rt) gasPrice
     (EOARuntime.defaultValue rt) (EOARuntime.feeData rt) (EOARuntime.chainID rt),
   gasPrice).

(** What the three calls of [calculateRuntimeCosts] return, in the
    order it makes them, and the runtime object as they leave it. *)
Definition estimator (rt : EOARuntime.t) : Runtime :=
  mkEstimator (GetValue rt) (Ok (EstimateBaseTx rt).2)
              (GetGasPrice (EstimateBaseTx rt).1).2.

Definition estimated (rt : EOARuntime.t) : EOARuntime.t :=
  (GetGasPrice (EstimateBaseTx rt).1).1.
End queries.

(** The most a transaction with a gas price can take from the balance
    of its sender: the gas limit at the gas price, and the value. *)
Definition maxCost (tx : TransactionRequest) : Z :=
  (default 0 (tx_gasPrice tx) * tx_gasLimit tx + tx_value tx)%Z.

Definition totalMaxCost (txs : list SignedTransaction) : Z :=
  foldr (λ signed total, maxCost (signedRequest signed) + total)%Z 0%Z txs.

End EOAEstimator.

(** ** The shortfall heap

    [Heap] comes from the package [heap], built with no comparator. The
    distributors use [push], [pop] and [size]; what they need of them is
    that the heap holds what was pushed and not yet popped. [heap_items]
    is the content ([toArray]), in no particular order. *)

Class Heap (A H : Type) : Type := {
  heap_new : H;
  heap_push : A → H → H;
  heap_pop : H → option (A * H);
  heap_size : H → nat;
  heap_items : H → list A;
  heap_new_items : heap_items heap_new = [];
  heap_push_items a h : heap_items (heap_push a h) ≡ₚ heap_items h ++ [a];
  heap_pop_items h :
    match heap_pop h with
    | Some (a, h') => heap_items h ≡ₚ a :: heap_items h'
    | None => heap_items h = []
    end;
  heap_size_items h : heap_size h = length (heap_items h)
}.
Global Hint Mode Heap - ! : typeclass_instances.

(** An instance to run the distributors on: items leave in the order
    they came in. *)
#[export, refine] Instance listHeap {A} : Heap A (list A) := {
  heap_new := [];
  heap_push a h := h ++ [a];
  heap_pop h := match h with [] => None | a :: h' => Some (a, h') end;
  heap_size h := length h;
  heap_items h := h
}.
Proof.
  - reflexivity.
  - reflexivity.
  - intros [|a h]; reflexivity.
  - reflexivity.
Defined.

(** ** Distributor (distributor/distributor.ts) *)

Module Distributor.

Record distributeAccount : Type := mkAccount {
  missingFunds : Z;
  address : string;
  mnemonicIndex : nat
}.

Record runtimeCosts : Type := mkCosts {
  accDistributionCost : Z;
  subAccount : Z
}.

(** The sum of [missingFunds] over a list of accounts. *)
Definition totalMissing (accounts : list distributeAccount) : Z :=
  foldr (λ acc total, missingFunds acc + total)%Z 0%Z accounts.

(** The entry that the scan records for an index whose account holds
    [balance] when it is to hold [cost]. *)
Definition shortfallEntry (fromMnemonic : nat → string) (cost balance : Z)
    (index : nat) : distributeAccount :=
  mkAccount (cost - balance) (fromMnemonic index) index.

(** The variables of the loop of [getFundableAccounts]. *)
Record allocation (H : Type) : Type := mkAllocation {
  accountsToFund : list distributeAccount;
  distributorBalance : Z;
  remainingSet : H
}.
Arguments mkAllocation {H} _ _ _.
Arguments accountsToFund {H} _.
Arguments distributorBalance {H} _.
Arguments remainingSet {H} _.

(** The loop of [getFundableAccounts], which both distributors run:
    [while (distributorBalance > bound && initialSet.size() > 0) {
       acc = initialSet.pop(); distributorBalance -= acc.missingFunds;
       accountsToFund.push(acc); }]
    on fuel: with [None] it has not finished. [pop] on an empty heap
    gives [undefined], whose [missingFunds] cannot be read. *)
Fixpoint allocate `{Heap distributeAccount H} (fuel : nat) (bound : Z)
    (st : allocation H) : option (result (allocation H)) :=
  match fuel with
  | 0 => None
  | S fuel' =>
      if bool_decide (bound < distributorBalance st)%Z
         && bool_decide (0 < heap_size (remainingSet st))
      then
        match heap_pop (remainingSet st) with
        | Some (acc, rest) =>
            allocate fuel' bound
              (mkAllocation (accountsToFund st ++ [acc])
                            (distributorBalance st - missingFunds acc)%Z
                            rest)
        | None => Some (Throw TypeError)
        end
      else Some (Ok st)
  end.

(** Runs the loop, with fuel for one pass per entry and the final test,
    and ends as the source does after it. *)
Definition fundable `{Heap distributeAccount H} (bound balance : Z) (initialSet : H)
    : result (list distributeAccount) :=
  match allocate (S (heap_size initialSet)) bound
                 (mkAllocation [] balance initialSet) with
  | None => Diverge
  | Some r =>
      st ← r;
      if bool_decide (length (accountsToFund st) = 0)
      then Throw errNotEnoughFunds
      else Ok (accountsToFund st)
  end.

Section distributor.
Context `{Heap distributeAccount H}.

(** [Wallet.fromMnemonic(mnemonic, `m/44'/60'/0'/0/${i}`).address] *)
Variable fromMnemonic : nat → string.
Variable node : Node.
Variable runtimeEstimator : Runtime.
Variable totalTx : nat.
Variable requestedSubAccounts : nat.
Variable batchSize : nat.

Definition ethWallet : Wallet := mkWallet 0 (fromMnemonic 0).

Definition calculateRuntimeCosts : result runtimeCosts :=
  let inherentValue := GetValue runtimeEstimator in
  baseTxEstimate ← EstimateBaseTx runtimeEstimator;
  let baseGasPrice := GetGasPrice runtimeEstimator in
  let baseTxCost := ((baseGasPrice * baseTxEstimate + inherentValue) * 10)%Z in
  let subAccountCost := (Z.of_nat totalTx * baseTxCost)%Z in
  let singleDistributionCost :=
    estimateGas node (fromMnemonic 0) (fromMnemonic 1) subAccountCost in
  mret (mkCosts singleDistributionCost subAccountCost).

(** One pass of [for (let i = 1; i <= requestedSubAccounts; i++)]. *)
Definition scanIndex (singleRunCost : Z) (st : H * list nat) (i : nat)
    : H * list nat :=
  let addrWallet := mkWallet i (fromMnemonic i) in
  let balance := getBalance node (walletAddress addrWallet) in
  if bool_decide (balance < singleRunCost)%Z
  then (heap_push (mkAccount (singleRunCost - balance)%Z (walletAddress addrWallet) i)
                  st.1, st.2)
  else (st.1, st.2 ++ [i]).

(** [findAccountsForDistribution]: the heap it returns and
    [readyMnemonicIndexes] as it leaves it. *)
Definition findAccountsForDistribution (singleRunCost : Z)
    (readyMnemonicIndexes : list nat) : H * list nat :=
  foldl (scanIndex singleRunCost) (heap_new, readyMnemonicIndexes)
        (seq 1 requestedSubAccounts).

Definition getFundableAccounts (costs : runtimeCosts) (initialSet : H)
    : result (list distributeAccount) :=
  fundable (accDistributionCost costs)
           (getBalance node (walletAddress ethWallet)) initialSet.

(** The funding transactions, [nonce] counting up from the wallet's
    transaction count. [BigNumber.div] truncates. *)
Definition fundingTransaction (gasPrice chainID : Z) (nonce : nat)
    (acc : distributeAccount) : TransactionRequest :=
  mkTx (Some (walletAddress ethWallet)) (address acc) chainID 21000
       (missingFunds acc) nonce (Some (gasPrice * 150 ÷ 100)%Z)
       None None None None.

Definition signFunding (accounts : list distributeAccount) : list SignedTransaction :=
  let gasPrice := getGasPrice node in
  let chainID := getChainId node in
  let nonce := getTransactionCount node (walletAddress ethWallet) in
  imap (λ k acc, signTransaction ethWallet
                   (fundingTransaction gasPrice chainID (nonce + k) acc))
       accounts.

(** The body of [for (let i = 0; i < txHashes.length; i++)]: the state
    is [readyMnemonicIndexes] and [waitErrors]. Everything thrown in
    the [try], the read of [accounts[i]] included, lands in
    [waitErrors]. *)
Definition awaitFunding (accounts : list distributeAccount)
    (st : list nat * list string) (i : nat) (txHash : string)
    : list nat * list string :=
  match waitForTransaction node txHash with
  | WaitRejected message => (st.1, st.2 ++ [message])
  | WaitResolved None =>
      (st.1, st.2 ++ ["transaction " +:+ txHash +:+ " failed to be fetched in time"])
  | WaitResolved (Some txReceipt) =>
      if bool_decide (status txReceipt ≠ None) && bool_decide (status txReceipt = Some 0)
      then (st.1, st.2 ++ ["transaction " +:+ txHash +:+ " failed during execution"])
      else
        match accounts !! i with
        | Some acc => (st.1 ++ [mnemonicIndex acc], st.2)
        | None => (st.1, st.2 ++ ["Cannot read properties of undefined"])
        end
  end.

Fixpoint awaitAll (accounts : list distributeAccount) (i : nat)
    (txHashes : list string) (st : list nat * list string)
    : list nat * list string :=
  match txHashes with
  | [] => st
  | txHash :: rest => awaitAll accounts (S i) rest (awaitFunding accounts st i txHash)
  end.

(** [fundAccounts]: [readyMnemonicIndexes] as it leaves it, and the
    [waitErrors] it logs. [calls0] numbers the first HTTP call. The wait
    loop runs over [txHashes] as [batchTransactions] returned it: that
    is the array the source reads when no call was rejected; a retry
    still pending could push to it while the loop runs. *)
Definition fundAccounts (costs : runtimeCosts) (accounts : list distributeAccount)
    (readyMnemonicIndexes : list nat) (calls0 : nat)
    : result (list nat * list string) :=
  let signedTxs := signFunding accounts in
  txHashes ← Batcher.batchTransactions (axios node) signedTxs batchSize calls0;
  mret (awaitAll accounts 0 txHashes (readyMnemonicIndexes, [])).

(** [distribute], from a fresh distributor ([readyMnemonicIndexes = []]). *)
Definition distribute (calls0 : nat) : result (list nat) :=
  baseCosts ← calculateRuntimeCosts;
  let '(shortAddresses, readyMnemonicIndexes) :=
    findAccountsForDistribution (subAccount baseCosts) [] in
  let initialAccCount := heap_size shortAddresses in
  if bool_decide (initialAccCount = 0) then mret readyMnemonicIndexes
  else
    fundableAccounts ← getFundableAccounts baseCosts shortAddresses;
    r ← fundAccounts baseCosts fundableAccounts readyMnemonicIndexes calls0;
    mret r.1.
End distributor.

End Distributor.

(** ** The token runtime (runtime/erc20.ts), as the token distributor calls it *)

Module ERC20Runtime.

Record t : Type := mkRuntime {
  contract : option string;       (* the deployed contract's address, once initialised *)
  balanceOf : string → Z;
  estimateTransfer : Z;
  defaultTransferValue : Z;
  baseDeployer : string
}.

Definition GetTransferValue (rt : t) : Z := defaultTransferValue rt.

Definition GetTokenBalance (rt : t) (address : string) : result Z :=
  match contract rt with
  | None => Throw errRuntimeNotInitialized
  | Some _ => Ok (balanceOf rt address)
  end.

Definition GetSupplierBalance (rt : t) : result Z :=
  GetTokenBalance rt (baseDeployer rt).

Definition EstimateBaseTx (rt : t) : result Z :=
  match contract rt with
  | None => Throw errRuntimeNotInitialized
  | Some _ => Ok (estimateTransfer rt)
  end.

(** The populated [transfer(to, amount)] call: only [to] and [data] are
    set. *)
Definition CreateFundTransaction (rt : t) (to : string) (amount : Z)
    : result TransactionRequest :=
  match contract rt with
  | None => Throw errRuntimeNotInitialized
  | Some token => Ok (mkTx None token 0 0 0 0 None None None None (Some (to, amount)))
  end.

(** *** The transfers of the stress test *)

(** The fields of the runtime that [EstimateBaseTx] and [GetGasPrice]
    set and that the transfers read. *)
Record fees : Type := mkFees {
  gasEstimation : Z;
  gasPrice : Z;
  feeData : option FeeData;
  chainID : Z
}.

(** [createTransferTransaction], called by [ConstructTransactions] after
    its check of [this.contract]; [token] is [this.contract.address].
    The [wallet] argument becomes the signer of the contract object and
    the [from] of the populated transaction, which is overridden. *)
Definition createTransferTransaction (token : string) (rt : t) (f : fees)
    (receiver sender : Signer.senderAccount) (gasPrice : Z) (dynamic : bool)
    : result TransactionRequest :=
  let transaction :=
    mkTx (Some (Signer.getAddress sender)) token (chainID f)
         (gasEstimation f * 150 ÷ 100)%Z 0 (Signer.getNonce sender)
         None None None None
         (Some (Signer.getAddress receiver, defaultTransferValue rt)) in
  if dynamic then
    match feeData f ≫= maxFeePerGas, feeData f ≫= maxPriorityFeePerGas with
    | Some maxFee, Some maxPriorityFee =>
        Ok (mkTx (tx_from transaction) (tx_to transaction) (tx_chainId transaction)
                 (tx_gasLimit transaction) (tx_value transaction) (tx_nonce transaction)
                 None (Some (maxFee * 2)%Z) (Some (maxPriorityFee * 2)%Z) (Some 2)
                 (tx_data transaction))
    | _, _ => Throw errDynamicFee
    end
  else
    Ok (mkTx (tx_from transaction) (tx_to transaction) (tx_chainId transaction)
             (tx_gasLimit transaction) (tx_value transaction) (tx_nonce transaction)
             (Some (gasPrice * 150 ÷ 100)%Z) None None None (tx_data transaction)).

(** The inner loop, [receiverIndex = (i + j + 1) % numAccounts]. *)
Fixpoint constructForSender (token : string) (rt : t) (f : fees) (dynamic : bool)
    (i : nat) (left j : nat)
    (accounts : list Signer.senderAccount) (txs : list SignedTransaction)
    : result (list Signer.senderAccount * list SignedTransaction) :=
  match left with
  | 0 => Ok (accounts, txs)
  | S left' =>
      match accounts !! i, accounts !! ((i + j + 1) mod length accounts) with
      | Some sender, Some receiver =>
          tx ← createTransferTransaction token rt f receiver sender (gasPrice f) dynamic;
          constructForSender token rt f dynamic i left' (S j)
            (<[i := Signer.incrNonce sender]> accounts)
            (txs ++ [signTransaction (Signer.wallet sender) tx])
      | _, _ => Throw TypeError
      end
  end.

Fixpoint constructLoop (token : string) (rt : t) (f : fees) (dynamic : bool)
    (numOfTxPerAccount : nat) (left i : nat)
    (accounts : list Signer.senderAccount)
    (transactions : gmap string (list SignedTransaction))
    : result (list Signer.senderAccount * gmap string (list SignedTransaction)) :=
  match left with
  | 0 => Ok (accounts, transactions)
  | S left' =>
      match accounts !! i with
      | Some sender =>
          '(accounts', txs) ←
             constructForSender token rt f dynamic i numOfTxPerAccount 0 accounts [];
          constructLoop token rt f dynamic numOfTxPerAccount left' (S i) accounts'
            (<[Signer.getAddress sender := txs]> transactions)
      | None => Throw TypeError
      end
  end.

(** [ConstructTransactions]: the returned map, together with the account
    objects as the call leaves them. *)
Definition ConstructTransactions (rt : t) (f : fees)
    (accounts : list Signer.senderAccount) (numOfTxPerAccount : nat) (dynamic : bool)
    : result (list Signer.senderAccount * gmap string (list SignedTransaction)) :=
  match contract rt with
  | None => Throw errRuntimeNotInitialized
  | Some token =>
      constructLoop token rt f dynamic numOfTxPerAccount (length accounts) 0 accounts ∅
  end.

End ERC20Runtime.

(** ** The NFT runtime (runtime/erc721.ts) *)

Module ERC721Runtime.

Record t : Type := mkRuntime {
  contract : option string;       (* the deployed contract's address, once initialised *)
  nftURL : string;
  gasEstimation : Z;
  gasPrice : Z;
  feeData : option FeeData;
  chainID : Z
}.

(** The populated [createNFT(nftURL)] call with the fields the runtime
    overrides. *)
Record MintRequest : Type := mkMint {
  mint_from : string;
  mint_to : string;
  mint_chainId : Z;
  mint_gasLimit : Z;
  mint_nonce : nat;
  mint_gasPrice : option Z;
  mint_maxFeePerGas : option Z;
  mint_maxPriorityFeePerGas : option Z;
  mint_type : option nat;
  mint_url : string               (* the argument of [createNFT] in the call data *)
}.

Record SignedMint : Type := mkSignedMint {
  mintSigner : string;
  mintRequest : MintRequest
}.

Definition signMint (w : Wallet) (tx : MintRequest) : SignedMint :=
  mkSignedMint (walletAddress w) tx.

(** [createTransaction], called by [ConstructTransactions] after its
    check of [this.contract]; [nft] is [this.contract.address]. *)
Definition createTransaction (nft : string) (rt : t) (sender : Signer.senderAccount)
    (gasPrice : Z) (dynamic : bool) : result MintRequest :=
  let transaction :=
    mkMint (Signer.getAddress sender) nft (chainID rt)
           (gasEstimation rt * 150 ÷ 100)%Z (Signer.getNonce sender)
           None None None None (nftURL rt) in
  if dynamic then
    match feeData rt ≫= maxFeePerGas, feeData rt ≫= maxPriorityFeePerGas with
    | Some maxFee, Some maxPriorityFee =>
        Ok (mkMint (mint_from transaction) (mint_to transaction) (mint_chainId transaction)
                   (mint_gasLimit transaction) (mint_nonce transaction)
                   None (Some (maxFee * 2)%Z) (Some (maxPriorityFee * 2)%Z) (Some 2)
                   (mint_url transaction))
    | _, _ => Throw errDynamicFee
    end
  else
    Ok (mkMint (mint_from transaction) (mint_to transaction) (mint_chainId transaction)
               (mint_gasLimit transaction) (mint_nonce transaction)
               (Some (gasPrice * 150 ÷ 150)%Z) None None None (mint_url transaction)).

Fixpoint constructForSender (nft : string) (rt : t) (dynamic : bool)
    (i : nat) (left : nat)
    (accounts : list Signer.senderAccount) (txs : list SignedMint)
    : result (list Signer.senderAccount * list SignedMint) :=
  match left with
  | 0 => Ok (accounts, txs)
  | S left' =>
      match accounts !! i with
      | Some sender =>
          tx ← createTransaction nft rt sender (gasPrice rt) dynamic;
          constructForSender nft rt dynamic i left'
            (<[i := Signer.incrNonce sender]> accounts)
            (txs ++ [signMint (Signer.wallet sender) tx])
      | None => Throw TypeError
      end
  end.

Fixpoint constructLoop (nft : string) (rt : t) (dynamic : bool)
    (numOfTxPerAccount : nat) (left i : nat)
    (accounts : list Signer.senderAccount)
    (transactions : gmap string (list SignedMint))
    : result (list Signer.senderAccount * gmap string (list SignedMint)) :=
  match left with
  | 0 => Ok (accounts, transactions)
  | S left' =>
      match accounts !! i with
      | Some sender =>
          '(accounts', txs) ←
             constructForSender nft rt dynamic i numOfTxPerAccount accounts [];
          constructLoop nft rt dynamic numOfTxPerAccount left' (S i) accounts'
            (<[Signer.getAddress sender := txs]> transactions)
      | None => Throw TypeError
      end
  end.

Definition ConstructTransactions (rt : t)
    (accounts : list Signer.senderAccount) (numOfTxPerAccount : nat) (dynamic : bool)
    : result (list Signer.senderAccount * gmap string (list SignedMint)) :=
  match contract rt with
  | None => Throw errRuntimeNotInitialized
  | Some nft =>
      constructLoop nft rt dynamic numOfTxPerAccount (length accounts) 0 accounts ∅
  end.

End ERC721Runtime.

(** ** The loops of [ConstructTransactions]

    The three runtimes run the same two loops over the sender accounts
    and differ in the request they create and in the account they read
    as receiver. [Workload] is that pair of loops with the two left
    open; the loops of each runtime are written out with it and shown
    to be instances. *)

Module Workload.
Import Signer.

Section construct.
Context {Request Signed : Type}.
(** The request for the sender as it is now; the second argument is
    [accounts[receiverIndex]], where the runtime reads one. *)
Variable create : senderAccount → option senderAccount → result Request.
(** The receiver's position, from [i], [j] and [numAccounts]. *)
Variable receiverIndex : nat → nat → nat → nat.
Variable sign : Wallet → Request → Signed.

Fixpoint constructForSender (i : nat) (left j : nat)
    (accounts : list senderAccount) (txs : list Signed)
    : result (list senderAccount * list Signed) :=
  match left with
  | 0 => Ok (accounts, txs)
  | S left' =>
      match accounts !! i with
      | Some sender =>
          tx ← create sender (accounts !! receiverIndex i j (length accounts));
          constructForSender i left' (S j)
            (<[i := incrNonce sender]> accounts)
            (txs ++ [sign (wallet sender) tx])
      | None => Throw TypeError
      end
  end.

Fixpoint constructLoop (numOfTxPerAccount : nat) (left i : nat)
    (accounts : list senderAccount) (transactions : gmap string (list Signed))
    : result (list senderAccount * gmap string (list Signed)) :=
  match left with
  | 0 => Ok (accounts, transactions)
  | S left' =>
      match accounts !! i with
      | Some sender =>
          '(accounts', txs) ← constructForSender i numOfTxPerAccount 0 accounts [];
          constructLoop numOfTxPerAccount left' (S i) accounts'
            (<[getAddress sender := txs]> transactions)
      | None => Throw TypeError
      end
  end.

(** [txs] is what the loops build for the sender found at position [i]
    of [accounts]: [numOfTxPerAccount] requests, the [j]-th created for
    the sender after [j] calls of [incrNonce] and the receiver of turn
    [j], under the signature of the sender's wallet. *)
Definition builtBy (accounts : list senderAccount) (numOfTxPerAccount : nat)
    (i : nat) (sender : senderAccount) (txs : list Signed) : Prop :=
  length txs = numOfTxPerAccount
  ∧ ∀ j, j < numOfTxPerAccount →
      ∃ tx,
        create (EOARuntime.advance j sender)
               (accounts !! receiverIndex i j (length accounts)) = Ok tx
        ∧ txs !! j = Some (sign (wallet sender) tx).
End construct.

(** What the three runtimes create for a sender and the account read as
    receiver; reading the address of a receiver that is not there is a
    [TypeError]. *)
Definition eoa (rt : EOARuntime.t) (dynamic : bool)
    (sender : senderAccount) (receiver : option senderAccount)
    : result TransactionRequest :=
  match receiver with
  | Some receiver =>
      EOARuntime.createTransferTransaction rt sender receiver (EOARuntime.gasPrice rt)
        dynamic
  | None => Throw TypeError
  end.

Definition erc20 (token : string) (rt : ERC20Runtime.t) (f : ERC20Runtime.fees)
    (dynamic : bool) (sender : senderAccount) (receiver : option senderAccount)
    : result TransactionRequest :=
  match receiver with
  | Some receiver =>
      ERC20Runtime.createTransferTransaction token rt f receiver sender
        (ERC20Runtime.gasPrice f) dynamic
  | None => Throw TypeError
  end.

Definition erc721 (nft : string) (rt : ERC721Runtime.t) (dynamic : bool)
    (sender : senderAccount) (receiver : option senderAccount)
    : result ERC721Runtime.MintRequest :=
  ERC721Runtime.createTransaction nft rt sender (ERC721Runtime.gasPrice rt) dynamic.

(** The fee data that the dynamic mode reads is there. *)
Definition feesFor (dynamic : bool) (data : option FeeData) : Prop :=
  dynamic = true →
  is_Some (data ≫= maxFeePerGas) ∧ is_Some (data ≫= maxPriorityFeePerGas).

(** The fee fields of a request: with dynamic fees twice the two fees of
    the fee data and type 2, otherwise the given gas price. *)
Definition feeFields (dynamic : bool) (data : option FeeData) (legacyPrice : Z)
    (price maxFee maxPriorityFee : option Z) (type : option nat) : Prop :=
  if dynamic
  then price = None
       ∧ maxFee = (λ fee, fee * 2)%Z <$> (data ≫= maxFeePerGas)
       ∧ maxPriorityFee = (λ fee, fee * 2)%Z <$> (data ≫= maxPriorityFeePerGas)
       ∧ type = Some 2
  else price = Some legacyPrice ∧ maxFee = None ∧ maxPriorityFee = None ∧ type = None.

(** No account after position [i] has the address of [sender]: the
    entry of the map for that address is the one written for [i]. *)
Definition lastWithAddress (accounts : list senderAccount) (i : nat)
    (sender : senderAccount) : Prop :=
  ∀ i' sender', i < i' → accounts !! i' = Some sender' →
                getAddress sender' ≠ getAddress sender.

End Workload.

(** ** TokenDistributor (distributor/tokenDistributor.ts) *)

Module TokenDistributor.
Import Distributor.

Record tokenRuntimeCosts : Type := mkCosts {
  totalCost : Z;
  subAccount : Z
}.

Section tokenDistributor.
Context `{Heap distributeAccount H}.

Variable fromMnemonic : nat → string.
Variable node : Node.
Variable tokenRuntime : ERC20Runtime.t.
Variable totalTx : nat.
Variable batchSize : nat.

(** [Math.ceil(totalCost / readyMnemonicIndexes.length)]: with no ready
    index the quotient is [Infinity] or [NaN], and there is no cost
    ([None]). *)
Definition calculateRuntimeCosts (readyMnemonicIndexes : list nat)
    : option tokenRuntimeCosts :=
  let transferValue := ERC20Runtime.GetTransferValue tokenRuntime in
  let totalCost := (transferValue * Z.of_nat totalTx)%Z in
  match length readyMnemonicIndexes with
  | 0 => None
  | S _ as n => Some (mkCosts totalCost (- (- totalCost / Z.of_nat n))%Z)
  end.

(** One pass of [for (const index of this.readyMnemonicIndexes)]; the
    comparison and the difference are on JS numbers, exact for a
    [safeAmount] as cost and balances that are not negative. *)
Definition scanIndex (singleRunCost : Z) (shortAddresses : H) (index : nat)
    : result H :=
  let address := fromMnemonic index in
  balance ← ERC20Runtime.GetTokenBalance tokenRuntime address;
  if bool_decide (balance < singleRunCost)%Z
  then mret (heap_push (mkAccount (singleRunCost - balance)%Z address index)
                       shortAddresses)
  else mret shortAddresses.

Fixpoint scan (singleRunCost : Z) (indexes : list nat) (shortAddresses : H)
    : result H :=
  match indexes with
  | [] => Ok shortAddresses
  | index :: rest =>
      shortAddresses' ← scanIndex singleRunCost shortAddresses index;
      scan singleRunCost rest shortAddresses'
  end.

(** [findAccountsForDistribution] leaves [readyMnemonicIndexes] as it is. *)
Definition findAccountsForDistribution (singleRunCost : Z)
    (readyMnemonicIndexes : list nat) : result H :=
  scan singleRunCost readyMnemonicIndexes heap_new.

(** [getFundableAccounts]: the loop of the native distributor on JS
    numbers, exact when the supplier's balance, the cost and the missing
    amounts are [safeAmount]s. *)
Definition getFundableAccounts (costs : tokenRuntimeCosts) (initialSet : H)
    : result (list distributeAccount) :=
  distributorBalance ← ERC20Runtime.GetSupplierBalance tokenRuntime;
  fundable (subAccount costs) distributorBalance initialSet.

Definition senderWallet : Wallet := mkWallet 0 (fromMnemonic 0).

(** The loop [for (const acc of accounts)] of [fundAccounts]. *)
Fixpoint signFunding (gasEstimation gasPrice chainID : Z) (nonce : nat)
    (accounts : list distributeAccount) : result (list SignedTransaction) :=
  match accounts with
  | [] => Ok []
  | acc :: rest =>
      fundTx ← ERC20Runtime.CreateFundTransaction tokenRuntime
                 (address acc) (missingFunds acc);
      let fundTx :=
        mkTx (tx_from fundTx) (tx_to fundTx) chainID
             (gasEstimation * 150 ÷ 100)%Z (tx_value fundTx) nonce
             (Some (gasPrice * 150 ÷ 100)%Z)
             (tx_maxFeePerGas fundTx) (tx_maxPriorityFeePerGas fundTx)
             (tx_type fundTx) (tx_data fundTx) in
      signedTxs ← signFunding gasEstimation gasPrice chainID (S nonce) rest;
      mret (signTransaction senderWallet fundTx :: signedTxs)
  end.

(** [fundAccounts] starts from [readyMnemonicIndexes = []]; the wait
    loop is the one of the native distributor, over [txHashes] as
    returned. [acc.missingFunds.toNumber()] is the amount itself for a
    [safeAmount]. *)
Definition fundAccounts (costs : tokenRuntimeCosts) (accounts : list distributeAccount)
    (calls0 : nat) : result (list nat * list string) :=
  gasEstimation ← ERC20Runtime.EstimateBaseTx tokenRuntime;
  let gasPrice := getGasPrice node in
  let chainID := getChainId node in
  let nonce := getTransactionCount node (walletAddress senderWallet) in
  signedTxs ← signFunding gasEstimation gasPrice chainID nonce accounts;
  txHashes ← Batcher.batchTransactions (axios node) signedTxs batchSize calls0;
  mret (awaitAll node accounts 0 txHashes ([], [])).

Definition distributeTokens (readyMnemonicIndexes : list nat) (calls0 : nat)
    : result (list nat) :=
  match calculateRuntimeCosts readyMnemonicIndexes with
  | None => Ok readyMnemonicIndexes
  | Some baseCosts =>
      shortAddresses ← findAccountsForDistribution (subAccount baseCosts)
                         readyMnemonicIndexes;
      let initialAccCount := heap_size shortAddresses in
      if bool_decide (initialAccCount = 0) then mret readyMnemonicIndexes
      else
        fundableAccounts ← getFundableAccounts baseCosts shortAddresses;
        r ← fundAccounts baseCosts fundableAccounts calls0;
        mret r.1
  end.
End tokenDistributor.

End TokenDistributor.

(** ** The version of engine.ts that signs a flat list of requests *)

Module EngineList.

Record EngineContext : Type := mkContext {
  accountIndexes : list nat;
  numTxs : nat;
  batchSize : nat;
  dynamic : bool
}.

(** [Run] with the value-transfer runtime that returns one list:
    [sign] is the wallets' [signTransaction], [getFeeData] the node's
    fee data. The account objects that [ConstructTransactions] updated
    are those handed to [signTransactions]. *)
Definition Run (sign : Wallet → TransactionRequest → string + SignedTransaction)
    (fromMnemonic : nat → string) (node : Node) (getFeeData : FeeData)
    (runtime : EOARuntime.t) (ctx : EngineContext) (calls0 : nat)
    : result (list string) :=
  let accounts :=
    Signer.getSenderAccounts fromMnemonic (getTransactionCount node)
      (accountIndexes ctx) (numTxs ctx) in
  '(accounts', rawTransactions) ←
     EOARuntimeList.ConstructTransactions runtime (getChainId node) getFeeData
       (dynamic ctx) accounts (numTxs ctx);
  '(signedTransactions, failedTxnSignErrors) ←
     Signer.signTransactions sign accounts' rawTransactions;
  mret (Batcher.sendTransactionsInParallelBySender (axios node) signedTransactions calls0).

End EngineList.

(** ** The run (index.ts) *)

Module Main.

Inductive RuntimeType : Type := EOA | ERC20 | ERC721.

Section run.
Context `{Heap Distributor.distributeAccount H}.
Variable fromMnemonic : nat → string.
Variable node : Node.

(** [run], from the distribution on. [engine] is what follows it:
    [Engine.Run] with the runtime of the mode and the collection of the
    statistics. The list handed to the engine is the one [distribute]
    returned; the token distributor reads it and builds a list of its
    own. A [Throw] is what [run().catch] logs before the process exits.
    [callsNative] and [callsToken] number the first POST of the two
    distributions. *)
Definition run (mode : RuntimeType) (runtime : Runtime) (tokenRuntime : ERC20Runtime.t)
    (subAccountsCount transactionCount batchSize : nat)
    (callsNative callsToken : nat)
    (engine : list nat → result (list string)) : result (list string) :=
  accountIndexes ← Distributor.distribute (H:=H) fromMnemonic node runtime
                     transactionCount subAccountsCount batchSize callsNative;
  _ ← match mode with
      | ERC20 =>
          TokenDistributor.distributeTokens (H:=H) fromMnemonic node tokenRuntime
            transactionCount batchSize accountIndexes callsToken
      | _ => mret accountIndexes
      end;
  engine accountIndexes.
End run.

End Main.

(** ** Receipts, in the specification's words *)

(** A receipt was observed and its status is the success value. *)
Definition receiptSucceeded (outcome : waitOutcome) : bool :=
  match outcome with
  | WaitResolved (Some txReceipt) => bool_decide (status txReceipt = Some 1)
  | _ => false
  end.

(** A receipt was observed and its status is not the failure value. *)
Definition receiptNotFailed (outcome : waitOutcome) : bool :=
  match outcome with
  | WaitResolved (Some txReceipt) => negb (bool_decide (status txReceipt = Some 0))
  | _ => false
  end.

(** The indexes of the accounts whose funding transaction, paired with
    them position by position, has a receipt that did not fail. *)
Definition confirmedIndexes (node : Node) (hashOf : SignedTransaction → string)
    (accounts : list Distributor.distributeAccount)
    (signedTxs : list SignedTransaction) : list nat :=
  (λ funded, Distributor.mnemonicIndex funded.1)
  <$> filter (λ funded, receiptNotFailed (waitForTransaction node (hashOf funded.2)) = true)
             (zip accounts signedTxs).

(** ** The greedy allocation, in the specification's words

    Entries are taken one at a time from the shortfall collection; each
    is taken while the tracked balance (the starting balance less what
    was taken before) exceeds [bound]; the taking stops when the
    collection is exhausted or the tracked balance no longer exceeds
    [bound]; taking nothing is the insufficient-funds error. *)

Definition greedyAllocation (bound balance : Z)
    (shortfall : list Distributor.distributeAccount)
    (outcome : result (list Distributor.distributeAccount)) : Prop :=
  ∃ taken left,
    shortfall ≡ₚ taken ++ left
    ∧ (∀ before acc after, taken = before ++ acc :: after →
         (bound < balance - Distributor.totalMissing before)%Z)
    ∧ (left = [] ∨ (balance - Distributor.totalMissing taken ≤ bound)%Z)
    ∧ outcome = match taken with
                | [] => Throw errNotEnoughFunds
                | _ :: _ => Ok taken
                end.

(** ** Nodes and inputs to run the model on *)

Module Fixtures.

(** A node that is down: every call is rejected. *)
Definition deadNode {Payload} (n : nat) (data : list (Batcher.RpcRequest Payload))
    : string + list Batcher.RpcResponse :=
  inl "connect ECONNREFUSED".

(** A node whose every second connection breaks, and that accepts each
    transaction otherwise. *)
Definition flakyNode {Payload} (n : nat) (data : list (Batcher.RpcRequest Payload))
    : string + list Batcher.RpcResponse :=
  if Nat.even n then inl "socket hang up"
  else inr ((λ _, Batcher.RpcResult "0x5e1d") <$> data).

(** A node that accepts each transaction. *)
Definition steadyNode {Payload} (n : nat) (data : list (Batcher.RpcRequest Payload))
    : string + list Batcher.RpcResponse :=
  inr ((λ request,
          Batcher.RpcResult (Batcher.hashOfRequest (λ _ : Payload, "0x5e1d") request))
       <$> data).

Definition oneSender : gmap string (list string) := {[ "0xA1" := ["0xf86b01"] ]}.

Definition twoSenders : gmap string (list string) :=
  <[ "0xB2" := ["0xf86c01"; "0xf86c02"] ]> {[ "0xA1" := ["0xf86b01"] ]}.

(** Addresses: the index written out. *)
Definition addressOf (index : nat) : string := "0x" +:+ pretty index.

(** A receipt with [status: 1], one with [status: 0], and one without a
    status. *)
Definition receiptSuccess : TransactionReceipt := mkReceipt (Some 1).
Definition receiptFailure : TransactionReceipt := mkReceipt (Some 0).
Definition receiptNoStatus : TransactionReceipt := mkReceipt None.

(** A chain on which the root wallet holds [rootBalance] wei and every
    other account nothing, at a gas price of 1 gwei and 21000 gas per
    transfer. *)
Definition chain (rootBalance : Z) (wait : string → waitOutcome)
    (post : nat → list (Batcher.RpcRequest SignedTransaction)
            → string + list Batcher.RpcResponse) : Node :=
  mkNode (λ a, if bool_decide (a = addressOf 0) then rootBalance else 0%Z)
         (10 ^ 9)%Z 100%Z (λ _, 0) (λ _ _ _, 21000%Z) wait post.

(** The root wallet holds one ether. *)
Definition oneEther : Node :=
  chain (10 ^ 18)%Z (λ _, WaitResolved (Some receiptSuccess)) steadyNode.

(** The root wallet holds 20000 wei. *)
Definition dust : Node :=
  chain 20000%Z (λ _, WaitResolved (Some receiptSuccess)) steadyNode.

(** Transfers of 0.0001 ether. *)
Definition transfers : Runtime := mkEstimator (10 ^ 14)%Z (Ok 21000%Z) (10 ^ 9)%Z.

(** A deployed token of which the supplier holds 5 and every other
    account 7. *)
Definition token : ERC20Runtime.t :=
  ERC20Runtime.mkRuntime (Some "0xToken")
    (λ a, if bool_decide (a = addressOf 0) then 5%Z else 7%Z)
    50000%Z 1%Z (addressOf 0).

(** Each account is to hold 10 tokens. *)
Definition tenTokens : TokenDistributor.tokenRuntimeCosts :=
  TokenDistributor.mkCosts 10%Z 10%Z.

(** A node that answers the first request of every call with an error
    and accepts the others. *)
Definition pickyNode {Payload} (n : nat) (data : list (Batcher.RpcRequest Payload))
    : string + list Batcher.RpcResponse :=
  inr (imap (λ i _, if i =? 0 then Batcher.RpcError "insufficient funds"
                    else Batcher.RpcResult "0xb2") data).

(** The hash [steadyNode] answers with. *)
Definition steadyHash (tx : SignedTransaction) : string := "0x5e1d".

(** Chains on which every receipt comes without a status, and on which
    the node is picky. *)
Definition noStatus : Node :=
  chain (10 ^ 18)%Z (λ _, WaitResolved (Some receiptNoStatus)) steadyNode.

Definition picky : Node :=
  chain (10 ^ 18)%Z (λ _, WaitResolved (Some receiptSuccess)) pickyNode.

Definition noCosts : Distributor.runtimeCosts := Distributor.mkCosts 21000%Z 5%Z.

Definition shortOne : Distributor.distributeAccount :=
  Distributor.mkAccount 5%Z (addressOf 1) 1.
Definition shortTwo : Distributor.distributeAccount :=
  Distributor.mkAccount 5%Z (addressOf 2) 2.

(** The value-transfer runtime before London (no fee data), and the
    transaction counts of a chain on which account 1 has sent 7
    transactions. *)
Definition legacy : EOARuntime.t :=
  EOARuntime.mkRuntime 21000%Z (10 ^ 9)%Z (10 ^ 14)%Z None 100%Z.

Definition sentSeven (address : string) : nat :=
  if bool_decide (address = addressOf 1) then 7 else 0.

(** A chain on which every account holds one ether, and the cost side
    of the token runtime: no value moved, 50000 gas per transfer. *)
Definition funded : Node :=
  mkNode (λ _, (10 ^ 18)%Z) (10 ^ 9)%Z 100%Z (λ _, 0) (λ _ _ _, 21000%Z)
         (λ _, WaitResolved (Some receiptSuccess)) steadyNode.

Definition tokenGas : Runtime := mkEstimator 0%Z (Ok 50000%Z) (10 ^ 9)%Z.

End Fixtures.

(** ** More nodes and inputs *)

Module Samples.

(** A node that turns down the transaction [0xbad] and accepts every
    other one under a hash made of its text. *)
Definition verdict (tx : string) : Batcher.RpcResponse :=
  if bool_decide (tx = "0xbad") then Batcher.RpcError "nonce too low"
  else Batcher.RpcResult ("hash:" +:+ tx).

Definition judgingNode (n : nat) (data : list (Batcher.RpcRequest string))
    : string + list Batcher.RpcResponse :=
  inr (Batcher.verdictOfRequest verdict <$> data).

(** A dispatcher state with one group left to a pending retry. *)
Definition oneGroupPending : Batcher.Dispatch string :=
  Batcher.detach [Batcher.eth_sendRawTransaction "0xf86b01" 0] (Batcher.newDispatch 1).

(** A deployed token of which the supplier holds 100, the account at
    index 2 nothing, and every other account 7. *)
Definition unevenToken : ERC20Runtime.t :=
  ERC20Runtime.mkRuntime (Some "0xToken")
    (λ a, if bool_decide (a = Fixtures.addressOf 0) then 100%Z
          else if bool_decide (a = Fixtures.addressOf 2) then 0%Z else 7%Z)
    50000%Z 1%Z (Fixtures.addressOf 0).

(** Each account is to hold 5 tokens, 10 in all. *)
Definition fiveTokens : TokenDistributor.tokenRuntimeCosts :=
  TokenDistributor.mkCosts 10%Z 5%Z.

(** The token runtime's fee fields and an NFT runtime, both before
    London (no fee data): 50000 gas per transfer, 90000 per mint, at
    1 gwei. *)
Definition tokenFees : ERC20Runtime.fees :=
  ERC20Runtime.mkFees 50000%Z (10 ^ 9)%Z None 100%Z.

Definition nfts : ERC721Runtime.t :=
  ERC721Runtime.mkRuntime (Some "0xNFT") "https://really-valuable-nft-page.io"
    90000%Z (10 ^ 9)%Z None 100%Z.

(** The sender accounts of the indexes 1, 2 and 3, of which the first
    has sent 7 transactions. *)
Definition threeSenders : list Signer.senderAccount :=
  Signer.getSenderAccounts Fixtures.addressOf Fixtures.sentSeven [1; 2; 3] 3.

(** A chain whose node judges each transaction by itself and accepts
    it, with every account holding one ether. *)
Definition acceptAll (tx : SignedTransaction) : Batcher.RpcResponse :=
  Batcher.RpcResult "0x5e1d".

Definition accepting : Node :=
  mkNode (λ _, (10 ^ 18)%Z) (10 ^ 9)%Z 100%Z (λ _, 0) (λ _ _ _, 21000%Z)
         (λ _, WaitResolved (Some Fixtures.receiptSuccess))
         (λ n data, inr (Batcher.verdictOfRequest acceptAll <$> data)).

(** A signer, over requests that are numbers, that rejects the request
    4 and signs every other one. *)
Definition pickySigner (w : Wallet) (tx : nat) : string + (string * nat) :=
  if tx =? 4 then inl "invalid request" else inr (walletAddress w, tx).

(** A wallet that signs the requests sent from its own address only. *)
Definition ownSigner (w : Wallet) (tx : TransactionRequest) : string + SignedTransaction :=
  if bool_decide (tx_from tx = Some (walletAddress w))
  then inr (signTransaction w tx)
  else inl "transaction from address mismatch".

Definition noFees : FeeData := mkFeeData None None.

End Samples.

(** * Properties *)

(** ** generateBatches *)

Section generateBatches_facts.
Context {A : Type}.
Implicit Types (items : list A) (batches front : list (list A)).

Lemma initBatches_finite n : ∀ k i batches,
  i + k = n →
  Batcher.initBatches (S k) i (Finite n) batches = Some (batches ++ replicate k []).
Proof.
  induction k as [|k IH]; intros i batches Hik.
  - simpl. replace (i <? n) with false by (symmetry; apply Nat.ltb_ge; lia).
    by rewrite app_nil_r.
  - change (Batcher.initBatches (S (S k)) i (Finite n) batches)
      with (if i <? n
            then Batcher.initBatches (S k) (S i) (Finite n) (batches ++ [[]])
            else Some batches).
    replace (i <? n) with true by (symmetry; apply Nat.ltb_lt; lia).
    rewrite (IH (S i)) by lia. by rewrite <- app_assoc.
Qed.

(** Under [Infinity] no amount of fuel ends the initialisation loop. *)
Lemma initBatches_infinity fuel : ∀ i batches,
  Batcher.initBatches fuel i Infinity batches = None.
Proof. induction fuel as [|fuel IH]; intros i batches; simpl; [done | apply IH]. Qed.

Lemma js_mod_is_zero_full n b :
  0 < n → n ≤ b → js_mod_is_zero n b = bool_decide (n = b).
Proof.
  intros Hn Hb. destruct b as [|b]; [lia|]. unfold js_mod_is_zero.
  case_bool_decide as Heq.
  - subst. rewrite Nat.Div0.mod_same. done.
  - rewrite Nat.mod_small by lia. apply Nat.eqb_neq. lia.
Qed.

(** The second loop, started in a state where [front] holds the full
    groups, [cur] is being filled and [e] empty groups follow, with
    room for exactly the items left. *)
Lemma fillBatches_inv b (Hb : 0 < b) items : ∀ front cur e,
  Forall (Batcher.full b) front →
  length cur < b →
  b * e < length cur + length items ≤ b * (e + 1) →
  ∃ front' last,
    Batcher.fillBatches b items (length front) (front ++ cur :: replicate e [])
      = Ok (front' ++ [last])
    ∧ Forall (Batcher.full b) front'
    ∧ 0 < length last ≤ b
    ∧ concat (front' ++ [last]) = concat front ++ cur ++ items.
Proof.
  induction items as [|x rest IH]; intros front cur e Hfront Hcur Hroom.
  - simpl in *. assert (e = 0) as -> by (destruct e; [done | nia]). simpl.
    exists front, cur. repeat split; [done | lia | lia |].
    by rewrite concat_app, app_nil_r; simpl; rewrite !app_nil_r.
  - simpl. rewrite list_lookup_middle by done.
    rewrite insert_app_r_alt, Nat.sub_diag by lia. simpl.
    rewrite js_mod_is_zero_full by (rewrite length_app; simpl; lia).
    rewrite length_app. simpl in *. case_bool_decide as Hfull.
    + destruct rest as [|y rest'].
      * simpl in Hroom. assert (e = 0) as -> by (destruct e; [done | nia]). simpl.
        exists front, (cur ++ [x]). rewrite length_app. simpl.
        repeat split; [done | lia | lia |].
        rewrite concat_app. simpl. by rewrite app_nil_r.
      * destruct e as [|e]; [simpl in *; nia|].
        destruct (IH (front ++ [cur ++ [x]]) [] e) as (front' & last & Hrun & ? & ? & Hcat).
        { apply Forall_app. split; [done|]. apply Forall_singleton.
          unfold Batcher.full. rewrite length_app. simpl. lia. }
        { simpl. lia. }
        { simpl in *. nia. }
        exists front', last. rewrite length_app in Hrun. simpl in Hrun.
        rewrite <- app_assoc in Hrun. simpl in Hrun.
        replace (length front + 1) with (S (length front)) in Hrun by lia.
        repeat split; [done | done | lia | lia |].
        rewrite Hcat, concat_app. simpl. by rewrite app_nil_r, <- !app_assoc.
    + destruct (IH front (cur ++ [x]) e) as (front' & last & Hrun & ? & ? & Hcat);
        [done | rewrite length_app; simpl; lia | rewrite length_app; simpl; lia |].
      exists front', last. repeat split; [done | done | lia | lia |].
      rewrite Hcat. by rewrite <- !app_assoc.
Qed.

Lemma ceil_div_room n b :
  0 < n → 0 < b →
  ∃ k, ceil_div n b = Finite (S k) ∧ b * k < n ≤ b * (k + 1).
Proof.
  intros Hn Hb. destruct b as [|b]; [lia|]. unfold ceil_div.
  pose proof (Nat.div_mod_eq n (S b)) as Hdm.
  pose proof (Nat.mod_upper_bound n (S b)) as Hlt.
  destruct (n mod S b =? 0) eqn:Hmod.
  - apply Nat.eqb_eq in Hmod.
    destruct (n / S b) as [|k] eqn:Hq; [nia|].
    exists k. split; [done | nia].
  - apply Nat.eqb_neq in Hmod. exists (n / S b). split; [done | nia].
Qed.
Lemma generateBatches_empty b :
0 < b → Batcher.generateBatches (@nil A) b = Ok [[]].
Proof.
  intros Hb. destruct b as [|b]; [lia|].
  unfold Batcher.generateBatches, ceil_div. simpl length.
  by rewrite Nat.Div0.mod_0_l, Nat.Div0.div_0_l.
Qed.

Lemma generateBatches_nonempty items b :
0 < b → items ≠ [] →
∃ front last,
  Batcher.generateBatches items b = Ok (front ++ [last])
  ∧ Forall (Batcher.full b) front
  ∧ 0 < length last ≤ b
  ∧ concat (front ++ [last]) = items.
Proof.
  intros Hb Hitems.
  destruct (ceil_div_room (length items) b) as (k & Hk & Hroom);
    [destruct items; [done | simpl; lia] | done |].
  unfold Batcher.generateBatches. rewrite Hk. simpl js_is_zero. cbv iota.
  unfold Batcher.initFuel.
  rewrite (initBatches_finite (S k) (S k) 0) by lia.
  destruct (fillBatches_inv b Hb items [] [] k)
    as (front & last & Hrun & Hfront & Hlast & Hcat);
    [constructor | simpl; lia | simpl in *; lia |].
  exists front, last.
  repeat split; [exact Hrun | exact Hfront | lia | lia | by rewrite Hcat].
Qed.

(** For a positive size the groups are there and hold the items in
    their order. *)
Lemma generateBatches_concat items b :
0 < b →
∃ batches, Batcher.generateBatches items b = Ok batches ∧ concat batches = items.
Proof.
  intros Hb. destruct items as [|x rest].
  - exists [[]]. by rewrite generateBatches_empty.
  - destruct (generateBatches_nonempty (x :: rest) b) as (front & last & Hrun & _ & _ & Hcat);
      [done | done |].
    by exists (front ++ [last]).
Qed.
End generateBatches_facts.

(** C5, as amended: for a positive [batchSize], [generateBatches] returns;
    all groups but the last have [batchSize] items and the last has at
    most that many; their concatenation is the input in its order; a
    non-empty input leaves no group empty, and an empty input gives
    exactly one empty group. *)
Theorem generateBatches_partition {A} (items : list A) (batchSize : nat) :
  0 < batchSize →
  ∃ front last,
    Batcher.generateBatches items batchSize = Ok (front ++ [last])
    ∧ Forall (λ g, length g = batchSize) front
    ∧ length last ≤ batchSize
    ∧ concat (front ++ [last]) = items
    ∧ (items ≠ [] → 0 < length last)
    ∧ (items = [] → front = [] ∧ last = []).
Proof.
  intros Hb. destruct items as [|x rest].
  - exists [], []. rewrite generateBatches_empty by done.
    repeat split; simpl; try done; lia.
  - destruct (generateBatches_nonempty (x :: rest) batchSize)
      as (front & last & Hrun & Hfront & Hlast & Hcat); [done | done |].
    exists front, last.
    repeat split; [exact Hrun | exact Hfront | lia | exact Hcat | intros; lia | done | done].
Qed.

(** The 45 transactions of the specification's scenario. *)
Lemma generateBatches_partition_witness :
  ∃ front last,
    Batcher.generateBatches (seq 0 45) 20 = Ok (front ++ [last])
    ∧ Forall (λ g, length g = 20) front
    ∧ length last ≤ 20
    ∧ concat (front ++ [last]) = seq 0 45
    ∧ (seq 0 45 ≠ [] → 0 < length last)
    ∧ (seq 0 45 = [] → front = [] ∧ last = []).
Proof. apply (generateBatches_partition (seq 0 45) 20). lia. Defined.

(** C5, as stated, fails at [batchSize = 0]: for the empty input the
    quotient is [NaN], no group is created, and the result has no group
    at all instead of one empty group. *)
Lemma generateBatches_zero_batchSize :
  Batcher.generateBatches (@nil nat) 0 = Ok []
  ∧ Batcher.generateBatches (@nil nat) 0 ≠ Ok [[]].
Proof. split; [reflexivity | discriminate]. Qed.

(** With [batchSize = 0] and items to place the quotient is [Infinity]
    and the first loop has no end. *)
Lemma generateBatches_zero_batchSize_diverges {A} (x : A) (rest : list A) :
  Batcher.generateBatches (x :: rest) 0 = Diverge.
Proof. reflexivity. Qed.

(** ** Accounting of the dispatcher *)

Section dispatch_facts.
Context {Payload : Type}.
Variable axios : nat → list (Batcher.RpcRequest Payload) → string + list Batcher.RpcResponse.
Implicit Types (st : Batcher.Dispatch Payload).

Lemma collect_recorded content : ∀ st,
  Batcher.recorded (Batcher.collect content st) = Batcher.recorded st + length content
  ∧ Batcher.sendLog (Batcher.collect content st) = Batcher.sendLog st
  ∧ Batcher.detached (Batcher.collect content st) = Batcher.detached st.
Proof.
  unfold Batcher.collect, Batcher.recorded.
  induction content as [|cnt content IH]; intros st; simpl; [auto with lia|].
  destruct (IH (Batcher.collect1 st cnt)) as (-> & -> & ->).
  destruct cnt; simpl; rewrite ?length_app; simpl; auto with lia.
Qed.

Lemma abandoned_logError l st :
  Batcher.abandoned (Batcher.logError l st)
  = Batcher.abandoned st + (if Batcher.isMaxRetries l then 1 else 0).
Proof.
  unfold Batcher.abandoned, Batcher.logError. simpl.
  rewrite filter_app, length_app. f_equal.
  destruct l; reflexivity.
Qed.

(** A send with retries accounts for its one transaction: recorded, or
    abandoned. *)
Lemma retry_loop_accounting (Hnode : Batcher.answersEachRequest axios) attempts :
  ∀ data st, length data = 1 →
  Batcher.recorded (Batcher.sendTransactionWithRetry_loop axios attempts data st)
    + Batcher.abandoned (Batcher.sendTransactionWithRetry_loop axios attempts data st)
  = Batcher.recorded st + Batcher.abandoned st + 1.
Proof.
  induction attempts as [|attempts IH]; intros data st Hone; simpl.
  - rewrite abandoned_logError. unfold Batcher.recorded. simpl. lia.
  - destruct (axios (Batcher.calls st) data) as [message|content] eqn:Hcall.
    + rewrite IH, abandoned_logError by done.
      unfold Batcher.recorded, Batcher.abandoned. simpl. lia.
    + destruct (collect_recorded content (Batcher.tick st)) as (-> & Hlog & _).
      unfold Batcher.abandoned. rewrite Hlog. apply Hnode in Hcall.
      unfold Batcher.recorded. simpl. lia.
Qed.

Lemma sendBySender_accounting (Hnode : Batcher.answersEachRequest axios) txs : ∀ st,
  Batcher.recorded (Batcher.sendBySender axios txs st)
    + Batcher.abandoned (Batcher.sendBySender axios txs st)
  = Batcher.recorded st + Batcher.abandoned st + length txs.
Proof.
  unfold Batcher.sendBySender.
  induction txs as [|tx txs IH]; intros st; cbn [foldl length]; [lia|].
  rewrite IH. unfold Batcher.sendTransactionWithRetry.
  rewrite retry_loop_accounting by done. lia.
Qed.

Lemma parallel_accounting (Hnode : Batcher.answersEachRequest axios)
    (entries : list (string * list Payload)) : ∀ st,
  let st' := foldl (λ st entry, Batcher.sendBySender axios entry.2 st) st entries in
  Batcher.recorded st' + Batcher.abandoned st'
  = Batcher.recorded st + Batcher.abandoned st
    + sum_list_with (λ entry, length entry.2) entries.
Proof.
  induction entries as [|entry entries IH]; intros st; cbn [foldl sum_list_with]; [lia|].
  cbn zeta in IH. rewrite IH, sendBySender_accounting by done. lia.
Qed.

Lemma sendTransaction_accounting (Hnode : Batcher.answersEachRequest axios) data st :
  Batcher.recorded (Batcher.sendTransaction axios data st)
    + Batcher.pending (Batcher.sendTransaction axios data st)
  = Batcher.recorded st + Batcher.pending st + length data.
Proof.
  unfold Batcher.sendTransaction.
  destruct (axios (Batcher.calls st) data) as [message|content] eqn:Hcall.
  - unfold Batcher.pending, Batcher.recorded. simpl.
    rewrite sum_list_with_app. simpl. lia.
  - destruct (collect_recorded content (Batcher.tick st)) as (-> & _ & Hdet).
    unfold Batcher.pending. rewrite Hdet. apply Hnode in Hcall.
    unfold Batcher.recorded. simpl. lia.
Qed.

Lemma length_batchRequests (batch : list Payload) nextIndx :
  length (Batcher.batchRequests batch nextIndx) = length batch.
Proof. unfold Batcher.batchRequests. apply length_imap. Qed.

Lemma sendBatches_accounting (Hnode : Batcher.answersEachRequest axios)
    (batches : list (list Payload)) : ∀ nextIndx st,
  Batcher.recorded (Batcher.sendBatches axios batches nextIndx st)
    + Batcher.pending (Batcher.sendBatches axios batches nextIndx st)
  = Batcher.recorded st + Batcher.pending st + length (concat batches).
Proof.
  induction batches as [|batch batches IH]; intros nextIndx st; simpl; [lia|].
  rewrite IH, sendTransaction_accounting, length_batchRequests, length_app by done.
  lia.
Qed.
(** When no call is rejected nothing is abandoned and nothing is left
    pending. *)
Lemma retry_never_rejected (Hup : Batcher.neverRejects axios) attempts data st :
0 < attempts →
Batcher.abandoned (Batcher.sendTransactionWithRetry_loop axios attempts data st)
= Batcher.abandoned st.
Proof.
  intros Hattempts. destruct attempts as [|attempts]; [lia|]. simpl.
  destruct (Hup (Batcher.calls st) data) as [content ->].
  destruct (collect_recorded content (Batcher.tick st)) as (_ & Hlog & _).
  unfold Batcher.abandoned. by rewrite Hlog.
Qed.

Lemma parallel_never_rejected (Hup : Batcher.neverRejects axios)
  (entries : list (string * list Payload)) : ∀ st,
Batcher.abandoned (foldl (λ st entry, Batcher.sendBySender axios entry.2 st) st entries)
= Batcher.abandoned st.
Proof.
  induction entries as [|entry entries IH]; intros st; cbn [foldl]; [done|].
  rewrite IH. unfold Batcher.sendBySender. generalize (entry.2). intros txs.
  revert st. induction txs as [|tx txs IHtxs]; intros st; cbn [foldl]; [done|].
  rewrite IHtxs. unfold Batcher.sendTransactionWithRetry.
  apply retry_never_rejected; [done | lia].
Qed.

Lemma sendBatches_never_rejected (Hup : Batcher.neverRejects axios)
  (batches : list (list Payload)) : ∀ nextIndx st,
Batcher.pending (Batcher.sendBatches axios batches nextIndx st) = Batcher.pending st.
Proof.
  induction batches as [|batch batches IH]; intros nextIndx st; simpl; [done|].
  rewrite IH. unfold Batcher.sendTransaction.
  destruct (Hup (Batcher.calls st) (Batcher.batchRequests batch nextIndx)) as [content ->].
  destruct (collect_recorded content (Batcher.tick st)) as (_ & _ & Hdetached).
  unfold Batcher.pending. by rewrite Hdetached.
Qed.

Lemma resumeDetached_accounting (Hnode : Batcher.answersEachRequest axios) st :
Batcher.recorded (Batcher.resumeDetached axios st)
  + Batcher.pending (Batcher.resumeDetached axios st)
= Batcher.recorded st + Batcher.pending st.
Proof.
  unfold Batcher.resumeDetached.
  destruct (Batcher.detached st) as [|singleRequests rest] eqn:Hdetached; [done|].
  rewrite sendTransaction_accounting by done.
  unfold Batcher.pending, Batcher.recorded. rewrite Hdetached. simpl. lia.
Qed.

Lemma resumed_accounting (Hnode : Batcher.answersEachRequest axios) resumed : ∀ st,
Batcher.recorded (Nat.iter resumed (Batcher.resumeDetached axios) st)
  + Batcher.pending (Nat.iter resumed (Batcher.resumeDetached axios) st)
= Batcher.recorded st + Batcher.pending st.
Proof.
  induction resumed as [|resumed IH]; intros st; simpl; [done|].
  by rewrite resumeDetached_accounting, IH.
Qed.
End dispatch_facts.

(** C6, as amended: against a node that answers each successful call
    with one element per request, the identifiers and errors collected
    by the per-sender parallel mode, plus the sends abandoned after three
    failed attempts, number the transactions submitted; and the grouped
    mode, for a positive batch size, returns with identifiers and errors
    that, plus the transactions of the groups whose call failed and
    whose retry is pending, number the transactions submitted, at the
    return and after any number of those retries were taken up. *)
Theorem dispatch_accounting {Payload}
    (axios : nat → list (Batcher.RpcRequest Payload) → string + list Batcher.RpcResponse) :
  Batcher.answersEachRequest axios →
  (∀ (signedTxs : gmap string (list Payload)) calls0,
     let st := Batcher.sendTransactionsInParallelBySender_run axios signedTxs calls0 in
     length (Batcher.txHashes st) + length (Batcher.batchErrors st) + Batcher.abandoned st
     = Batcher.submitted signedTxs)
  ∧ (∀ (signedTxs : list Payload) batchSize calls0,
       0 < batchSize →
       ∃ st, Batcher.batchTransactions_run axios signedTxs batchSize calls0 = Ok st
             ∧ ∀ resumed,
                 let st' := Nat.iter resumed (Batcher.resumeDetached axios) st in
                 length (Batcher.txHashes st') + length (Batcher.batchErrors st')
                 + Batcher.pending st'
                 = length signedTxs).
Proof.
  intros Hnode. split.
  - intros signedTxs calls0. simpl.
    unfold Batcher.sendTransactionsInParallelBySender_run, Batcher.submitted.
    pose proof (parallel_accounting axios Hnode (map_to_list signedTxs)
                  (Batcher.newDispatch calls0)) as Hacc.
    cbn zeta in Hacc.
    change (Batcher.recorded (Batcher.newDispatch calls0)) with 0 in Hacc.
    change (Batcher.abandoned (Batcher.newDispatch calls0)) with 0 in Hacc.
    unfold Batcher.recorded in Hacc. lia.
  - intros signedTxs batchSize calls0 Hpos.
    destruct (generateBatches_concat signedTxs batchSize Hpos) as (batches & Hgen & Hcat).
    unfold Batcher.batchTransactions_run. rewrite Hgen. simpl.
    eexists. split; [reflexivity|]. intros resumed. cbn zeta.
    pose proof (resumed_accounting axios Hnode resumed
                  (Batcher.sendBatches axios batches 0 (Batcher.newDispatch calls0)))
      as Hresumed.
    pose proof (sendBatches_accounting axios Hnode batches 0
                  (Batcher.newDispatch calls0)) as Hacc.
    rewrite Hcat in Hacc.
    change (Batcher.recorded (Batcher.newDispatch calls0)) with 0 in Hacc.
    change (Batcher.pending (Batcher.newDispatch calls0)) with 0 in Hacc.
    unfold Batcher.recorded in Hacc, Hresumed. lia.
Qed.

Lemma flakyNode_answersEachRequest {Payload} :
  Batcher.answersEachRequest (@Fixtures.flakyNode Payload).
Proof.
  intros n data content. unfold Fixtures.flakyNode.
  destruct (Nat.even n); [discriminate|].
  intros [= <-]. apply length_fmap.
Qed.

Lemma dispatch_accounting_witness :
  (let st := Batcher.sendTransactionsInParallelBySender_run
               Fixtures.flakyNode Fixtures.twoSenders 0 in
   length (Batcher.txHashes st) + length (Batcher.batchErrors st) + Batcher.abandoned st
   = Batcher.submitted Fixtures.twoSenders)
  ∧ (∃ st, Batcher.batchTransactions_run Fixtures.flakyNode
             ["0xf86b01"; "0xf86b02"; "0xf86b03"] 2 0 = Ok st
           ∧ let st' := Nat.iter 1 (Batcher.resumeDetached Fixtures.flakyNode) st in
             length (Batcher.txHashes st') + length (Batcher.batchErrors st')
             + Batcher.pending st'
             = length ["0xf86b01"; "0xf86b02"; "0xf86b03"]).
Proof.
  split.
  - apply (proj1 (dispatch_accounting Fixtures.flakyNode flakyNode_answersEachRequest)).
  - destruct (proj2 (dispatch_accounting Fixtures.flakyNode flakyNode_answersEachRequest)
                ["0xf86b01"; "0xf86b02"; "0xf86b03"] 2 0) as (st & Hrun & Hcount); [lia|].
    exists st. split; [exact Hrun | exact (Hcount 1)].
Defined.

(** When, moreover, no call is rejected, the identifiers and the errors
    alone number the transactions submitted, in both modes. *)
Lemma accounting_without_rejection {Payload}
    (axios : nat → list (Batcher.RpcRequest Payload) → string + list Batcher.RpcResponse) :
  Batcher.answersEachRequest axios →
  Batcher.neverRejects axios →
  (∀ (signedTxs : gmap string (list Payload)) calls0,
     Batcher.recorded (Batcher.sendTransactionsInParallelBySender_run axios signedTxs calls0)
     = Batcher.submitted signedTxs)
  ∧ (∀ (signedTxs : list Payload) batchSize calls0,
       0 < batchSize →
       ∃ st, Batcher.batchTransactions_run axios signedTxs batchSize calls0 = Ok st
             ∧ Batcher.recorded st = length signedTxs).
Proof.
  intros Hnode Hup. split.
  - intros signedTxs calls0.
    unfold Batcher.sendTransactionsInParallelBySender_run, Batcher.submitted.
    pose proof (parallel_accounting axios Hnode (map_to_list signedTxs)
                  (Batcher.newDispatch calls0)) as Hacc.
    cbn zeta in Hacc.
    rewrite (parallel_never_rejected axios Hup) in Hacc.
    change (Batcher.recorded (Batcher.newDispatch calls0)) with 0 in Hacc.
    change (Batcher.abandoned (Batcher.newDispatch calls0)) with 0 in Hacc.
    lia.
  - intros signedTxs batchSize calls0 Hpos.
    destruct (generateBatches_concat signedTxs batchSize Hpos) as (batches & Hgen & Hcat).
    unfold Batcher.batchTransactions_run. rewrite Hgen. simpl.
    eexists. split; [reflexivity|].
    pose proof (sendBatches_accounting axios Hnode batches 0
                  (Batcher.newDispatch calls0)) as Hacc.
    rewrite (sendBatches_never_rejected axios Hup), Hcat in Hacc.
    change (Batcher.recorded (Batcher.newDispatch calls0)) with 0 in Hacc.
    change (Batcher.pending (Batcher.newDispatch calls0)) with 0 in Hacc.
    lia.
Qed.

(** C6, as stated, fails in the parallel mode: against a node that is
    down the one transaction submitted is tried three times and given up
    with a log line; it leaves neither an identifier nor an error. *)
Lemma abandoned_send_unaccounted :
  let st := Batcher.sendTransactionsInParallelBySender_run
              Fixtures.deadNode Fixtures.oneSender 0 in
  Batcher.submitted Fixtures.oneSender = 1
  ∧ Batcher.txHashes st = []
  ∧ Batcher.batchErrors st = []
  ∧ Batcher.calls st = 3
  ∧ length (Batcher.txHashes st) + length (Batcher.batchErrors st)
    ≠ Batcher.submitted Fixtures.oneSender.
Proof. vm_compute. repeat split; try reflexivity. discriminate. Qed.

(** In the grouped mode a failed call leaves its group to a retry that is
    not awaited: the call returns without the group's transactions. *)
Lemma failed_group_unaccounted :
  Batcher.batchTransactions Fixtures.deadNode ["0xf86b01"; "0xf86b02"] 2 0 = Ok [].
Proof. reflexivity. Qed.

(** ** The greedy allocation *)

Section allocation_facts.
Context `{Heap Distributor.distributeAccount H}.
Import Distributor.
Implicit Types (st : allocation H) (h : H).

Lemma totalMissing_app l k :
  totalMissing (l ++ k) = (totalMissing l + totalMissing k)%Z.
Proof. induction l as [|a l IH]; simpl; lia. Qed.

Lemma heap_pop_nonempty h :
  0 < heap_size h →
  ∃ acc rest, heap_pop h = Some (acc, rest)
              ∧ heap_items h ≡ₚ acc :: heap_items rest
              ∧ heap_size h = S (heap_size rest).
Proof.
  intros Hsize. pose proof (heap_pop_items h) as Hpop.
  rewrite heap_size_items in Hsize.
  destruct (heap_pop h) as [[acc rest]|].
  - exists acc, rest. split; [done|]. split; [done|].
    rewrite !heap_size_items, Hpop. done.
  - rewrite Hpop in Hsize. simpl in Hsize. lia.
Qed.

(** The loop ends within one pass per entry, and does what the
    specification says with the bound it is given. *)
Lemma allocate_spec bound fuel : ∀ st,
  heap_size (remainingSet st) < fuel →
  ∃ taken st',
    allocate fuel bound st = Some (Ok st')
    ∧ accountsToFund st' = accountsToFund st ++ taken
    ∧ distributorBalance st' = (distributorBalance st - totalMissing taken)%Z
    ∧ heap_items (remainingSet st) ≡ₚ taken ++ heap_items (remainingSet st')
    ∧ (∀ before acc after, taken = before ++ acc :: after →
         (bound < distributorBalance st - totalMissing before)%Z)
    ∧ (heap_size (remainingSet st') = 0 ∨ (distributorBalance st' ≤ bound)%Z).
Proof.
  induction fuel as [|fuel IH]; intros st Hfuel; [lia|]. simpl.
  case_bool_decide as Hbal; simpl.
  - case_bool_decide as Hsize.
    + destruct (heap_pop_nonempty _ Hsize) as (acc & rest & -> & Hperm & Hlen).
      destruct (IH (mkAllocation (accountsToFund st ++ [acc])
                      (distributorBalance st - missingFunds acc)%Z rest))
        as (taken & st' & Hrun & Hacc & Hbal' & Hperm' & Hwhile & Hstop);
        [simpl; lia|].
      simpl in *. exists (acc :: taken), st'.
      split; [done|]. split; [by rewrite Hacc, <- app_assoc|].
      split; [simpl; lia|]. split; [by rewrite Hperm, Hperm'|]. split; [|done].
      intros [|b before] acc' after Heq; simplify_eq/=; [lia|].
      specialize (Hwhile before acc' after eq_refl). lia.
    + exists [], st. rewrite app_nil_r. simpl.
      repeat split; [lia | done | by intros [] | left; lia].
  - exists [], st. rewrite app_nil_r. simpl.
    repeat split; [lia | done | by intros [] | right; lia].
Qed.

(** [fundable] meets the specification of the greedy allocation for
    the bound it is called with. *)
Lemma fundable_greedy bound balance h :
  greedyAllocation bound balance (heap_items h) (fundable bound balance h).
Proof.
  destruct (allocate_spec bound (S (heap_size h)) (mkAllocation [] balance h))
    as (taken & st' & Hrun & Hacc & Hbal & Hperm & Hwhile & Hstop);
    [simpl; lia|].
  exists taken, (heap_items (remainingSet st')).
  split; [done|]. split; [done|]. split.
  - destruct Hstop as [Hempty|Hle]; [left | right; simpl in *; lia].
    rewrite heap_size_items in Hempty. by apply nil_length_inv.
  - unfold fundable. rewrite Hrun. simpl. rewrite Hacc.
    destruct taken; reflexivity.
Qed.

(** The outcome is the error exactly when nothing could be taken: the
    collection is empty or the balance does not exceed the bound. *)
Lemma fundable_throw_iff bound balance h :
  fundable bound balance h = Throw errNotEnoughFunds
  ↔ heap_size h = 0 ∨ (balance ≤ bound)%Z.
Proof.
  destruct (fundable_greedy bound balance h)
    as (taken & left & Hperm & Hwhile & Hstop & ->).
  rewrite heap_size_items. split.
  - destruct taken as [|acc taken]; [|done]. intros _. simpl in *.
    destruct Hstop as [->|Hle]; [|right; lia].
    left. by rewrite Hperm.
  - intros Hnone. destruct taken as [|acc taken]; [done|]. exfalso.
    specialize (Hwhile [] acc taken eq_refl). simpl in Hwhile.
    destruct Hnone as [Hlen|Hle]; [|lia].
    rewrite Hperm in Hlen. simpl in Hlen. lia.
Qed.
End allocation_facts.

(** C3, as amended: both [getFundableAccounts] take entries from the
    shortfall collection one at a time, decrementing the tracked balance
    by the missing amount, as long as the tracked balance exceeds
    [accDistributionCost] (the gas estimate of one funding transfer, a
    number of gas units) in the native distributor and the per-account
    cost [subAccount] in the token distributor; they stop when the
    collection is exhausted or the balance no longer exceeds that bound.
    The token distributor computes on JS numbers: its half is stated for
    a cost, missing amounts and a supplier's balance that are
    [safeAmount]s. *)
Theorem greedy_allocation_stop_condition `{Heap Distributor.distributeAccount H}
    (fromMnemonic : nat → string) (node : Node) (tokenRuntime : ERC20Runtime.t) :
  (∀ costs (initialSet : H),
     greedyAllocation (Distributor.accDistributionCost costs)
       (getBalance node (fromMnemonic 0)) (heap_items initialSet)
       (Distributor.getFundableAccounts fromMnemonic node costs initialSet))
  ∧ (∀ costs (initialSet : H),
       safeAmount (TokenDistributor.subAccount costs) →
       Forall (λ acc, safeAmount (Distributor.missingFunds acc)) (heap_items initialSet) →
       match ERC20Runtime.GetSupplierBalance tokenRuntime with
       | Ok balance =>
           safeAmount balance →
           greedyAllocation (TokenDistributor.subAccount costs) balance
             (heap_items initialSet)
             (TokenDistributor.getFundableAccounts tokenRuntime costs initialSet)
       | Throw e =>
           TokenDistributor.getFundableAccounts tokenRuntime costs initialSet = Throw e
       | Diverge => False
       end).
Proof.
  split; intros costs initialSet.
  - apply fundable_greedy.
  - intros _ _. unfold TokenDistributor.getFundableAccounts.
    unfold ERC20Runtime.GetSupplierBalance, ERC20Runtime.GetTokenBalance.
    destruct (ERC20Runtime.contract tokenRuntime); simpl; [|done].
    intros _. apply fundable_greedy.
Qed.

Lemma greedy_allocation_stop_condition_witness :
  greedyAllocation 5 100 [Fixtures.shortTwo]
    (TokenDistributor.getFundableAccounts (H:=list _) Samples.unevenToken
       Samples.fiveTokens [Fixtures.shortTwo]).
Proof.
  refine (proj2 (greedy_allocation_stop_condition (H:=list _) Fixtures.addressOf
                   Fixtures.oneEther Samples.unevenToken)
            Samples.fiveTokens [Fixtures.shortTwo] _ _ _).
  - split; by vm_compute.
  - repeat constructor; by vm_compute.
  - split; by vm_compute.
Defined.

(** C3, as stated, fails for the token distributor: a supplier holding 5
    tokens has a positive balance, yet nothing is taken for an account
    missing 3 when the per-account cost is 10; the outcome is the error,
    which is not what a loop running while the balance is positive
    gives. *)
Lemma token_guard_is_not_positive_balance :
  let entry := Distributor.mkAccount 3 (Fixtures.addressOf 1) 1 in
  let outcome := TokenDistributor.getFundableAccounts (H:=list _)
                   Fixtures.token Fixtures.tenTokens [entry] in
  ERC20Runtime.GetSupplierBalance Fixtures.token = Ok 5%Z
  ∧ outcome = Throw errNotEnoughFunds
  ∧ ¬ greedyAllocation 0 5 [entry] outcome.
Proof.
  split; [reflexivity|]. split; [reflexivity|].
  intros (taken & left & Hperm & _ & Hstop & Hout).
  destruct taken as [|acc taken]; [|discriminate].
  simpl in *. destruct Hstop as [->|Hle]; [|lia].
  by apply Permutation_length in Hperm.
Qed.

(** C7: when the loop of [getFundableAccounts] takes no account from a
    non-empty shortfall collection, [getFundableAccounts] throws
    [errNotEnoughFunds]; [distribute] ([distributeTokens]) ends with that
    error instead of a list of ready indexes, and so does the run: no
    funding is sent and the engine is not started. *)
Theorem no_allocation_is_fatal `{Heap Distributor.distributeAccount H}
    (fromMnemonic : nat → string) (node : Node) (batchSize : nat)
    (mode : Main.RuntimeType) (runtimeEstimator : Runtime)
    (tokenRuntime : ERC20Runtime.t) (totalTx requestedSubAccounts : nat)
    (callsNative callsToken : nat) (engine : list nat → result (list string)) :
  (∀ costs (short : H) ready st,
     Distributor.calculateRuntimeCosts fromMnemonic node runtimeEstimator totalTx
       = Ok costs →
     Distributor.findAccountsForDistribution fromMnemonic node requestedSubAccounts
       (Distributor.subAccount costs) [] = (short, ready) →
     0 < heap_size short →
     Distributor.allocate (S (heap_size short)) (Distributor.accDistributionCost costs)
       (Distributor.mkAllocation [] (getBalance node (fromMnemonic 0)) short)
       = Some (Ok st) →
     Distributor.accountsToFund st = [] →
     Distributor.getFundableAccounts fromMnemonic node costs short
       = Throw errNotEnoughFunds
     ∧ Distributor.distribute (H:=H) fromMnemonic node runtimeEstimator totalTx
         requestedSubAccounts batchSize callsNative = Throw errNotEnoughFunds
     ∧ Main.run (H:=H) fromMnemonic node mode runtimeEstimator tokenRuntime
         requestedSubAccounts totalTx batchSize callsNative callsToken engine
       = Throw errNotEnoughFunds)
  ∧ (∀ readyMnemonicIndexes costs (short : H) balance st,
       Distributor.distribute (H:=H) fromMnemonic node runtimeEstimator totalTx
         requestedSubAccounts batchSize callsNative = Ok readyMnemonicIndexes →
       TokenDistributor.calculateRuntimeCosts tokenRuntime totalTx readyMnemonicIndexes
         = Some costs →
       TokenDistributor.findAccountsForDistribution fromMnemonic tokenRuntime
         (TokenDistributor.subAccount costs) readyMnemonicIndexes = Ok short →
       0 < heap_size short →
       ERC20Runtime.GetSupplierBalance tokenRuntime = Ok balance →
       Distributor.allocate (S (heap_size short)) (TokenDistributor.subAccount costs)
         (Distributor.mkAllocation [] balance short) = Some (Ok st) →
       Distributor.accountsToFund st = [] →
       TokenDistributor.getFundableAccounts tokenRuntime costs short
         = Throw errNotEnoughFunds
       ∧ TokenDistributor.distributeTokens (H:=H) fromMnemonic node tokenRuntime
           totalTx batchSize readyMnemonicIndexes callsToken = Throw errNotEnoughFunds
       ∧ Main.run (H:=H) fromMnemonic node Main.ERC20 runtimeEstimator tokenRuntime
           requestedSubAccounts totalTx batchSize callsNative callsToken engine
         = Throw errNotEnoughFunds).
Proof.
  split.
  - intros costs short ready st Hcosts Hscan Hsize Hrun Hnone.
    assert (Distributor.getFundableAccounts fromMnemonic node costs short
            = Throw errNotEnoughFunds) as Hthrow.
    { unfold Distributor.getFundableAccounts, Distributor.fundable, Distributor.ethWallet.
      cbn [walletAddress]. rewrite Hrun. simpl. by rewrite Hnone. }
    assert (Distributor.distribute (H:=H) fromMnemonic node runtimeEstimator totalTx
              requestedSubAccounts batchSize callsNative = Throw errNotEnoughFunds)
      as Hdistribute.
    { unfold Distributor.distribute.
      rewrite Hcosts. simpl. rewrite Hscan.
      rewrite bool_decide_eq_false_2 by lia. by rewrite Hthrow. }
    split; [done|]. split; [done|].
    unfold Main.run. by rewrite Hdistribute.
  - intros readyMnemonicIndexes costs short balance st
      Hnative Hcosts Hscan Hsize Hbal Hrun Hnone.
    assert (TokenDistributor.getFundableAccounts tokenRuntime costs short
            = Throw errNotEnoughFunds) as Hthrow.
    { unfold TokenDistributor.getFundableAccounts, Distributor.fundable.
      rewrite Hbal. cbn [mbind result_bind]. rewrite Hrun. simpl. by rewrite Hnone. }
    assert (TokenDistributor.distributeTokens (H:=H) fromMnemonic node tokenRuntime
              totalTx batchSize readyMnemonicIndexes callsToken = Throw errNotEnoughFunds)
      as Hdistribute.
    { unfold TokenDistributor.distributeTokens.
      rewrite Hcosts, Hscan. simpl.
      rewrite bool_decide_eq_false_2 by lia. by rewrite Hthrow. }
    split; [done|]. split; [done|].
    unfold Main.run. rewrite Hnative. cbn [mbind result_bind]. by rewrite Hdistribute.
Qed.

Lemma no_allocation_is_fatal_witness :
  Main.run (H:=list _) Fixtures.addressOf Fixtures.dust Main.EOA Fixtures.transfers
    Fixtures.token 2 500 20 0 0 (λ _, Ok []) = Throw errNotEnoughFunds
  ∧ Main.run (H:=list _) Fixtures.addressOf Fixtures.funded Main.ERC20 Fixtures.tokenGas
      Fixtures.token 2 20 20 0 0 (λ _, Ok []) = Throw errNotEnoughFunds.
Proof.
  split.
  - eapply (proj1 (no_allocation_is_fatal (H:=list _) Fixtures.addressOf Fixtures.dust 20
                     Main.EOA Fixtures.transfers Fixtures.token 500 2 0 0 (λ _, Ok []))).
    + reflexivity.
    + reflexivity.
    + simpl. lia.
    + reflexivity.
    + reflexivity.
  - eapply (proj2 (no_allocation_is_fatal (H:=list _) Fixtures.addressOf Fixtures.funded 20
                     Main.ERC20 Fixtures.tokenGas Fixtures.token 20 2 0 0 (λ _, Ok []))).
    + reflexivity.
    + reflexivity.
    + reflexivity.
    + simpl. lia.
    + reflexivity.
    + reflexivity.
    + reflexivity.
Defined.

(** ** Budget of the allocation *)

(** C1 fails on the native distributor. The root wallet holds one ether;
    two sub-accounts hold nothing and need 0.605 ether each (500
    transfers of 0.0001 ether at 1 gwei and 21000 gas, times 10). The
    loop compares the balance with the gas estimate of one distribution
    (21000), takes both accounts, and allocates 1.21 ether. *)
Theorem native_allocation_overspends :
  ∃ costs (short : list Distributor.distributeAccount) taken,
    Distributor.calculateRuntimeCosts Fixtures.addressOf Fixtures.oneEther
      Fixtures.transfers 500 = Ok costs
    ∧ Distributor.findAccountsForDistribution Fixtures.addressOf Fixtures.oneEther 2
        (Distributor.subAccount costs) [] = (short, [])
    ∧ Distributor.getFundableAccounts Fixtures.addressOf Fixtures.oneEther costs short
        = Ok taken
    ∧ length taken = 2
    ∧ getBalance Fixtures.oneEther (Fixtures.addressOf 0) = (10 ^ 18)%Z
    ∧ Distributor.totalMissing taken = (121 * 10 ^ 16)%Z
    ∧ (getBalance Fixtures.oneEther (Fixtures.addressOf 0)
       < Distributor.totalMissing taken)%Z.
Proof.
  eexists _, _, _.
  split; [reflexivity|]. split; [reflexivity|]. split; [reflexivity|].
  split; [reflexivity|]. split; [reflexivity|]. split; [reflexivity|].
  reflexivity.
Qed.

Section budget_facts.
Context `{Heap Distributor.distributeAccount H}.
Import Distributor.

(** What the loop guarantees for any bound: all the accounts taken but
    the last fit under the balance less the bound. *)
Lemma allocation_all_but_last bound balance (h : H) taken last :
  fundable bound balance h = Ok (taken ++ [last]) →
  (totalMissing taken < balance - bound)%Z.
Proof.
  intros Hrun. destruct (fundable_greedy bound balance h)
    as (taken' & left & _ & Hwhile & _ & Hout).
  rewrite Hrun in Hout. destruct taken' as [|acc taken'']; [done|].
  injection Hout as Heq. specialize (Hwhile taken last [] (eq_sym Heq)). lia.
Qed.

(** The token distributor's bound is the per-account cost, which no
    shortfall of its scan exceeds: there the accounts taken cost less
    than the supplier holds. *)
Lemma token_allocation_within_balance tokenRuntime costs (h : H) balance taken :
  ERC20Runtime.GetSupplierBalance tokenRuntime = Ok balance →
  Forall (λ acc, missingFunds acc ≤ TokenDistributor.subAccount costs)%Z (heap_items h) →
  TokenDistributor.getFundableAccounts tokenRuntime costs h = Ok taken →
  (totalMissing taken < balance)%Z.
Proof.
  intros Hbal Hle. unfold TokenDistributor.getFundableAccounts.
  rewrite Hbal. cbn [mbind result_bind]. intros Hrun.
  destruct (fundable_greedy (TokenDistributor.subAccount costs) balance h)
    as (taken' & left & Hperm & Hwhile & _ & Hout).
  rewrite Hrun in Hout. destruct taken' as [|acc taken'']; [done|].
  injection Hout as ->.
  destruct (exists_last (l:=acc :: taken'')) as (front & last & Hsplit); [done|].
  rewrite Hsplit in *. specialize (Hwhile front last [] eq_refl).
  rewrite totalMissing_app. simpl.
  assert (missingFunds last ≤ TokenDistributor.subAccount costs)%Z; [|lia].
  rewrite Forall_forall in Hle. apply Hle. rewrite Hperm.
  set_solver.
Qed.
End budget_facts.

(** ** The shortfall scan *)

Section scan_facts.
Context `{Heap Distributor.distributeAccount H}.
Import Distributor.
Variable fromMnemonic : nat → string.

Lemma native_scan node cost indexes : ∀ (short : H) ready,
  let balance index := getBalance node (fromMnemonic index) in
  let st := foldl (Distributor.scanIndex fromMnemonic node cost) (short, ready) indexes in
  heap_items st.1 ≡ₚ
    heap_items short
    ++ ((λ index, shortfallEntry fromMnemonic cost (balance index) index)
        <$> filter (λ index, balance index < cost)%Z indexes)
  ∧ st.2 = ready ++ filter (λ index, ¬ (balance index < cost)%Z) indexes.
Proof.
  induction indexes as [|index indexes IH]; intros short ready; simpl.
  { by rewrite !app_nil_r. }
  destruct (IH (Distributor.scanIndex fromMnemonic node cost (short, ready) index).1
               (Distributor.scanIndex fromMnemonic node cost (short, ready) index).2)
    as [Hitems Hready].
  simpl in Hitems, Hready. rewrite <- surjective_pairing in Hitems, Hready.
  rewrite Hitems, Hready. rewrite !filter_cons.
  unfold Distributor.scanIndex. simpl. case_bool_decide as Hlt.
  - rewrite decide_True, decide_False by tauto. simpl.
    rewrite heap_push_items. split; [|done].
    by rewrite <- app_assoc.
  - rewrite decide_False, decide_True by tauto. simpl.
    split; [done|]. by rewrite <- app_assoc.
Qed.

Lemma token_scan tokenRuntime token cost indexes : ∀ (short : H),
  ERC20Runtime.contract tokenRuntime = Some token →
  let balance index := ERC20Runtime.balanceOf tokenRuntime (fromMnemonic index) in
  ∃ short',
    TokenDistributor.scan fromMnemonic tokenRuntime cost indexes short = Ok short'
    ∧ heap_items short' ≡ₚ
        heap_items short
        ++ ((λ index, shortfallEntry fromMnemonic cost (balance index) index)
            <$> filter (λ index, balance index < cost)%Z indexes).
Proof.
  intros short Hinit. revert short.
  induction indexes as [|index indexes IH]; intros short; simpl.
  { exists short. by rewrite app_nil_r. }
  unfold TokenDistributor.scanIndex, ERC20Runtime.GetTokenBalance.
  rewrite Hinit. simpl. rewrite filter_cons. case_bool_decide as Hlt; simpl.
  - destruct (IH (heap_push (mkAccount
                    (cost - ERC20Runtime.balanceOf tokenRuntime (fromMnemonic index))
                    (fromMnemonic index) index) short))
      as (short' & -> & Hitems).
    exists short'. split; [done|].
    rewrite decide_True by done. simpl.
    by rewrite Hitems, heap_push_items, <- app_assoc.
  - destruct (IH short) as (short' & -> & Hitems).
    exists short'. split; [done|]. by rewrite decide_False by done.
Qed.

Lemma filter_none {A} (P : A → Prop) `{∀ x, Decision (P x)} (l : list A) :
  (∀ x, x ∈ l → ¬ P x) → filter P l = [].
Proof.
  induction l as [|x l IH]; intros Hnone; [done|].
  rewrite filter_cons, decide_False by (apply Hnone; left).
  apply IH. intros y Hin. apply Hnone. by right.
Qed.

(** With no index below the cost the token scan leaves its heap empty,
    and [distributeTokens] returns the list it was given. *)
Lemma token_nothing_short node tokenRuntime token totalTx batchSize calls0
    readyMnemonicIndexes costs :
  ERC20Runtime.contract tokenRuntime = Some token →
  TokenDistributor.calculateRuntimeCosts tokenRuntime totalTx readyMnemonicIndexes
    = Some costs →
  (∀ index, index ∈ readyMnemonicIndexes →
     ¬ (ERC20Runtime.balanceOf tokenRuntime (fromMnemonic index)
        < TokenDistributor.subAccount costs)%Z) →
  (∃ short : H,
     TokenDistributor.findAccountsForDistribution fromMnemonic tokenRuntime
       (TokenDistributor.subAccount costs) readyMnemonicIndexes = Ok short
     ∧ heap_size short = 0)
  ∧ TokenDistributor.distributeTokens (H:=H) fromMnemonic node tokenRuntime totalTx
      batchSize readyMnemonicIndexes calls0 = Ok readyMnemonicIndexes.
Proof.
  intros Hinit Hcosts Hnone.
  destruct (token_scan tokenRuntime token (TokenDistributor.subAccount costs)
              readyMnemonicIndexes heap_new Hinit) as (short & Hscan & Hitems).
  rewrite heap_new_items in Hitems. simpl in Hitems.
  assert (heap_size short = 0) as Hsize.
  { rewrite heap_size_items, Hitems, length_fmap.
    by rewrite filter_none. }
  split.
  - exists short. by split.
  - unfold TokenDistributor.distributeTokens. rewrite Hcosts.
    unfold TokenDistributor.findAccountsForDistribution in *. rewrite Hscan.
    cbn [mbind result_bind]. by rewrite bool_decide_eq_true_2.
Qed.
End scan_facts.

(** C8, as amended: both scans query the balance of every candidate
    index; an index whose balance is below the per-account cost gets a
    shortfall entry with the cost less the balance as missing amount,
    and any other index gets no entry. The native scan appends such an
    index to the ready list at once, so that every index it scans has a
    shortfall entry or is ready, and never both. The token scan marks
    no index: its candidates are the indexes of the ready list it was
    given, which it leaves as it is, and [distributeTokens] returns that
    list when no index on it is short. The token scan computes on JS
    numbers: its half is stated for costs that are [safeAmount]s and
    balances that are not negative. *)
Theorem shortfall_scan `{Heap Distributor.distributeAccount H}
    (fromMnemonic : nat → string) (singleRunCost : Z) :
  (∀ node requestedSubAccounts,
     let '(short, ready) :=
       Distributor.findAccountsForDistribution (H:=H) fromMnemonic node
         requestedSubAccounts singleRunCost [] in
     ∀ index, 1 ≤ index ≤ requestedSubAccounts →
       let balance := getBalance node (fromMnemonic index) in
       ((balance < singleRunCost)%Z →
          Distributor.mkAccount (singleRunCost - balance) (fromMnemonic index) index
            ∈ heap_items short
          ∧ index ∉ ready)
       ∧ (¬ (balance < singleRunCost)%Z →
            index ∈ ready
            ∧ ∀ acc, acc ∈ heap_items short → Distributor.mnemonicIndex acc ≠ index)
       ∧ ((∃ acc, acc ∈ heap_items short ∧ Distributor.mnemonicIndex acc = index)
          ∨ index ∈ ready))
  ∧ (∀ tokenRuntime token readyMnemonicIndexes,
       ERC20Runtime.contract tokenRuntime = Some token →
       safeAmount singleRunCost →
       (∀ index, index ∈ readyMnemonicIndexes →
          (0 ≤ ERC20Runtime.balanceOf tokenRuntime (fromMnemonic index))%Z) →
       let short index :=
         (ERC20Runtime.balanceOf tokenRuntime (fromMnemonic index) < singleRunCost)%Z in
       ∃ shortAddresses : H,
         TokenDistributor.findAccountsForDistribution fromMnemonic tokenRuntime
           singleRunCost readyMnemonicIndexes = Ok shortAddresses
         ∧ (∀ index, index ∈ readyMnemonicIndexes →
              let balance := ERC20Runtime.balanceOf tokenRuntime (fromMnemonic index) in
              (short index →
                 Distributor.mkAccount (singleRunCost - balance) (fromMnemonic index) index
                   ∈ heap_items shortAddresses)
              ∧ (¬ short index →
                   ∀ acc, acc ∈ heap_items shortAddresses →
                          Distributor.mnemonicIndex acc ≠ index))
         ∧ ((∀ index, index ∈ readyMnemonicIndexes → ¬ short index) →
              heap_size shortAddresses = 0
              ∧ ∀ node totalTx batchSize calls0 costs,
                  TokenDistributor.calculateRuntimeCosts tokenRuntime totalTx
                    readyMnemonicIndexes = Some costs →
                  safeAmount (TokenDistributor.totalCost costs) →
                  TokenDistributor.subAccount costs = singleRunCost →
                  TokenDistributor.distributeTokens (H:=H) fromMnemonic node tokenRuntime
                    totalTx batchSize readyMnemonicIndexes calls0
                  = Ok readyMnemonicIndexes)).
Proof.
  split.
  - intros node requestedSubAccounts.
    pose proof (native_scan (H:=H) fromMnemonic node singleRunCost
                  (seq 1 requestedSubAccounts) heap_new []) as Hscan.
    unfold Distributor.findAccountsForDistribution.
    destruct (foldl _ _ _) as [short ready]. simpl in Hscan.
    destruct Hscan as [Hitems ->]. rewrite heap_new_items in Hitems. simpl in Hitems.
    intros index Hrange. set (balance := getBalance node (fromMnemonic index)).
    assert (index ∈ seq 1 requestedSubAccounts) as Hin by (apply elem_of_seq; lia).
    assert ((balance < singleRunCost)%Z →
            Distributor.mkAccount (singleRunCost - balance) (fromMnemonic index) index
              ∈ heap_items short ∧ index ∉ filter
                (λ index, ¬ (getBalance node (fromMnemonic index) < singleRunCost)%Z)
                (seq 1 requestedSubAccounts)) as Hshort.
    { intros Hlt. split.
      - rewrite Hitems. apply list_elem_of_fmap. exists index. split; [done|].
        by apply list_elem_of_filter.
      - rewrite list_elem_of_filter. tauto. }
    assert (¬ (balance < singleRunCost)%Z →
            index ∈ filter
                (λ index, ¬ (getBalance node (fromMnemonic index) < singleRunCost)%Z)
                (seq 1 requestedSubAccounts)
            ∧ ∀ acc, acc ∈ heap_items short → Distributor.mnemonicIndex acc ≠ index)
      as Hready.
    { intros Hge. split; [by apply list_elem_of_filter|].
      intros acc Hacc. rewrite Hitems in Hacc.
      apply list_elem_of_fmap in Hacc as (index' & -> & Hin').
      apply list_elem_of_filter in Hin' as [Hlt' _]. simpl.
      intros ->. done. }
    split; [done|]. split; [done|].
    destruct (decide (balance < singleRunCost)%Z) as [Hlt|Hge].
    + left. eexists. split; [apply Hshort, Hlt | done].
    + right. by apply Hready.
  - intros tokenRuntime token readyMnemonicIndexes Hinit _ _ short.
    destruct (token_scan (H:=H) fromMnemonic tokenRuntime token singleRunCost
                readyMnemonicIndexes heap_new Hinit) as (shortAddresses & Hrun & Hitems).
    exists shortAddresses. split; [done|].
    rewrite heap_new_items in Hitems. simpl in Hitems.
    split; [|intros Hnone; split].
    + intros index Hin balance. split.
      * intros Hlt. rewrite Hitems. apply list_elem_of_fmap. exists index.
        split; [done|]. by apply list_elem_of_filter.
      * intros Hge acc Hacc. rewrite Hitems in Hacc.
        apply list_elem_of_fmap in Hacc as (index' & -> & Hin').
        apply list_elem_of_filter in Hin' as [Hlt' _]. simpl.
        intros ->. done.
    + rewrite heap_size_items, Hitems, length_fmap.
      by rewrite filter_none.
    + intros node totalTx batchSize calls0 costs Hcosts _ Hcost. subst singleRunCost.
      by apply (token_nothing_short (H:=H) fromMnemonic node tokenRuntime token totalTx
                  batchSize calls0 readyMnemonicIndexes costs Hinit Hcosts).
Qed.

Lemma shortfall_scan_witness :
  (let '(short, ready) :=
     Distributor.findAccountsForDistribution (H:=list _) Fixtures.addressOf
       Fixtures.oneEther 2 (605 * 10 ^ 15)%Z [] in
   (∃ acc, acc ∈ heap_items short ∧ Distributor.mnemonicIndex acc = 1) ∨ 1 ∈ ready)
  ∧ (∃ short : list Distributor.distributeAccount,
       TokenDistributor.findAccountsForDistribution Fixtures.addressOf Fixtures.token
         10%Z [1; 2] = Ok short
       ∧ Distributor.mkAccount 3 (Fixtures.addressOf 1) 1 ∈ heap_items short)
  ∧ TokenDistributor.distributeTokens (H:=list _) Fixtures.addressOf Fixtures.funded
      Fixtures.token 10 20 [1; 2] 0 = Ok [1; 2].
Proof.
  split; [|split].
  - pose proof (proj1 (shortfall_scan (H:=list _) Fixtures.addressOf (605 * 10 ^ 15)%Z)
                  Fixtures.oneEther 2) as Hnative.
    destruct (Distributor.findAccountsForDistribution _ _ _ _ _) as [short ready].
    destruct (Hnative 1) as (_ & _ & Hor); [lia | exact Hor].
  - destruct (proj2 (shortfall_scan (H:=list _) Fixtures.addressOf 10%Z)
                Fixtures.token "0xToken" [1; 2]) as (short & Hrun & Hall & _).
    + reflexivity.
    + split; by vm_compute.
    + intros index Hin. simpl. case_bool_decide; lia.
    + exists short. split; [exact Hrun|].
      destruct (Hall 1) as [Hshort _]; [repeat constructor|].
      apply Hshort. reflexivity.
  - destruct (proj2 (shortfall_scan (H:=list _) Fixtures.addressOf 5%Z)
                Fixtures.token "0xToken" [1; 2]) as (short & _ & _ & Hnone).
    + reflexivity.
    + split; by vm_compute.
    + intros index Hin. simpl. case_bool_decide; lia.
    + destruct Hnone as [_ Hsame].
      * intros index Hin. simpl. case_bool_decide; lia.
      * apply (Hsame Fixtures.funded 10 20 0 Samples.fiveTokens);
          [reflexivity | split; by vm_compute | reflexivity].
Defined.

(** C8, as stated, fails for the token distributor. Of the candidates 1
    and 2 the account of index 1 holds 7 tokens where 5 are needed: the
    scan records an entry for index 2 alone, and marks nothing ready;
    the list that [distributeTokens] returns holds the index 2, which
    was funded, and not the index 1, which ends up neither in the
    shortfall collection nor in the ready list. *)
Lemma token_scan_marks_nothing :
  TokenDistributor.calculateRuntimeCosts Samples.unevenToken 10 [1; 2]
    = Some Samples.fiveTokens
  ∧ ¬ (ERC20Runtime.balanceOf Samples.unevenToken (Fixtures.addressOf 1) < 5)%Z
  ∧ TokenDistributor.findAccountsForDistribution (H:=list _) Fixtures.addressOf
      Samples.unevenToken 5 [1; 2]
    = Ok [Distributor.mkAccount 5 (Fixtures.addressOf 2) 2]
  ∧ TokenDistributor.distributeTokens (H:=list _) Fixtures.addressOf Fixtures.funded
      Samples.unevenToken 10 20 [1; 2] 0 = Ok [2]
  ∧ 1 ∉ [2].
Proof.
  split; [reflexivity|]. split; [by vm_compute|]. split; [reflexivity|].
  split; [reflexivity|]. by intros [?|?%elem_of_nil]%elem_of_cons.
Qed.

(** ** The native funding target *)

(** C9: [calculateRuntimeCosts] sets the per-account balance to the cost
    of one operation (gas price times gas estimate, plus the value
    moved), times the number of transactions of the account, times 10. *)
Theorem native_funding_target (fromMnemonic : nat → string) (node : Node)
    (runtimeEstimator : Runtime) (totalTx : nat) (baseTxEstimate : Z) :
  EstimateBaseTx runtimeEstimator = Ok baseTxEstimate →
  ∃ costs,
    Distributor.calculateRuntimeCosts fromMnemonic node runtimeEstimator totalTx
      = Ok costs
    ∧ (let operationCost :=
         GetGasPrice runtimeEstimator * baseTxEstimate + GetValue runtimeEstimator in
       Distributor.subAccount costs = 10 * (operationCost * Z.of_nat totalTx))%Z
    ∧ Distributor.accDistributionCost costs
      = estimateGas node (fromMnemonic 0) (fromMnemonic 1) (Distributor.subAccount costs).
Proof.
  intros Hestimate. unfold Distributor.calculateRuntimeCosts.
  rewrite Hestimate. simpl. eexists. split; [reflexivity|].
  simpl. split; [lia | reflexivity].
Qed.

Lemma native_funding_target_witness :
  ∃ costs,
    Distributor.calculateRuntimeCosts Fixtures.addressOf Fixtures.oneEther
      Fixtures.transfers 500 = Ok costs
    ∧ (let operationCost :=
         GetGasPrice Fixtures.transfers * 21000 + GetValue Fixtures.transfers in
       Distributor.subAccount costs = 10 * (operationCost * Z.of_nat 500))%Z
    ∧ Distributor.accDistributionCost costs
      = estimateGas Fixtures.oneEther (Fixtures.addressOf 0) (Fixtures.addressOf 1)
          (Distributor.subAccount costs).
Proof.
  apply (native_funding_target Fixtures.addressOf Fixtures.oneEther Fixtures.transfers
           500 21000).
  reflexivity.
Defined.

(** A runtime whose estimate throws (a token runtime not yet
    initialised) leaves no cost: the error goes up. *)
Lemma calculateRuntimeCosts_throws fromMnemonic node runtimeEstimator totalTx e :
  EstimateBaseTx runtimeEstimator = Throw e →
  Distributor.calculateRuntimeCosts fromMnemonic node runtimeEstimator totalTx = Throw e.
Proof. intros Hthrow. unfold Distributor.calculateRuntimeCosts. by rewrite Hthrow. Qed.

(** ** Receipts of the funding transactions *)

(** For a positive batch size the grouped mode returns, whatever the
    node answers. *)
Lemma batchTransactions_returns {Payload}
    (post : nat → list (Batcher.RpcRequest Payload) → string + list Batcher.RpcResponse)
    (signedTxs : list Payload) (batchSize calls0 : nat) :
  0 < batchSize →
  ∃ txHashes, Batcher.batchTransactions post signedTxs batchSize calls0 = Ok txHashes.
Proof.
  intros Hpos.
  destruct (generateBatches_concat signedTxs batchSize Hpos) as (batches & Hgen & _).
  unfold Batcher.batchTransactions, Batcher.batchTransactions_run.
  rewrite Hgen. by eexists.
Qed.

Section accepting_node.
Context {Payload : Type}.
Variable hashOf : Payload → string.
Variable axios : nat → list (Batcher.RpcRequest Payload) → string + list Batcher.RpcResponse.
Hypothesis Haccepts : Batcher.accepts hashOf axios.

Lemma collect_results (f : Batcher.RpcRequest Payload → string) data :
  ∀ st : Batcher.Dispatch Payload,
  Batcher.txHashes (Batcher.collect ((λ request, Batcher.RpcResult (f request)) <$> data) st)
  = Batcher.txHashes st ++ (f <$> data).
Proof.
  unfold Batcher.collect.
  induction data as [|request data IH]; intros st; simpl.
  - by rewrite app_nil_r.
  - rewrite IH. simpl. by rewrite <- app_assoc.
Qed.

Lemma hashes_of_batchRequests batch nextIndx :
  Batcher.hashOfRequest hashOf <$> Batcher.batchRequests batch nextIndx
  = hashOf <$> batch.
Proof.
  unfold Batcher.batchRequests. rewrite fmap_imap, <- imap_const.
  apply imap_ext. done.
Qed.

Lemma sendBatches_accepts batches : ∀ nextIndx (st : Batcher.Dispatch Payload),
  Batcher.txHashes (Batcher.sendBatches axios batches nextIndx st)
  = Batcher.txHashes st ++ (hashOf <$> concat batches).
Proof using Haccepts.
  induction batches as [|batch batches IH]; intros nextIndx st; simpl.
  - by rewrite app_nil_r.
  - rewrite IH. unfold Batcher.sendTransaction. rewrite Haccepts.
    rewrite collect_results, hashes_of_batchRequests. simpl.
    by rewrite fmap_app, app_assoc.
Qed.

(** Against an accepting node the grouped mode returns the hashes of
    the transactions, in their order. *)
Lemma batchTransactions_accepts signedTxs batchSize calls0 :
  0 < batchSize →
  Batcher.batchTransactions axios signedTxs batchSize calls0 = Ok (hashOf <$> signedTxs).
Proof using Haccepts.
  intros Hpos.
  destruct (generateBatches_concat signedTxs batchSize Hpos) as (batches & Hgen & Hcat).
  unfold Batcher.batchTransactions, Batcher.batchTransactions_run.
  rewrite Hgen. simpl. by rewrite sendBatches_accepts, Hcat.
Qed.
End accepting_node.

Section receipt_facts.
Import Distributor.
Variable node : Node.
Implicit Types (st : list nat * list string) (accounts : list distributeAccount).

(** One pass of the wait loop appends the index of the account at the
    position of the hash when the receipt did not fail and the account
    is there, and an error otherwise. *)
Lemma awaitFunding_cases accounts st i txHash :
  match accounts !! i with
  | Some acc =>
      if receiptNotFailed (waitForTransaction node txHash)
      then awaitFunding node accounts st i txHash = (st.1 ++ [mnemonicIndex acc], st.2)
      else ∃ e, awaitFunding node accounts st i txHash = (st.1, st.2 ++ [e])
  | None => ∃ e, awaitFunding node accounts st i txHash = (st.1, st.2 ++ [e])
  end.
Proof.
  unfold awaitFunding, receiptNotFailed.
  destruct (waitForTransaction node txHash) as [message|[[[[|n]|]]|]];
    destruct (accounts !! i); simpl; eauto.
Qed.

Lemma awaitAll_spec accounts txHashes : ∀ i st,
  ∃ errors,
    awaitAll node accounts i txHashes st
    = (st.1 ++ ((λ funded, mnemonicIndex funded.1)
                <$> filter (λ funded : distributeAccount * string,
                              receiptNotFailed (waitForTransaction node funded.2) = true)
                           (zip (drop i accounts) txHashes)),
       st.2 ++ errors)
    ∧ length (filter (λ funded : distributeAccount * string,
                        receiptNotFailed (waitForTransaction node funded.2) = true)
                     (zip (drop i accounts) txHashes))
      + length errors
      = length txHashes.
Proof.
  induction txHashes as [|txHash txHashes IH]; intros i st; simpl.
  - exists []. destruct st as [ready errors].
    destruct (drop i accounts); simpl; by rewrite !app_nil_r.
  - destruct (IH (S i) (awaitFunding node accounts st i txHash)) as (errors & -> & Hlen).
    pose proof (awaitFunding_cases accounts st i txHash) as Hstep.
    destruct (accounts !! i) as [acc|] eqn:Hacc.
    + rewrite (drop_S _ _ _ Hacc). simpl. rewrite filter_cons. simpl.
      destruct (receiptNotFailed (waitForTransaction node txHash)) eqn:Hreceipt.
      * rewrite Hstep, decide_True by done. simpl.
        exists errors. rewrite <- app_assoc. simpl. split; [done | lia].
      * destruct Hstep as [e ->]. rewrite decide_False by done. simpl.
        exists (e :: errors). rewrite <- app_assoc. simpl. split; [done | lia].
    + destruct Hstep as [e ->]. apply lookup_ge_None in Hacc.
      rewrite (drop_ge accounts i) by done.
      rewrite (drop_ge accounts (S i)) in Hlen |- * by lia. simpl in *.
      exists (e :: errors). rewrite <- app_assoc. simpl. split; [done | lia].
Qed.

(** The wait loop on the hashes of the funding transactions. *)
Lemma awaitAll_confirmed (hashOf : SignedTransaction → string) accounts signedTxs ready :
  length signedTxs = length accounts →
  ∃ waitErrors,
    awaitAll node accounts 0 (hashOf <$> signedTxs) (ready, [])
    = (ready ++ confirmedIndexes node hashOf accounts signedTxs, waitErrors)
    ∧ length (confirmedIndexes node hashOf accounts signedTxs) + length waitErrors
      = length accounts.
Proof.
  intros Hlen.
  destruct (awaitAll_spec accounts (hashOf <$> signedTxs) 0 (ready, []))
    as (errors & Hrun & Hcount).
  exists errors. rewrite Hrun. simpl. rewrite drop_0 in *.
  assert ((λ funded : distributeAccount * string, mnemonicIndex funded.1)
          <$> filter (λ funded, receiptNotFailed (waitForTransaction node funded.2) = true)
                     (zip accounts (hashOf <$> signedTxs))
          = confirmedIndexes node hashOf accounts signedTxs) as Heq.
  { unfold confirmedIndexes. clear. revert signedTxs.
    induction accounts as [|acc accounts IH]; intros [|tx signedTxs]; simpl; try done.
    rewrite !filter_cons. simpl. case_decide; simpl; by rewrite IH. }
  rewrite Heq. split; [done|].
  unfold confirmedIndexes. rewrite length_fmap.
  assert (length (filter (λ funded : distributeAccount * string,
                     receiptNotFailed (waitForTransaction node funded.2) = true)
                  (zip accounts (hashOf <$> signedTxs)))
          = length (filter (λ funded : distributeAccount * SignedTransaction,
                     receiptNotFailed (waitForTransaction node (hashOf funded.2)) = true)
                  (zip accounts signedTxs))) as Hsame.
  { clear. revert signedTxs.
    induction accounts as [|acc accounts IH]; intros [|tx signedTxs]; simpl; try done.
    rewrite !filter_cons. simpl. case_decide; simpl; by rewrite IH. }
  rewrite <- Hsame, Hcount, length_fmap. done.
Qed.

Lemma elem_of_confirmedIndexes (hashOf : SignedTransaction → string)
    accounts signedTxs index :
  index ∈ confirmedIndexes node hashOf accounts signedTxs
  ↔ ∃ i acc tx,
      accounts !! i = Some acc ∧ signedTxs !! i = Some tx
      ∧ mnemonicIndex acc = index
      ∧ receiptNotFailed (waitForTransaction node (hashOf tx)) = true.
Proof.
  unfold confirmedIndexes. rewrite list_elem_of_fmap. split.
  - intros ([acc tx] & -> & Hin). apply list_elem_of_filter in Hin as [Hok Hin].
    apply elem_of_lookup_zip_with in Hin as (i & acc' & tx' & [= <- <-] & ? & ?).
    by exists i, acc, tx.
  - intros (i & acc & tx & Hacc & Htx & <- & Hok).
    exists (acc, tx). split; [done|]. apply list_elem_of_filter. split; [done|].
    apply elem_of_lookup_zip_with. by exists i, acc, tx.
Qed.
(** The wait loop over any list of hashes: what it adds holds the index
    of every account whose position holds a hash with a receipt that is
    not [null] and whose status is not 0. *)
Lemma awaitAll_adds accounts txHashes ready :
  ∃ added waitErrors,
    awaitAll node accounts 0 txHashes (ready, []) = (ready ++ added, waitErrors)
    ∧ ∀ i txHash txReceipt acc,
        txHashes !! i = Some txHash →
        accounts !! i = Some acc →
        waitForTransaction node txHash = WaitResolved (Some txReceipt) →
        status txReceipt ≠ Some 0 →
        mnemonicIndex acc ∈ added.
Proof.
  destruct (awaitAll_spec accounts txHashes 0 (ready, [])) as (errors & Hrun & _).
  rewrite drop_0 in Hrun. simpl in Hrun.
  eexists _, errors. split; [exact Hrun|].
  intros i txHash txReceipt acc Hhash Hacc Hwait Hstatus.
  apply list_elem_of_fmap. exists (acc, txHash). split; [done|].
  apply list_elem_of_filter. split.
  - simpl. rewrite Hwait. simpl. by rewrite bool_decide_eq_false_2.
  - apply elem_of_lookup_zip_with. by exists i, acc, txHash.
Qed.
End receipt_facts.

Lemma token_signFunding_length fromMnemonic tokenRuntime token
    gasEstimation gasPrice chainID accounts : ∀ nonce,
  ERC20Runtime.contract tokenRuntime = Some token →
  ∃ signedTxs,
    TokenDistributor.signFunding fromMnemonic tokenRuntime gasEstimation gasPrice
      chainID nonce accounts = Ok signedTxs
    ∧ length signedTxs = length accounts.
Proof.
  intros nonce Hinit. revert nonce.
  induction accounts as [|acc accounts IH]; intros nonce; simpl.
  - by exists [].
  - unfold ERC20Runtime.CreateFundTransaction. rewrite Hinit. simpl.
    destruct (IH (S nonce)) as (signedTxs & -> & Hlen). simpl.
    eexists. split; [reflexivity|]. simpl. by rewrite Hlen.
Qed.

(** C4, as amended: when every POST of the funding dispatch is answered
    at the first attempt and the answer holds, for each request in
    order, the hash of the transaction in it, so that the hash at
    position [i] of the list returned is that of the funding transaction
    of the account at position [i], the index of an account is added to
    [readyMnemonicIndexes] if and only if the wait for its funding
    transaction resolves with a receipt whose status is not 0 (a receipt
    without status included); every other account leaves one entry in
    [waitErrors], and [fundAccounts] returns. For the token distributor
    the missing amounts are [safeAmount]s. *)
Theorem funded_ready_iff_receipt_not_failed (fromMnemonic : nat → string) (node : Node)
    (batchSize calls0 : nat) (hashOf : SignedTransaction → string) :
  0 < batchSize →
  Batcher.accepts hashOf (axios node) →
  (∀ costs accounts readyMnemonicIndexes,
     let signedTxs := Distributor.signFunding fromMnemonic node accounts in
     let added := confirmedIndexes node hashOf accounts signedTxs in
     ∃ waitErrors,
       Distributor.fundAccounts fromMnemonic node batchSize costs accounts
         readyMnemonicIndexes calls0
       = Ok (readyMnemonicIndexes ++ added, waitErrors)
       ∧ length added + length waitErrors = length accounts
       ∧ ∀ index,
           index ∈ added
           ↔ ∃ i acc tx,
               accounts !! i = Some acc ∧ signedTxs !! i = Some tx
               ∧ Distributor.mnemonicIndex acc = index
               ∧ receiptNotFailed (waitForTransaction node (hashOf tx)) = true)
  ∧ (∀ tokenRuntime token costs accounts,
       ERC20Runtime.contract tokenRuntime = Some token →
       Forall (λ acc, safeAmount (Distributor.missingFunds acc)) accounts →
       ∃ signedTxs waitErrors,
         let added := confirmedIndexes node hashOf accounts signedTxs in
         TokenDistributor.signFunding fromMnemonic tokenRuntime
           (ERC20Runtime.estimateTransfer tokenRuntime) (getGasPrice node)
           (getChainId node) (getTransactionCount node (fromMnemonic 0)) accounts
         = Ok signedTxs
         ∧ TokenDistributor.fundAccounts fromMnemonic node tokenRuntime batchSize
             costs accounts calls0
           = Ok (added, waitErrors)
         ∧ length added + length waitErrors = length accounts
         ∧ ∀ index,
             index ∈ added
             ↔ ∃ i acc tx,
                 accounts !! i = Some acc ∧ signedTxs !! i = Some tx
                 ∧ Distributor.mnemonicIndex acc = index
                 ∧ receiptNotFailed (waitForTransaction node (hashOf tx)) = true).
Proof.
  intros Hpos Haccepts. split.
  - intros costs accounts ready signedTxs added.
    destruct (awaitAll_confirmed node hashOf accounts signedTxs ready)
      as (waitErrors & Hrun & Hcount).
    { unfold signedTxs, Distributor.signFunding. apply length_imap. }
    exists waitErrors. split; [|split; [done|]].
    + unfold Distributor.fundAccounts. fold signedTxs.
      rewrite (batchTransactions_accepts hashOf) by done. simpl.
      by rewrite Hrun.
    + apply elem_of_confirmedIndexes.
  - intros tokenRuntime token costs accounts Hinit _.
    destruct (token_signFunding_length fromMnemonic tokenRuntime token
                (ERC20Runtime.estimateTransfer tokenRuntime) (getGasPrice node)
                (getChainId node) accounts (getTransactionCount node (fromMnemonic 0)) Hinit)
      as (signedTxs & Hsign & Hlen).
    destruct (awaitAll_confirmed node hashOf accounts signedTxs [] Hlen)
      as (waitErrors & Hrun & Hcount).
    exists signedTxs, waitErrors. cbn zeta.
    split; [done|]. split; [|split; [done|]].
    + unfold TokenDistributor.fundAccounts, ERC20Runtime.EstimateBaseTx.
      rewrite Hinit. cbn [mbind result_bind].
      unfold TokenDistributor.senderWallet. cbn [walletAddress].
      rewrite Hsign. cbn [mbind result_bind].
      rewrite (batchTransactions_accepts hashOf) by done. simpl.
      by rewrite Hrun.
    + apply elem_of_confirmedIndexes.
Qed.

Lemma steadyNode_accepts :
  Batcher.accepts Fixtures.steadyHash (@Fixtures.steadyNode SignedTransaction).
Proof. intros n data. reflexivity. Qed.

Lemma funded_ready_iff_receipt_not_failed_witness :
  (∃ waitErrors,
     Distributor.fundAccounts Fixtures.addressOf Fixtures.oneEther 20 Fixtures.noCosts
       [Fixtures.shortOne; Fixtures.shortTwo] [3] 0
     = Ok ([3] ++ confirmedIndexes Fixtures.oneEther Fixtures.steadyHash
                    [Fixtures.shortOne; Fixtures.shortTwo]
                    (Distributor.signFunding Fixtures.addressOf Fixtures.oneEther
                       [Fixtures.shortOne; Fixtures.shortTwo]),
           waitErrors))
  ∧ (∃ signedTxs waitErrors,
       TokenDistributor.fundAccounts Fixtures.addressOf Fixtures.oneEther Fixtures.token
         20 Fixtures.tenTokens [Fixtures.shortOne] 0
       = Ok (confirmedIndexes Fixtures.oneEther Fixtures.steadyHash [Fixtures.shortOne]
               signedTxs,
             waitErrors)).
Proof.
  pose proof (funded_ready_iff_receipt_not_failed Fixtures.addressOf Fixtures.oneEther
                20 0 Fixtures.steadyHash ltac:(lia) steadyNode_accepts) as [Hnative Htoken].
  split.
  - destruct (Hnative Fixtures.noCosts [Fixtures.shortOne; Fixtures.shortTwo] [3])
      as (waitErrors & Hrun & _).
    exists waitErrors. exact Hrun.
  - destruct (Htoken Fixtures.token "0xToken" Fixtures.tenTokens [Fixtures.shortOne] eq_refl)
      as (signedTxs & waitErrors & _ & Hrun & _).
    + repeat constructor; by vm_compute.
    + exists signedTxs, waitErrors. exact Hrun.
Defined.

(** C4, as stated, fails in two ways. A receipt that carries no status
    does not indicate success, and the account is marked ready all the
    same. And the hashes are matched with the accounts by position: when
    the node answers the first funding transaction with an error and
    accepts the second, the one hash returned is the second account's,
    and its receipt marks the first account ready. *)
Lemma ready_without_successful_receipt :
  (Distributor.fundAccounts Fixtures.addressOf Fixtures.noStatus 20 Fixtures.noCosts
     [Fixtures.shortOne] [] 0 = Ok ([1], [])
   ∧ waitForTransaction Fixtures.noStatus "0x5e1d"
     = WaitResolved (Some Fixtures.receiptNoStatus)
   ∧ receiptSucceeded (waitForTransaction Fixtures.noStatus "0x5e1d") = false)
  ∧ (Batcher.batchTransactions_run (axios Fixtures.picky)
       (Distributor.signFunding Fixtures.addressOf Fixtures.picky
          [Fixtures.shortOne; Fixtures.shortTwo]) 20 0
     = Ok (Batcher.mkDispatch 1 ["0xb2"] ["insufficient funds"] [] [])
     ∧ Distributor.fundAccounts Fixtures.addressOf Fixtures.picky 20 Fixtures.noCosts
         [Fixtures.shortOne; Fixtures.shortTwo] [] 0 = Ok ([1], [])).
Proof. repeat split; reflexivity. Qed.

(** A receipt with status 0, a [null] receipt and a rejected wait each
    leave an error and no index. *)
Lemma failed_receipt_is_left_out (node : Node) accounts st i txHash :
  waitForTransaction node txHash = WaitResolved (Some Fixtures.receiptFailure)
  ∨ waitForTransaction node txHash = WaitResolved None
  ∨ (∃ message, waitForTransaction node txHash = WaitRejected message) →
  ∃ e, Distributor.awaitFunding node accounts st i txHash = (st.1, st.2 ++ [e]).
Proof.
  unfold Distributor.awaitFunding.
  intros [-> | [-> | [message ->]]]; simpl; eauto.
Qed.

(** C10: in the receipt check of the wait loop a receipt that is not
    [null] and whose status is not 0 marks the account at the position
    of the hash ready, and a receipt with no status at all is such a
    receipt; both [fundAccounts] run that check on every hash the
    dispatch returned and add the index of the account to
    [readyMnemonicIndexes]. The two [fundAccounts] are taken with a
    positive batch size and a node that rejects no POST, the token one
    with its runtime initialised and missing amounts that are
    [safeAmount]s. *)
Theorem receipt_without_status_is_success (fromMnemonic : nat → string) (node : Node)
    (accounts : list Distributor.distributeAccount) :
  (∀ st i txHash txReceipt acc,
     waitForTransaction node txHash = WaitResolved (Some txReceipt) →
     accounts !! i = Some acc →
     (status txReceipt ≠ Some 0 →
        Distributor.awaitFunding node accounts st i txHash
        = (st.1 ++ [Distributor.mnemonicIndex acc], st.2))
     ∧ (status txReceipt = None →
          Distributor.awaitFunding node accounts st i txHash
          = (st.1 ++ [Distributor.mnemonicIndex acc], st.2)))
  ∧ (∀ batchSize calls0 costs readyMnemonicIndexes,
       0 < batchSize →
       Batcher.neverRejects (axios node) →
       ∃ txHashes added waitErrors,
         Batcher.batchTransactions (axios node)
           (Distributor.signFunding fromMnemonic node accounts) batchSize calls0
         = Ok txHashes
         ∧ Distributor.fundAccounts fromMnemonic node batchSize costs accounts
             readyMnemonicIndexes calls0
           = Ok (readyMnemonicIndexes ++ added, waitErrors)
         ∧ ∀ i txHash txReceipt acc,
             txHashes !! i = Some txHash →
             accounts !! i = Some acc →
             waitForTransaction node txHash = WaitResolved (Some txReceipt) →
             (status txReceipt ≠ Some 0 → Distributor.mnemonicIndex acc ∈ added)
             ∧ (status txReceipt = None → Distributor.mnemonicIndex acc ∈ added))
  ∧ (∀ tokenRuntime token batchSize calls0 costs,
       0 < batchSize →
       Batcher.neverRejects (axios node) →
       ERC20Runtime.contract tokenRuntime = Some token →
       Forall (λ acc, safeAmount (Distributor.missingFunds acc)) accounts →
       ∃ signedTxs txHashes added waitErrors,
         TokenDistributor.signFunding fromMnemonic tokenRuntime
           (ERC20Runtime.estimateTransfer tokenRuntime) (getGasPrice node)
           (getChainId node) (getTransactionCount node (fromMnemonic 0)) accounts
         = Ok signedTxs
         ∧ Batcher.batchTransactions (axios node) signedTxs batchSize calls0 = Ok txHashes
         ∧ TokenDistributor.fundAccounts fromMnemonic node tokenRuntime batchSize
             costs accounts calls0
           = Ok (added, waitErrors)
         ∧ ∀ i txHash txReceipt acc,
             txHashes !! i = Some txHash →
             accounts !! i = Some acc →
             waitForTransaction node txHash = WaitResolved (Some txReceipt) →
             (status txReceipt ≠ Some 0 → Distributor.mnemonicIndex acc ∈ added)
             ∧ (status txReceipt = None → Distributor.mnemonicIndex acc ∈ added)).
Proof.
  split; [|split].
  - intros st i txHash txReceipt acc Hwait Hacc.
    assert (status txReceipt ≠ Some 0 →
            Distributor.awaitFunding node accounts st i txHash
            = (st.1 ++ [Distributor.mnemonicIndex acc], st.2)) as Hok.
    { intros Hstatus. unfold Distributor.awaitFunding. rewrite Hwait, Hacc.
      rewrite (bool_decide_eq_false_2 (status txReceipt = Some 0)) by done.
      by rewrite andb_false_r. }
    split; [done|]. intros Hnone. apply Hok. by rewrite Hnone.
  - intros batchSize calls0 costs ready Hpos _.
    destruct (batchTransactions_returns (axios node)
                (Distributor.signFunding fromMnemonic node accounts) batchSize calls0 Hpos)
      as (txHashes & Hbatch).
    destruct (awaitAll_adds node accounts txHashes ready)
      as (added & waitErrors & Hrun & Hadds).
    exists txHashes, added, waitErrors. split; [done|]. split.
    + unfold Distributor.fundAccounts. rewrite Hbatch.
      cbn [mbind result_bind mret result_ret]. by rewrite Hrun.
    + intros i txHash txReceipt acc Hhash Hacc Hwait.
      split; [by eapply Hadds|]. intros Hnone. eapply Hadds; [done..|].
      by rewrite Hnone.
  - intros tokenRuntime token batchSize calls0 costs Hpos _ Hinit _.
    destruct (token_signFunding_length fromMnemonic tokenRuntime token
                (ERC20Runtime.estimateTransfer tokenRuntime) (getGasPrice node)
                (getChainId node) accounts (getTransactionCount node (fromMnemonic 0)) Hinit)
      as (signedTxs & Hsign & _).
    destruct (batchTransactions_returns (axios node) signedTxs batchSize calls0 Hpos)
      as (txHashes & Hbatch).
    destruct (awaitAll_adds node accounts txHashes [])
      as (added & waitErrors & Hrun & Hadds).
    exists signedTxs, txHashes, added, waitErrors.
    split; [done|]. split; [done|]. split.
    + unfold TokenDistributor.fundAccounts, ERC20Runtime.EstimateBaseTx.
      rewrite Hinit. cbn [mbind result_bind].
      unfold TokenDistributor.senderWallet. cbn [walletAddress].
      rewrite Hsign. cbn [mbind result_bind]. rewrite Hbatch.
      cbn [mbind result_bind mret result_ret]. by rewrite Hrun.
    + intros i txHash txReceipt acc Hhash Hacc Hwait.
      split; [by eapply Hadds|]. intros Hnone. eapply Hadds; [done..|].
      by rewrite Hnone.
Qed.

Lemma steadyNode_neverRejects :
  Batcher.neverRejects (@Fixtures.steadyNode SignedTransaction).
Proof. intros n data. eexists. reflexivity. Qed.

Lemma receipt_without_status_is_success_witness :
  (∃ added waitErrors,
     Distributor.fundAccounts Fixtures.addressOf Fixtures.noStatus 20 Fixtures.noCosts
       [Fixtures.shortOne] [] 0 = Ok ([] ++ added, waitErrors)
     ∧ 1 ∈ added)
  ∧ (∃ added waitErrors,
       TokenDistributor.fundAccounts Fixtures.addressOf Fixtures.noStatus Fixtures.token 20
         Fixtures.tenTokens [Fixtures.shortOne] 0 = Ok (added, waitErrors)
       ∧ 1 ∈ added).
Proof.
  destruct (receipt_without_status_is_success Fixtures.addressOf Fixtures.noStatus
              [Fixtures.shortOne]) as (_ & Hnative & Htoken).
  split.
  - destruct (Hnative 20 0 Fixtures.noCosts [])
      as (txHashes & added & waitErrors & Hbatch & Hrun & Hadds);
      [lia | exact steadyNode_neverRejects |].
    exists added, waitErrors. split; [exact Hrun|].
    injection Hbatch as <-.
    apply (proj2 (Hadds 0 "0x5e1d" Fixtures.receiptNoStatus Fixtures.shortOne
                    eq_refl eq_refl eq_refl)).
    reflexivity.
  - destruct (Htoken Fixtures.token "0xToken" 20 0 Fixtures.tenTokens)
      as (signedTxs & txHashes & added & waitErrors & Hsign & Hbatch & Hrun & Hadds);
      [lia | exact steadyNode_neverRejects | reflexivity
       | repeat constructor; by vm_compute |].
    exists added, waitErrors. split; [exact Hrun|].
    injection Hsign as <-. injection Hbatch as <-.
    apply (proj2 (Hadds 0 "0x5e1d" Fixtures.receiptNoStatus Fixtures.shortOne
                    eq_refl eq_refl eq_refl)).
    reflexivity.
Defined.

(** On a chain whose receipts carry no status the account funded is
    ready after either [fundAccounts]. *)
Lemma fundAccounts_without_status :
  Distributor.fundAccounts Fixtures.addressOf Fixtures.noStatus 20 Fixtures.noCosts
    [Fixtures.shortOne] [] 0 = Ok ([1], [])
  ∧ TokenDistributor.fundAccounts Fixtures.addressOf Fixtures.noStatus Fixtures.token 20
      Fixtures.tenTokens [Fixtures.shortOne] 0 = Ok ([1], []).
Proof. split; reflexivity. Qed.

(** ** Nonces *)

Section nonce_facts.
Import Signer EOARuntime.
Variable rt : EOARuntime.t.
Variable dynamic : bool.
Hypothesis Hfees : feesAvailable rt dynamic.
Implicit Types (accounts : list senderAccount) (sender : senderAccount).

Lemma createTransferTransaction_ok sender receiver gasPrice :
  ∃ tx, createTransferTransaction rt sender receiver gasPrice dynamic = Ok tx
        ∧ tx_nonce tx = nonce sender
        ∧ tx_from tx = Some (getAddress sender).
Proof using Hfees.
  unfold createTransferTransaction. destruct dynamic.
  - destruct Hfees as [[fee ->] [priority ->]]; [done|]. by eexists.
  - by eexists.
Qed.

Lemma advance_0 sender : advance 0 sender = sender.
Proof. destruct sender. unfold advance. simpl. by rewrite Nat.add_0_r. Qed.

Lemma advance_incrNonce k sender : advance k (incrNonce sender) = advance (S k) sender.
Proof. unfold advance, incrNonce. simpl. f_equal. lia. Qed.

(** The inner loop: [left] transactions with the nonces that follow the
    sender's, and the sender's nonce advanced by as many. *)
Lemma constructForSender_spec i : ∀ left j accounts txs sender,
  accounts !! i = Some sender →
  ∃ new,
    constructForSender rt dynamic i left j accounts txs
    = Ok (<[i := advance left sender]> accounts, txs ++ new)
    ∧ nonces new = seq (nonce sender) left
    ∧ Forall (sentBy (getAddress sender)) new.
Proof using Hfees.
  induction left as [|left IH]; intros j accounts txs sender Hsender.
  - exists []. simpl. rewrite advance_0, list_insert_id, app_nil_r by done. done.
  - simpl. rewrite Hsender.
    assert (i < length accounts) as Hi by (by eapply lookup_lt_Some).
    destruct (lookup_lt_is_Some_2 accounts ((i + j) mod length accounts))
      as [receiver ->]; [apply Nat.mod_upper_bound; lia|].
    destruct (createTransferTransaction_ok sender receiver (gasPrice rt))
      as (tx & -> & Hnonce & Hfrom).
    cbn [mbind result_bind].
    destruct (IH (S j) (<[i := incrNonce sender]> accounts)
                (txs ++ [signTransaction (wallet sender) tx]) (incrNonce sender))
      as (new & -> & Hnonces & Hsent).
    { by apply list_lookup_insert_eq. }
    exists (signTransaction (wallet sender) tx :: new).
    rewrite list_insert_insert_eq, advance_incrNonce, <- app_assoc. simpl.
    split; [done|]. split.
    + unfold nonces in *. simpl. by rewrite Hnonce, Hnonces.
    + constructor; [by split|done].
Qed.

Lemma constructLoop_spec accounts k : ∀ left i transactions,
  i + left = length accounts →
  (∀ address txs, transactions !! address = Some txs → builtFor accounts k address txs) →
  (∀ sender, sender ∈ take i accounts → is_Some (transactions !! getAddress sender)) →
  ∃ transactions',
    constructLoop rt dynamic k left i
      ((advance k <$> take i accounts) ++ drop i accounts) transactions
    = Ok (advance k <$> accounts, transactions')
    ∧ (∀ address txs, transactions' !! address = Some txs →
         builtFor accounts k address txs)
    ∧ (∀ sender, sender ∈ accounts → is_Some (transactions' !! getAddress sender)).
Proof using Hfees.
  induction left as [|left IH]; intros i transactions Hlen Hbuilt Hdom.
  - exists transactions. simpl.
    rewrite take_ge, drop_ge, app_nil_r by lia.
    split; [done|]. split; [done|]. intros sender Hin. apply Hdom.
    by rewrite take_ge by lia.
  - destruct (lookup_lt_is_Some_2 accounts i) as [sender Hsender]; [lia|].
    assert (length (advance k <$> take i accounts) = i) as Hfront.
    { rewrite length_fmap, length_take. lia. }
    assert (((advance k <$> take i accounts) ++ drop i accounts) !! i = Some sender)
      as Hcur.
    { rewrite lookup_app_r by lia. rewrite Hfront, Nat.sub_diag.
      by rewrite lookup_drop, Nat.add_0_r. }
    simpl. rewrite Hcur.
    destruct (constructForSender_spec i k 0 _ [] sender Hcur)
      as (new & -> & Hnonces & Hsent).
    cbn [mbind result_bind]. simpl app.
    assert (<[i := advance k sender]> ((advance k <$> take i accounts) ++ drop i accounts)
            = (advance k <$> take (S i) accounts) ++ drop (S i) accounts) as ->.
    { rewrite insert_app_r_alt, Hfront, Nat.sub_diag by lia.
      rewrite (drop_S _ _ _ Hsender), (take_S_r _ _ _ Hsender). simpl.
      by rewrite fmap_app, <- app_assoc. }
    apply IH; [lia | |].
    + intros address txs. rewrite lookup_insert. case_decide as Haddr.
      * intros [= <-]. subst address. split; [|done].
        exists sender. split; [|done]. by eapply list_elem_of_lookup_2.
      * apply Hbuilt.
    + intros sender'. rewrite (take_S_r _ _ _ Hsender), elem_of_app, list_elem_of_singleton.
      intros [Hin | ->].
      * rewrite lookup_insert. case_decide; [by eexists | by apply Hdom].
      * rewrite lookup_insert_eq. by eexists.
Qed.
End nonce_facts.

(** C2: the transactions that [ConstructTransactions] builds for a
    sender account prepared by [getSenderAccounts] carry the nonces
    [count], [count + 1], ..., one per transaction with no gap and no
    repeat, where [count] is the transaction count queried for the
    account's address; they are signed by and sent from that address,
    whatever is built for the other accounts. *)
Theorem nonce_monotonicity (fromMnemonic : nat → string) (getTransactionCount : string → nat)
    (rt : EOARuntime.t) (accountIndexes : list nat) (numTxs numOfTxPerAccount : nat)
    (dynamic : bool) :
  EOARuntime.feesAvailable rt dynamic →
  let accounts :=
    Signer.getSenderAccounts fromMnemonic getTransactionCount accountIndexes numTxs in
  ∃ accounts' transactions,
    EOARuntime.ConstructTransactions rt accounts numOfTxPerAccount dynamic
      = Ok (accounts', transactions)
    ∧ (∀ sender, sender ∈ accounts →
         Signer.nonce sender = getTransactionCount (Signer.getAddress sender)
         ∧ is_Some (transactions !! Signer.getAddress sender))
    ∧ (∀ address txs, transactions !! address = Some txs →
         (∃ sender, sender ∈ accounts ∧ Signer.getAddress sender = address)
         ∧ EOARuntime.nonces txs = seq (getTransactionCount address) numOfTxPerAccount
         ∧ Forall (λ signed, signer signed = address
                             ∧ tx_from (signedRequest signed) = Some address) txs)
    ∧ accounts' = EOARuntime.advance numOfTxPerAccount <$> accounts.
Proof.
  intros Hfees accounts.
  assert (∀ sender, sender ∈ accounts →
            Signer.nonce sender = getTransactionCount (Signer.getAddress sender))
    as Hcount.
  { intros sender Hin. unfold accounts, Signer.getSenderAccounts in Hin.
    apply list_elem_of_fmap in Hin as (index & -> & _). done. }
  destruct (constructLoop_spec rt dynamic Hfees accounts numOfTxPerAccount
              (length accounts) 0 ∅) as (transactions & Hrun & Hbuilt & Hdom).
  - lia.
  - intros address txs. by rewrite lookup_empty.
  - intros sender. rewrite take_0. by intros ?%elem_of_nil.
  - rewrite take_0, drop_0 in Hrun. simpl in Hrun.
    exists (EOARuntime.advance numOfTxPerAccount <$> accounts), transactions.
    split; [exact Hrun|]. split; [|split; [|done]].
    + intros sender Hin. split; [by apply Hcount | by apply Hdom].
    + intros address txs Hlookup.
      destruct (Hbuilt address txs Hlookup) as [(sender & Hin & Haddr & Hnonces) Hsent].
      split; [by exists sender|]. split; [|done].
      by rewrite Hnonces, (Hcount sender Hin), Haddr.
Qed.

Lemma nonce_monotonicity_witness :
  ∃ accounts' transactions,
    EOARuntime.ConstructTransactions Fixtures.legacy
      (Signer.getSenderAccounts Fixtures.addressOf Fixtures.sentSeven [1; 2] 6) 3 false
    = Ok (accounts', transactions)
    ∧ ∃ txs, transactions !! Fixtures.addressOf 1 = Some txs
             ∧ EOARuntime.nonces txs = [7; 8; 9].
Proof.
  destruct (nonce_monotonicity Fixtures.addressOf Fixtures.sentSeven Fixtures.legacy
              [1; 2] 6 3 false) as (accounts' & transactions & Hrun & Hdom & Hbuilt & _).
  { intros [=]. }
  exists accounts', transactions. split; [exact Hrun|].
  destruct (Hdom (Signer.mkSender 1 7 (mkWallet 1 (Fixtures.addressOf 1))))
    as [_ [txs Htxs]]; [repeat constructor|].
  exists txs. split; [exact Htxs|].
  destruct (Hbuilt _ _ Htxs) as (_ & Hnonces & _). exact Hnonces.
Defined.

(** The specification's scenario: dynamic fees requested and no fee data;
    the first transaction is not built. *)
Lemma dynamic_without_fee_data :
  EOARuntime.ConstructTransactions Fixtures.legacy
    (Signer.getSenderAccounts Fixtures.addressOf Fixtures.sentSeven [1; 2] 6) 3 true
  = Throw errDynamicFee.
Proof. reflexivity. Qed.

(** ** Scenarios of the specification *)

(** 45 signed transactions in batches of 20. *)
Example generateBatches_45_20 :
  (λ bs : list (list nat), length <$> bs) <$> Batcher.generateBatches (seq 0 45) 20
  = Ok [20; 20; 5].
Proof. reflexivity. Qed.

Example generateBatches_0_0 :
  Batcher.generateBatches (@nil nat) 0 = Ok [].
Proof. reflexivity. Qed.

Example generateBatches_1_0 :
  Batcher.generateBatches [1] 0 = Diverge.
Proof. reflexivity. Qed.

Example generateBatches_0_3 :
  Batcher.generateBatches (@nil nat) 3 = Ok [[]].
Proof. reflexivity. Qed.

(** * Further properties of the code *)

(** ** The dispatcher *)

Section dispatcher_more.
Context {Payload : Type}.
Variable axios : nat → list (Batcher.RpcRequest Payload) → string + list Batcher.RpcResponse.
Implicit Types (st : Batcher.Dispatch Payload).

Lemma collect_calls content : ∀ st,
  Batcher.calls (Batcher.collect content st) = Batcher.calls st.
Proof.
  unfold Batcher.collect.
  induction content as [|cnt content IH]; intros st; simpl; [done|].
  rewrite IH. by destruct cnt.
Qed.

Lemma sendTransaction_calls data st :
  Batcher.calls (Batcher.sendTransaction axios data st) = S (Batcher.calls st).
Proof.
  unfold Batcher.sendTransaction.
  destruct (axios (Batcher.calls st) data); [done|]. by rewrite collect_calls.
Qed.

Lemma sendBatches_calls (batches : list (list Payload)) : ∀ nextIndx st,
  Batcher.calls (Batcher.sendBatches axios batches nextIndx st)
  = Batcher.calls st + length batches.
Proof.
  induction batches as [|batch batches IH]; intros nextIndx st; simpl; [lia|].
  rewrite IH, sendTransaction_calls. lia.
Qed.

Lemma length_concat_full (b : nat) (groups : list (list Payload)) :
  Forall (Batcher.full b) groups → length (concat groups) = b * length groups.
Proof.
  induction 1 as [|group groups Hfull _ IH]; simpl; [lia|].
  rewrite length_app, IH, Hfull. lia.
Qed.

Lemma generateBatches_count (items : list Payload) b :
  0 < b →
  ∃ batches,
    Batcher.generateBatches items b = Ok batches
    ∧ length batches = Batcher.groupCount (length items) b.
Proof.
  intros Hb. destruct items as [|x rest].
  - exists [[]]. by rewrite generateBatches_empty.
  - destruct (generateBatches_nonempty (x :: rest) b)
      as (front & last & Hrun & Hfront & Hlast & Hcat); [done | done |].
    exists (front ++ [last]). split; [done|].
    apply (f_equal length) in Hcat.
    rewrite concat_app, length_app, (length_concat_full b) in Hcat by done.
    simpl in Hcat. rewrite app_nil_r in Hcat.
    unfold Batcher.groupCount. simpl length. simpl Nat.eqb. cbv iota.
    rewrite length_app. simpl.
    apply Nat.div_unique with (r := length last - 1); [lia|]. nia.
Qed.
Lemma collect_explicit content : ∀ st,
  Batcher.txHashes (Batcher.collect content st)
  = Batcher.txHashes st ++ omap Batcher.resultOf content
  ∧ Batcher.batchErrors (Batcher.collect content st)
    = Batcher.batchErrors st ++ omap Batcher.errorOf content.
Proof.
  unfold Batcher.collect.
  induction content as [|cnt content IH]; intros st; simpl.
  - by rewrite !app_nil_r.
  - destruct (IH (Batcher.collect1 st cnt)) as [-> ->].
    destruct cnt; simpl; by rewrite <- ?app_assoc.
Qed.

Lemma retry_all_rejected data attempts : ∀ st,
  (∀ k, k < attempts → ∃ message, axios (Batcher.calls st + k) data = inl message) →
  let st' := Batcher.sendTransactionWithRetry_loop axios attempts data st in
  Batcher.calls st' = Batcher.calls st + attempts
  ∧ Batcher.txHashes st' = Batcher.txHashes st
  ∧ Batcher.batchErrors st' = Batcher.batchErrors st
  ∧ Batcher.abandoned st' = S (Batcher.abandoned st)
  ∧ length (Batcher.sendLog st') = length (Batcher.sendLog st) + S attempts.
Proof.
  induction attempts as [|attempts IH]; intros st Hrejected; simpl.
  - rewrite abandoned_logError, length_app. simpl. repeat split; lia.
  - destruct (Hrejected 0) as [message Hcall]; [lia|].
    rewrite Nat.add_0_r in Hcall. rewrite Hcall.
    destruct (IH (Batcher.logError (Batcher.LogError message) (Batcher.tick st)))
      as (Hcalls & Hhashes & Herrors & Habandoned & Hlog).
    { intros k Hk. simpl. destruct (Hrejected (S k)) as [m Hm]; [lia|].
      exists m. by rewrite <- Hm, Nat.add_succ_r. }
    cbn zeta in *. rewrite Hcalls, Hhashes, Herrors, Habandoned, Hlog.
    rewrite abandoned_logError. simpl. rewrite length_app. simpl.
    unfold Batcher.abandoned. simpl. repeat split; lia.
Qed.

Lemma retry_first_success data attempts : ∀ st k content,
  k < attempts →
  (∀ k', k' < k → ∃ message, axios (Batcher.calls st + k') data = inl message) →
  axios (Batcher.calls st + k) data = inr content →
  let st' := Batcher.sendTransactionWithRetry_loop axios attempts data st in
  Batcher.calls st' = Batcher.calls st + S k
  ∧ Batcher.txHashes st' = Batcher.txHashes st ++ omap Batcher.resultOf content
  ∧ Batcher.batchErrors st' = Batcher.batchErrors st ++ omap Batcher.errorOf content
  ∧ Batcher.abandoned st' = Batcher.abandoned st.
Proof.
  induction attempts as [|attempts IH]; intros st k content Hk Hrejected Hcall; [lia|].
  simpl. destruct k as [|k].
  - rewrite Nat.add_0_r in Hcall. rewrite Hcall.
    destruct (collect_explicit content (Batcher.tick st)) as [-> ->].
    destruct (collect_recorded content (Batcher.tick st)) as (_ & Hlog & _).
    rewrite collect_calls. unfold Batcher.abandoned. rewrite Hlog. simpl.
    repeat split; lia.
  - destruct (Hrejected 0) as [message Hfirst]; [lia|].
    rewrite Nat.add_0_r in Hfirst. rewrite Hfirst.
    destruct (IH (Batcher.logError (Batcher.LogError message) (Batcher.tick st)) k content)
      as (Hcalls & Hhashes & Herrors & Habandoned).
    { lia. }
    { intros k' Hk'. simpl. destruct (Hrejected (S k')) as [m Hm]; [lia|].
      exists m. by rewrite <- Hm, Nat.add_succ_r. }
    { simpl. by rewrite <- Hcall, Nat.add_succ_r. }
    cbn zeta in *. rewrite Hcalls, Hhashes, Herrors, Habandoned.
    rewrite abandoned_logError. simpl. unfold Batcher.abandoned. simpl.
    repeat split; lia.
Qed.

Lemma verdicts_of_batchRequests verdict (batch : list Payload) nextIndx :
  Batcher.verdictOfRequest verdict <$> Batcher.batchRequests batch nextIndx
  = verdict <$> batch.
Proof.
  unfold Batcher.batchRequests. rewrite fmap_imap, <- imap_const.
  apply imap_ext. done.
Qed.

Lemma omap_fmap_verdict {B} (f : Batcher.RpcResponse → option B)
    (verdict : Payload → Batcher.RpcResponse) (txs : list Payload) :
  omap f (verdict <$> txs) = omap (λ tx, f (verdict tx)) txs.
Proof. induction txs as [|tx txs IH]; [done|]. csimpl. by rewrite IH. Qed.

Lemma sendBatches_judged verdict (Hjudges : Batcher.judges verdict axios)
    (batches : list (list Payload)) : ∀ nextIndx st,
  let st' := Batcher.sendBatches axios batches nextIndx st in
  Batcher.txHashes st'
  = Batcher.txHashes st ++ omap (λ tx, Batcher.resultOf (verdict tx)) (concat batches)
  ∧ Batcher.batchErrors st'
    = Batcher.batchErrors st ++ omap (λ tx, Batcher.errorOf (verdict tx)) (concat batches)
  ∧ Batcher.detached st' = Batcher.detached st.
Proof.
  induction batches as [|batch batches IH]; intros nextIndx st; simpl.
  - by rewrite !app_nil_r.
  - destruct (IH (nextIndx + length batch)
                (Batcher.sendTransaction axios (Batcher.batchRequests batch nextIndx) st))
      as (-> & -> & ->).
    unfold Batcher.sendTransaction. rewrite Hjudges, verdicts_of_batchRequests.
    destruct (collect_explicit (verdict <$> batch) (Batcher.tick st)) as [-> ->].
    destruct (collect_recorded (verdict <$> batch) (Batcher.tick st)) as (_ & _ & ->).
    rewrite !omap_fmap_verdict, !omap_app, <- !app_assoc. done.
Qed.

Lemma sendBySender_judged verdict (Hjudges : Batcher.judges verdict axios)
    (txs : list Payload) : ∀ st,
  let st' := Batcher.sendBySender axios txs st in
  Batcher.txHashes st'
  = Batcher.txHashes st ++ omap (λ tx, Batcher.resultOf (verdict tx)) txs
  ∧ Batcher.batchErrors st'
    = Batcher.batchErrors st ++ omap (λ tx, Batcher.errorOf (verdict tx)) txs
  ∧ Batcher.calls st' = Batcher.calls st + length txs.
Proof.
  unfold Batcher.sendBySender.
  induction txs as [|tx txs IH]; intros st; cbn [foldl length].
  - rewrite !app_nil_r. repeat split; lia.
  - destruct (IH (Batcher.sendTransactionWithRetry axios
                    [Batcher.eth_sendRawTransaction tx 0] 3 st)) as (-> & -> & ->).
    destruct (retry_first_success [Batcher.eth_sendRawTransaction tx 0] 3 st 0
                [verdict tx]) as (Hcalls & Hhashes & Herrors & _).
    { lia. }
    { intros k' Hk'. lia. }
    { by rewrite Hjudges. }
    unfold Batcher.sendTransactionWithRetry.
    cbn zeta in Hcalls, Hhashes, Herrors. rewrite Hcalls, Hhashes, Herrors.
    csimpl. destruct (verdict tx); csimpl; rewrite <- ?app_assoc, ?app_nil_r;
      repeat split; (done || lia).
Qed.

Lemma resumeDetached_rejected (Hdown : Batcher.alwaysRejects axios) st :
  Batcher.detached st ≠ [] →
  let st' := Batcher.resumeDetached axios st in
  Batcher.calls st' = S (Batcher.calls st)
  ∧ Batcher.pending st' = Batcher.pending st
  ∧ length (Batcher.detached st') = length (Batcher.detached st)
  ∧ Batcher.txHashes st' = Batcher.txHashes st
  ∧ Batcher.batchErrors st' = Batcher.batchErrors st.
Proof.
  intros Hpending. unfold Batcher.resumeDetached.
  destruct (Batcher.detached st) as [|group rest] eqn:Hdetached; [done|].
  unfold Batcher.sendTransaction. simpl.
  destruct (Hdown (Batcher.calls st) group) as [message ->]. simpl.
  unfold Batcher.pending. simpl. rewrite Hdetached, sum_list_with_app, length_app.
  simpl. repeat split; lia.
Qed.

(** Against a node that rejects no call nothing is left pending and
    nothing is logged. *)
Lemma sendBatches_answered (Hup : Batcher.neverRejects axios)
    (batches : list (list Payload)) : ∀ nextIndx st,
  Batcher.detached (Batcher.sendBatches axios batches nextIndx st) = Batcher.detached st
  ∧ Batcher.sendLog (Batcher.sendBatches axios batches nextIndx st) = Batcher.sendLog st.
Proof.
  induction batches as [|batch batches IH]; intros nextIndx st; simpl; [done|].
  destruct (IH (nextIndx + length batch)
              (Batcher.sendTransaction axios (Batcher.batchRequests batch nextIndx) st))
    as [-> ->].
  unfold Batcher.sendTransaction.
  destruct (Hup (Batcher.calls st) (Batcher.batchRequests batch nextIndx)) as [content ->].
  by destruct (collect_recorded content (Batcher.tick st)) as (_ & -> & ->).
Qed.
End dispatcher_more.

(** X1: for a positive batch size and a node that rejects no POST,
    [batchTransactions] returns after exactly one POST per group, the
    quotient of the number of transactions by the batch size rounded up,
    and one POST for no transaction; no retry is pending and nothing is
    logged. *)
Theorem batchTransactions_posts_once_per_group {Payload}
    (axios : nat → list (Batcher.RpcRequest Payload) → string + list Batcher.RpcResponse)
    (signedTxs : list Payload) (batchSize calls0 : nat) :
  0 < batchSize →
  Batcher.neverRejects axios →
  ∃ st,
    Batcher.batchTransactions_run axios signedTxs batchSize calls0 = Ok st
    ∧ Batcher.calls st = calls0 + Batcher.groupCount (length signedTxs) batchSize
    ∧ Batcher.detached st = []
    ∧ Batcher.sendLog st = [].
Proof.
  intros Hpos Hup.
  destruct (generateBatches_count signedTxs batchSize Hpos) as (batches & Hgen & Hcount).
  unfold Batcher.batchTransactions_run. rewrite Hgen. simpl.
  eexists. split; [reflexivity|].
  rewrite sendBatches_calls, <- Hcount. split; [done|].
  by destruct (sendBatches_answered axios Hup batches 0 (Batcher.newDispatch calls0))
    as [-> ->].
Qed.

Lemma batchTransactions_posts_once_per_group_witness :
  ∃ st,
    Batcher.batchTransactions_run Fixtures.steadyNode (seq 0 45) 20 7 = Ok st
    ∧ Batcher.calls st = 7 + 3
    ∧ Batcher.detached st = [].
Proof.
  destruct (batchTransactions_posts_once_per_group (@Fixtures.steadyNode nat) (seq 0 45) 20 7)
    as (st & Hrun & Hcalls & Hdetached & _).
  - lia.
  - intros n data. eexists. reflexivity.
  - exists st. split; [exact Hrun|]. split; [exact Hcalls | exact Hdetached].
Defined.

(** X2: [sendTransactionWithRetry] stops at the first call that is
    answered, having made one call per attempt and recorded the elements
    of that answer; when its [maxRetries] calls are all rejected it has
    made exactly [maxRetries] calls, records nothing, and leaves a log
    line for each rejection and one for giving up. *)
Theorem sendTransactionWithRetry_bound {Payload}
    (axios : nat → list (Batcher.RpcRequest Payload) → string + list Batcher.RpcResponse)
    (data : list (Batcher.RpcRequest Payload)) (maxRetries : nat)
    (st : Batcher.Dispatch Payload) :
  let st' := Batcher.sendTransactionWithRetry axios data maxRetries st in
  (∀ k content,
     k < maxRetries →
     (∀ k', k' < k → ∃ message, axios (Batcher.calls st + k') data = inl message) →
     axios (Batcher.calls st + k) data = inr content →
     Batcher.calls st' = Batcher.calls st + S k
     ∧ Batcher.txHashes st' = Batcher.txHashes st ++ omap Batcher.resultOf content
     ∧ Batcher.batchErrors st' = Batcher.batchErrors st ++ omap Batcher.errorOf content
     ∧ Batcher.abandoned st' = Batcher.abandoned st)
  ∧ ((∀ k, k < maxRetries → ∃ message, axios (Batcher.calls st + k) data = inl message) →
     Batcher.calls st' = Batcher.calls st + maxRetries
     ∧ Batcher.txHashes st' = Batcher.txHashes st
     ∧ Batcher.batchErrors st' = Batcher.batchErrors st
     ∧ Batcher.abandoned st' = S (Batcher.abandoned st)
     ∧ length (Batcher.sendLog st') = length (Batcher.sendLog st) + S maxRetries).
Proof.
  cbn zeta. unfold Batcher.sendTransactionWithRetry. split.
  - intros k content Hk Hrejected Hcall.
    by apply (retry_first_success axios data maxRetries st k content).
  - intros Hrejected. by apply (retry_all_rejected axios data maxRetries st).
Qed.

Lemma sendTransactionWithRetry_bound_witness :
  (let st' := Batcher.sendTransactionWithRetry Fixtures.flakyNode
                [Batcher.eth_sendRawTransaction "0xf86b01" 0] 3 (Batcher.newDispatch 0) in
   Batcher.calls st' = 2 ∧ Batcher.txHashes st' = ["0x5e1d"])
  ∧ (let st' := Batcher.sendTransactionWithRetry Fixtures.deadNode
                  [Batcher.eth_sendRawTransaction "0xf86b01" 0] 3 (Batcher.newDispatch 0) in
     Batcher.calls st' = 3 ∧ Batcher.abandoned st' = 1).
Proof.
  split.
  - destruct (proj1 (sendTransactionWithRetry_bound Fixtures.flakyNode
                       [Batcher.eth_sendRawTransaction "0xf86b01" 0] 3
                       (Batcher.newDispatch 0)) 1 [Batcher.RpcResult "0x5e1d"])
      as (Hcalls & Hhashes & _).
    + lia.
    + intros k' Hk'. assert (k' = 0) as -> by lia. by eexists.
    + reflexivity.
    + split; [exact Hcalls | exact Hhashes].
  - destruct (proj2 (sendTransactionWithRetry_bound Fixtures.deadNode
                       [Batcher.eth_sendRawTransaction "0xf86b01" 0] 3
                       (Batcher.newDispatch 0))) as (Hcalls & _ & _ & Habandoned & _).
    + intros k Hk. by eexists.
    + split; [exact Hcalls | exact Habandoned].
Defined.

(** X3: when the node answers every call and judges each transaction by
    itself, the grouped mode (for a positive batch size) returns the
    hashes of the accepted transactions in the order they were handed
    in, the messages of the refused ones in that order too, and leaves
    no retry pending; one sender's task of the parallel mode appends
    its hashes and messages in the order of its transactions, one call
    each. *)
Theorem judged_transactions_keep_order {Payload}
    (axios : nat → list (Batcher.RpcRequest Payload) → string + list Batcher.RpcResponse)
    (verdict : Payload → Batcher.RpcResponse) :
  Batcher.judges verdict axios →
  (∀ signedTxs batchSize calls0,
     0 < batchSize →
     ∃ st,
       Batcher.batchTransactions_run axios signedTxs batchSize calls0 = Ok st
       ∧ Batcher.txHashes st = omap (λ tx, Batcher.resultOf (verdict tx)) signedTxs
       ∧ Batcher.batchErrors st = omap (λ tx, Batcher.errorOf (verdict tx)) signedTxs
       ∧ Batcher.detached st = [])
  ∧ (∀ txs st,
       let st' := Batcher.sendBySender axios txs st in
       Batcher.txHashes st'
       = Batcher.txHashes st ++ omap (λ tx, Batcher.resultOf (verdict tx)) txs
       ∧ Batcher.batchErrors st'
         = Batcher.batchErrors st ++ omap (λ tx, Batcher.errorOf (verdict tx)) txs
       ∧ Batcher.calls st' = Batcher.calls st + length txs).
Proof.
  intros Hjudges. split.
  - intros signedTxs batchSize calls0 Hpos.
    destruct (generateBatches_concat signedTxs batchSize Hpos) as (batches & Hgen & Hcat).
    unfold Batcher.batchTransactions_run. rewrite Hgen. simpl.
    eexists. split; [reflexivity|].
    destruct (sendBatches_judged axios verdict Hjudges batches 0 (Batcher.newDispatch calls0))
      as (Hhashes & Herrors & Hdetached).
    cbn zeta in *. by rewrite Hhashes, Herrors, Hdetached, Hcat.
  - intros txs st. by apply sendBySender_judged.
Qed.

Lemma judgingNode_judges : Batcher.judges Samples.verdict Samples.judgingNode.
Proof. intros n data. reflexivity. Qed.

Lemma judged_transactions_keep_order_witness :
  ∃ st,
    Batcher.batchTransactions_run Samples.judgingNode ["0xa1"; "0xbad"; "0xa2"] 2 0 = Ok st
    ∧ Batcher.txHashes st = ["hash:0xa1"; "hash:0xa2"]
    ∧ Batcher.batchErrors st = ["nonce too low"].
Proof.
  destruct (proj1 (judged_transactions_keep_order Samples.judgingNode Samples.verdict
                     judgingNode_judges) ["0xa1"; "0xbad"; "0xa2"] 2 0)
    as (st & Hrun & Hhashes & Herrors & _); [lia|].
  exists st. split; [exact Hrun|]. split; [exact Hhashes | exact Herrors].
Defined.

(** X4: against a node that rejects every call a pending retry is taken
    up again and again: each time costs one more POST, the group goes
    back to the pending ones, and no identifier or error is ever
    recorded for it. *)
Theorem pending_group_is_retried_without_bound {Payload}
    (axios : nat → list (Batcher.RpcRequest Payload) → string + list Batcher.RpcResponse)
    (st : Batcher.Dispatch Payload) (resumed : nat) :
  Batcher.alwaysRejects axios →
  Batcher.detached st ≠ [] →
  let st' := Nat.iter resumed (Batcher.resumeDetached axios) st in
  Batcher.calls st' = Batcher.calls st + resumed
  ∧ Batcher.pending st' = Batcher.pending st
  ∧ length (Batcher.detached st') = length (Batcher.detached st)
  ∧ Batcher.txHashes st' = Batcher.txHashes st
  ∧ Batcher.batchErrors st' = Batcher.batchErrors st.
Proof.
  intros Hdown Hpending. cbn zeta.
  induction resumed as [|resumed IH]; simpl; [repeat split; lia|].
  destruct IH as (Hcalls & Hsame & Hlen & Hhashes & Herrors).
  destruct (resumeDetached_rejected axios Hdown
              (Nat.iter resumed (Batcher.resumeDetached axios) st))
    as (Hcalls' & Hsame' & Hlen' & Hhashes' & Herrors').
  { intros Hnil. rewrite Hnil in Hlen. destruct (Batcher.detached st); [done | simpl in Hlen; lia]. }
  cbn zeta in *. rewrite Hcalls', Hsame', Hlen', Hhashes', Herrors'.
  repeat split; (done || lia).
Qed.

Lemma deadNode_alwaysRejects {Payload} : Batcher.alwaysRejects (@Fixtures.deadNode Payload).
Proof. intros n data. by eexists. Qed.

Lemma pending_group_is_retried_without_bound_witness :
  let st' := Nat.iter 5 (Batcher.resumeDetached Fixtures.deadNode) Samples.oneGroupPending in
  Batcher.calls st' = 1 + 5 ∧ Batcher.pending st' = 1 ∧ Batcher.txHashes st' = [].
Proof.
  destruct (pending_group_is_retried_without_bound Fixtures.deadNode
              Samples.oneGroupPending 5 deadNode_alwaysRejects)
    as (Hcalls & Hpending & _ & Hhashes & _); [done|].
  split; [exact Hcalls|]. split; [exact Hpending | exact Hhashes].
Defined.

(** ** The native distribution as a whole *)

Section distribute_more.
Context `{Heap Distributor.distributeAccount H}.
Import Distributor.
Variable fromMnemonic : nat → string.
Variable node : Node.

(** The indexes the wait loop can add are those of the accounts it was
    given, each at most once and in their order. *)
Lemma awaited_sublist (P : distributeAccount * string → Prop) `{∀ funded, Decision (P funded)}
    (accounts : list distributeAccount) : ∀ txHashes : list string,
  (λ funded : distributeAccount * string, mnemonicIndex funded.1)
    <$> filter P (zip accounts txHashes)
  `sublist_of` mnemonicIndex <$> accounts.
Proof.
  induction accounts as [|acc accounts IH]; intros [|txHash txHashes]; simpl;
    try apply sublist_nil_l.
  rewrite filter_cons. case_decide; simpl.
  - apply sublist_skip, IH.
  - apply sublist_cons, IH.
Qed.

Lemma fundAccounts_added batchSize costs accounts ready calls0 r :
  fundAccounts fromMnemonic node batchSize costs accounts ready calls0 = Ok r →
  ∃ added, r.1 = ready ++ added ∧ added `sublist_of` mnemonicIndex <$> accounts.
Proof.
  unfold fundAccounts.
  destruct (Batcher.batchTransactions _ _ _ _) as [txHashes| |]; [|done..].
  cbn [mbind result_bind mret result_ret]. intros [= <-].
  destruct (awaitAll_spec node accounts txHashes 0 (ready, [])) as (errors & -> & _).
  simpl. eexists. split; [reflexivity|]. rewrite drop_0. apply awaited_sublist.
Qed.

Lemma fundAccounts_returns batchSize costs accounts ready calls0 :
  0 < batchSize →
  ∃ r, fundAccounts fromMnemonic node batchSize costs accounts ready calls0 = Ok r.
Proof.
  intros Hpos. unfold fundAccounts.
  destruct (batchTransactions_returns (axios node) (signFunding fromMnemonic node accounts)
              batchSize calls0 Hpos) as (txHashes & ->).
  by eexists.
Qed.

(** What [distribute] does once the costs are known, by the accounts
    that are short and the balance of the root wallet. *)
Lemma distribute_cases runtimeEstimator totalTx requestedSubAccounts batchSize calls0 costs :
  calculateRuntimeCosts fromMnemonic node runtimeEstimator totalTx = Ok costs →
  let short index := (getBalance node (fromMnemonic index) < subAccount costs)%Z in
  let funded := filter (λ index, ¬ short index) (seq 1 requestedSubAccounts) in
  let unfunded := filter short (seq 1 requestedSubAccounts) in
  let outcome :=
    distribute (H:=H) fromMnemonic node runtimeEstimator totalTx requestedSubAccounts
      batchSize calls0 in
  (unfunded = [] ∧ outcome = Ok funded)
  ∨ (unfunded ≠ []
     ∧ (getBalance node (fromMnemonic 0) ≤ accDistributionCost costs)%Z
     ∧ outcome = Throw errNotEnoughFunds)
  ∨ (unfunded ≠ []
     ∧ (accDistributionCost costs < getBalance node (fromMnemonic 0))%Z
     ∧ ∃ taken,
         taken ≠ []
         ∧ mnemonicIndex <$> taken ⊆+ unfunded
         ∧ outcome = (r ← fundAccounts fromMnemonic node batchSize costs taken funded calls0;
                      mret r.1)).
Proof.
  intros Hcosts short funded unfunded outcome. unfold outcome, distribute.
  rewrite Hcosts. cbn [mbind result_bind].
  pose proof (native_scan (H:=H) fromMnemonic node (subAccount costs)
                (seq 1 requestedSubAccounts) heap_new []) as Hscan.
  unfold findAccountsForDistribution.
  destruct (foldl _ _ _) as [shortAddresses ready]. simpl in Hscan.
  destruct Hscan as [Hitems ->]. rewrite heap_new_items in Hitems. simpl in Hitems.
  fold short in Hitems |- *. fold funded. fold unfunded in Hitems.
  assert (mnemonicIndex <$> heap_items shortAddresses ≡ₚ unfunded) as Hindexes.
  { rewrite Hitems, <- list_fmap_compose. by rewrite list_fmap_id. }
  assert (heap_size shortAddresses = length unfunded) as Hsize.
  { by rewrite heap_size_items, <- Hindexes, length_fmap. }
  case_bool_decide as Hnone.
  { left. split; [|done]. apply nil_length_inv. lia. }
  right.
  assert (unfunded ≠ []) as Hsome.
  { intros Heq. rewrite Heq in Hsize. simpl in Hsize. lia. }
  unfold getFundableAccounts, ethWallet. simpl.
  destruct (fundable_greedy (accDistributionCost costs) (getBalance node (fromMnemonic 0))
              shortAddresses) as (taken & left & Hperm & Hwhile & Hstop & Hout).
  destruct taken as [|acc taken].
  - left. split; [done|]. split; [|by rewrite Hout].
    simpl in *. destruct Hstop as [->|Hle]; [|lia].
    rewrite Hperm in Hindexes. simpl in Hindexes.
    by apply Permutation_nil_l in Hindexes.
  - right. split; [done|]. split.
    { specialize (Hwhile [] acc taken eq_refl). simpl in Hwhile. lia. }
    exists (acc :: taken). split; [done|]. split; [|by rewrite Hout].
    rewrite <- Hindexes, Hperm, fmap_app. by apply submseteq_inserts_r.
Qed.
End distribute_more.

(** X5: once the costs are computed and the batch size is positive,
    [distribute] ends in one of three ways, decided by the balances:
    with no sub-account below the per-account cost it returns the
    indexes 1 to [requestedSubAccounts] in order; with one below it and
    a root balance that does not exceed the gas estimate of one
    distribution it throws the not-enough-funds error; otherwise, on a
    node that rejects no POST of the funding dispatch, it returns a
    list, whatever the answers and the receipts are. *)
Theorem distribute_outcome `{Heap Distributor.distributeAccount H}
    (fromMnemonic : nat → string) (node : Node) (runtimeEstimator : Runtime)
    (totalTx requestedSubAccounts batchSize calls0 : nat)
    (costs : Distributor.runtimeCosts) :
  Distributor.calculateRuntimeCosts fromMnemonic node runtimeEstimator totalTx = Ok costs →
  0 < batchSize →
  let short index :=
    (getBalance node (fromMnemonic index) < Distributor.subAccount costs)%Z in
  let someShort := ∃ index, 1 ≤ index ≤ requestedSubAccounts ∧ short index in
  let rootBalance := getBalance node (fromMnemonic 0) in
  let outcome :=
    Distributor.distribute (H:=H) fromMnemonic node runtimeEstimator totalTx
      requestedSubAccounts batchSize calls0 in
  (¬ someShort → outcome = Ok (seq 1 requestedSubAccounts))
  ∧ (someShort → (rootBalance ≤ Distributor.accDistributionCost costs)%Z →
       outcome = Throw errNotEnoughFunds)
  ∧ (someShort → (Distributor.accDistributionCost costs < rootBalance)%Z →
       Batcher.neverRejects (axios node) →
       ∃ ready, outcome = Ok ready).
Proof.
  intros Hcosts Hpos short someShort rootBalance outcome.
  assert (someShort ↔ filter short (seq 1 requestedSubAccounts) ≠ []) as Hshort.
  { unfold someShort. split.
    - intros (index & Hrange & Hlt) Hnil.
      assert (index ∈ filter short (seq 1 requestedSubAccounts)) as Hin.
      { apply list_elem_of_filter. split; [done|]. apply elem_of_seq. lia. }
      rewrite Hnil in Hin. by apply elem_of_nil in Hin.
    - destruct (filter short (seq 1 requestedSubAccounts)) as [|index rest] eqn:Heq; [done|].
      intros _. assert (index ∈ filter short (seq 1 requestedSubAccounts)) as Hin.
      { rewrite Heq. left. }
      apply list_elem_of_filter in Hin as [Hlt Hin]. apply elem_of_seq in Hin.
      exists index. split; [lia | done]. }
  destruct (distribute_cases (H:=H) fromMnemonic node runtimeEstimator totalTx
              requestedSubAccounts batchSize calls0 costs Hcosts)
    as [[Hnone Hout] | [(Hsome & Hbroke & Hout) | (Hsome & Hrich & taken & _ & _ & Hout)]];
    try fold short in Hnone; try fold short in Hsome; fold short outcome in Hout.
  - split; [|split]; [|intros Hs; by apply Hshort in Hs..].
    intros _. rewrite Hout. f_equal.
    assert (∀ indexes, filter short indexes = [] →
                       filter (λ index, ¬ short index) indexes = indexes) as Hall.
    { clear. induction indexes as [|index indexes IH]; [done|].
      rewrite !filter_cons. destruct (decide (short index)) as [Hlt|Hge]; [done|].
      intros Hnil. rewrite decide_True by done. by rewrite IH. }
    by apply Hall.
  - split; [|split]; [by rewrite Hshort | done | intros _ ?; unfold rootBalance in *; lia].
  - split; [|split]; [by rewrite Hshort | intros _ ?; unfold rootBalance in *; lia |].
    intros _ _ _. rewrite Hout.
    match goal with
    | |- context [Distributor.fundAccounts _ _ _ _ _ ?funded _] =>
        destruct (fundAccounts_returns fromMnemonic node batchSize costs taken funded
                    calls0 Hpos) as (r & ->)
    end.
    by eexists.
Qed.

Lemma distribute_outcome_witness :
  ∃ ready,
    Distributor.distribute (H:=list _) Fixtures.addressOf Fixtures.oneEther
      Fixtures.transfers 500 2 20 0 = Ok ready.
Proof.
  refine (proj2 (proj2 (distribute_outcome (H:=list _) Fixtures.addressOf Fixtures.oneEther
                          Fixtures.transfers 500 2 20 0
                          (Distributor.mkCosts 21000 (605 * 10 ^ 15)) _ _)) _ _ _).
  - reflexivity.
  - lia.
  - exists 1. split; [lia | reflexivity].
  - reflexivity.
  - exact steadyNode_neverRejects.
Defined.

(** X6: on a node that rejects no POST, the list [distribute] returns is
    the sub-accounts that already held the per-account cost, in
    ascending order, followed by indexes of sub-accounts that were
    short; every index lies between 1 and [requestedSubAccounts] and
    none occurs twice, whatever the node answers to the funding
    transactions and whatever their receipts are. *)
Theorem distribute_ready_indexes `{Heap Distributor.distributeAccount H}
    (fromMnemonic : nat → string) (node : Node) (runtimeEstimator : Runtime)
    (totalTx requestedSubAccounts batchSize calls0 : nat)
    (costs : Distributor.runtimeCosts) (ready : list nat) :
  Distributor.calculateRuntimeCosts fromMnemonic node runtimeEstimator totalTx = Ok costs →
  Batcher.neverRejects (axios node) →
  Distributor.distribute (H:=H) fromMnemonic node runtimeEstimator totalTx
    requestedSubAccounts batchSize calls0 = Ok ready →
  let short index :=
    (getBalance node (fromMnemonic index) < Distributor.subAccount costs)%Z in
  ∃ added,
    ready = filter (λ index, ¬ short index) (seq 1 requestedSubAccounts) ++ added
    ∧ (∀ index, index ∈ added → short index)
    ∧ (∀ index, index ∈ ready → 1 ≤ index ≤ requestedSubAccounts)
    ∧ NoDup ready.
Proof.
  intros Hcosts _ Hrun short.
  assert (∀ added,
            added ⊆+ filter short (seq 1 requestedSubAccounts) →
            (∀ index, index ∈ added → short index)
            ∧ (∀ index,
                 index ∈ filter (λ index, ¬ short index) (seq 1 requestedSubAccounts) ++ added →
                 1 ≤ index ≤ requestedSubAccounts)
            ∧ NoDup (filter (λ index, ¬ short index) (seq 1 requestedSubAccounts) ++ added))
    as Hshape.
  { intros added Hsub.
    assert (∀ index, index ∈ added → short index ∧ 1 ≤ index ≤ requestedSubAccounts)
      as Hadded.
    { intros index Hin. eapply elem_of_submseteq in Hin; [|exact Hsub].
      apply list_elem_of_filter in Hin as [Hlt Hin]. apply elem_of_seq in Hin.
      split; [done | lia]. }
    split; [intros index Hin; by apply Hadded|]. split.
    - intros index [Hin|Hin]%elem_of_app; [|by apply Hadded].
      apply list_elem_of_filter in Hin as [_ Hin]. apply elem_of_seq in Hin. lia.
    - apply NoDup_app. split; [apply NoDup_filter, NoDup_seq|]. split.
      + intros index Hin Hin'. apply list_elem_of_filter in Hin as [Hge _].
        by destruct (Hadded index Hin').
      + apply submseteq_Permutation in Hsub as [rest Hperm].
        assert (NoDup (added ++ rest)) as Hnodup.
        { rewrite <- Hperm. apply NoDup_filter, NoDup_seq. }
        by apply NoDup_app in Hnodup as [? _]. }
  destruct (distribute_cases (H:=H) fromMnemonic node runtimeEstimator totalTx
              requestedSubAccounts batchSize calls0 costs Hcosts)
    as [[Hnone Hout] | [(_ & _ & Hout) | (_ & _ & taken & _ & Hsub & Hout)]];
    try fold short in Hnone; try fold short in Hsub; fold short in Hout;
    rewrite Hrun in Hout.
  - injection Hout as ->. exists []. rewrite app_nil_r.
    destruct (Hshape []) as (? & Hrange & Hnodup); [apply submseteq_nil_l|].
    rewrite app_nil_r in Hrange, Hnodup. done.
  - done.
  - match type of Hout with
    | context [Distributor.fundAccounts ?f ?n ?b ?c ?t ?funded ?k] =>
        destruct (Distributor.fundAccounts f n b c t funded k) as [r| |] eqn:Hfund;
          [|done..]
    end.
    injection Hout as ->.
    destruct (fundAccounts_added _ _ _ _ _ _ _ _ Hfund) as (added & -> & Hadded).
    exists added. split; [done|]. apply Hshape.
    etrans; [apply sublist_submseteq, Hadded | exact Hsub].
Qed.

Lemma distribute_ready_indexes_witness :
  ∃ added,
    Distributor.distribute (H:=list _) Fixtures.addressOf Fixtures.oneEther
      Fixtures.transfers 500 2 20 0 = Ok [1; 2]
    ∧ [1; 2] = filter (λ index, ¬ (getBalance Fixtures.oneEther (Fixtures.addressOf index)
                                   < 605 * 10 ^ 15)%Z) (seq 1 2) ++ added
    ∧ (∀ index, index ∈ added →
         (getBalance Fixtures.oneEther (Fixtures.addressOf index) < 605 * 10 ^ 15)%Z)
    ∧ NoDup [1; 2].
Proof.
  destruct (distribute_ready_indexes (H:=list _) Fixtures.addressOf Fixtures.oneEther
              Fixtures.transfers 500 2 20 0 (Distributor.mkCosts 21000 (605 * 10 ^ 15))
              [1; 2]) as (added & Hready & Hshort & _ & Hnodup).
  - reflexivity.
  - exact steadyNode_neverRejects.
  - reflexivity.
  - exists added. split; [reflexivity|]. split; [exact Hready|].
    split; [exact Hshort | exact Hnodup].
Defined.

(** ** The token distribution as a whole *)

Section token_more.
Context `{Heap Distributor.distributeAccount H}.
Import Distributor.
Variable fromMnemonic : nat → string.
Variable tokenRuntime : ERC20Runtime.t.


(** With balances that are not negative, no entry of the token scan
    misses more than the per-account cost. *)
Lemma token_scan_bounded token cost indexes :
  ERC20Runtime.contract tokenRuntime = Some token →
  (∀ index, index ∈ indexes →
     (0 ≤ ERC20Runtime.balanceOf tokenRuntime (fromMnemonic index))%Z) →
  ∃ short : H,
    TokenDistributor.findAccountsForDistribution fromMnemonic tokenRuntime cost indexes
      = Ok short
    ∧ Forall (λ acc, missingFunds acc ≤ cost)%Z (heap_items short)
    ∧ mnemonicIndex <$> heap_items short
      ≡ₚ filter (λ index, ERC20Runtime.balanceOf tokenRuntime (fromMnemonic index) < cost)%Z
                indexes.
Proof.
  intros Hinit Hbalances.
  destruct (token_scan (H:=H) fromMnemonic tokenRuntime token cost indexes heap_new Hinit)
    as (short & Hrun & Hitems).
  exists short. split; [done|]. rewrite heap_new_items in Hitems. simpl in Hitems.
  split.
  - rewrite Hitems. apply Forall_fmap, Forall_forall.
    intros index [_ Hin]%list_elem_of_filter. simpl.
    specialize (Hbalances index Hin). lia.
  - rewrite Hitems, <- list_fmap_compose. by rewrite list_fmap_id.
Qed.

Lemma token_fundAccounts_returns node batchSize token costs accounts calls0 :
  ERC20Runtime.contract tokenRuntime = Some token →
  0 < batchSize →
  ∃ r,
    TokenDistributor.fundAccounts fromMnemonic node tokenRuntime batchSize costs
      accounts calls0 = Ok r
    ∧ r.1 `sublist_of` mnemonicIndex <$> accounts.
Proof.
  intros Hinit Hpos. unfold TokenDistributor.fundAccounts, ERC20Runtime.EstimateBaseTx.
  rewrite Hinit. cbn [mbind result_bind].
  destruct (token_signFunding_length fromMnemonic tokenRuntime token
              (ERC20Runtime.estimateTransfer tokenRuntime) (getGasPrice node)
              (getChainId node) accounts
              (getTransactionCount node
                 (walletAddress (TokenDistributor.senderWallet fromMnemonic))) Hinit)
    as (signedTxs & -> & _).
  cbn [mbind result_bind].
  destruct (batchTransactions_returns (axios node) signedTxs batchSize calls0 Hpos)
    as (txHashes & ->).
  cbn [mbind result_bind mret result_ret]. eexists. split; [reflexivity|].
  destruct (awaitAll_spec node accounts txHashes 0 ([], [])) as (errors & -> & _).
  simpl. rewrite drop_0. apply awaited_sublist.
Qed.
End token_more.



(** X8: on an initialised token runtime whose balances are not
    negative, with a per-account cost and a supplier's balance that are
    [safeAmount]s (below 2^53 - 1, where the JS numbers of the source
    are exact), the scan followed by [getFundableAccounts] either throws
    the not-enough-funds error, exactly when no account is short or the
    supplier holds no more than the per-account cost, or returns
    accounts, at least one, whose missing tokens add up to less than the
    supplier holds. *)
Theorem token_allocation_within_supply `{Heap Distributor.distributeAccount H}
    (fromMnemonic : nat → string) (tokenRuntime : ERC20Runtime.t) (token : string)
    (costs : TokenDistributor.tokenRuntimeCosts) (readyMnemonicIndexes : list nat) :
  ERC20Runtime.contract tokenRuntime = Some token →
  (∀ index, index ∈ readyMnemonicIndexes →
     (0 ≤ ERC20Runtime.balanceOf tokenRuntime (fromMnemonic index))%Z) →
  let supplier :=
    ERC20Runtime.balanceOf tokenRuntime (ERC20Runtime.baseDeployer tokenRuntime) in
  safeAmount (TokenDistributor.subAccount costs) →
  safeAmount supplier →
  ∃ short : H,
    TokenDistributor.findAccountsForDistribution fromMnemonic tokenRuntime
      (TokenDistributor.subAccount costs) readyMnemonicIndexes = Ok short
    ∧ ((TokenDistributor.getFundableAccounts tokenRuntime costs short
          = Throw errNotEnoughFunds
        ∧ (heap_size short = 0 ∨ (supplier ≤ TokenDistributor.subAccount costs)%Z))
       ∨ (∃ taken,
            TokenDistributor.getFundableAccounts tokenRuntime costs short = Ok taken
            ∧ taken ≠ []
            ∧ taken ⊆+ heap_items short
            ∧ (Distributor.totalMissing taken < supplier)%Z)).
Proof.
  intros Hinit Hbalances supplier _ _.
  destruct (token_scan_bounded (H:=H) fromMnemonic tokenRuntime token
              (TokenDistributor.subAccount costs) readyMnemonicIndexes Hinit Hbalances)
    as (short & Hscan & Hbounded & _).
  exists short. split; [done|].
  assert (ERC20Runtime.GetSupplierBalance tokenRuntime = Ok supplier) as Hsupplier.
  { unfold ERC20Runtime.GetSupplierBalance, ERC20Runtime.GetTokenBalance.
    by rewrite Hinit. }
  pose proof (token_allocation_within_balance tokenRuntime costs short supplier)
    as Hwithin.
  pose proof (fundable_throw_iff (TokenDistributor.subAccount costs) supplier short)
    as Hthrow.
  destruct (fundable_greedy (TokenDistributor.subAccount costs) supplier short)
    as (taken & left & Hperm & _ & _ & Hout).
  unfold TokenDistributor.getFundableAccounts in *.
  rewrite Hsupplier in *. cbn [mbind result_bind] in *.
  destruct taken as [|acc taken].
  - left. split; [done|]. by apply Hthrow.
  - right. exists (acc :: taken). split; [done|]. split; [done|]. split.
    + rewrite Hperm. by apply submseteq_inserts_r.
    + by apply Hwithin.
Qed.

Lemma token_allocation_within_supply_witness :
  ∃ short : list Distributor.distributeAccount,
    TokenDistributor.findAccountsForDistribution Fixtures.addressOf Samples.unevenToken
      5%Z [1; 2] = Ok short
    ∧ ∃ taken,
        TokenDistributor.getFundableAccounts Samples.unevenToken Samples.fiveTokens short
          = Ok taken
        ∧ (Distributor.totalMissing taken < 100)%Z.
Proof.
  destruct (token_allocation_within_supply (H:=list _) Fixtures.addressOf
              Samples.unevenToken "0xToken" Samples.fiveTokens [1; 2])
    as (short & Hscan & Hfund).
  - reflexivity.
  - intros index Hin. simpl. repeat case_bool_decide; lia.
  - split; by vm_compute.
  - split; by vm_compute.
  - exists short. split; [exact Hscan|].
    destruct Hfund as [[_ Hnone] | (taken & Hrun & _ & _ & Hwithin)].
    + exfalso. injection Hscan as <-. simpl in Hnone. lia.
    + exists taken. split; [exact Hrun | exact Hwithin].
Defined.

(** X9: for a ready list that is not empty, a positive batch size and
    token amounts in the range where the JS numbers of the source are
    exact (costs and supplier's balance that are [safeAmount]s, balances
    that are not negative), [distributeTokens] throws the
    not-initialised error when the token is not deployed; returns the
    list it was given when no account on it is short of tokens; throws
    the not-enough-funds error when one is and the supplier holds no
    more than the per-account cost; and otherwise, on a node that
    rejects no POST, returns a list rebuilt from nothing, every index of
    which is one of a short account of the list given: the accounts that
    already held their tokens are not on it. *)
Theorem distributeTokens_outcome `{Heap Distributor.distributeAccount H}
    (fromMnemonic : nat → string) (node : Node) (tokenRuntime : ERC20Runtime.t)
    (totalTx batchSize calls0 : nat) (readyMnemonicIndexes : list nat)
    (costs : TokenDistributor.tokenRuntimeCosts) :
  TokenDistributor.calculateRuntimeCosts tokenRuntime totalTx readyMnemonicIndexes
    = Some costs →
  0 < batchSize →
  let short index :=
    (ERC20Runtime.balanceOf tokenRuntime (fromMnemonic index)
     < TokenDistributor.subAccount costs)%Z in
  let someShort := ∃ index, index ∈ readyMnemonicIndexes ∧ short index in
  let supplier :=
    ERC20Runtime.balanceOf tokenRuntime (ERC20Runtime.baseDeployer tokenRuntime) in
  let outcome :=
    TokenDistributor.distributeTokens (H:=H) fromMnemonic node tokenRuntime totalTx
      batchSize readyMnemonicIndexes calls0 in
  safeAmount (TokenDistributor.totalCost costs) →
  safeAmount (TokenDistributor.subAccount costs) →
  safeAmount supplier →
  (∀ index, index ∈ readyMnemonicIndexes →
     (0 ≤ ERC20Runtime.balanceOf tokenRuntime (fromMnemonic index))%Z) →
  (ERC20Runtime.contract tokenRuntime = None → outcome = Throw errRuntimeNotInitialized)
  ∧ (is_Some (ERC20Runtime.contract tokenRuntime) →
     (¬ someShort → outcome = Ok readyMnemonicIndexes)
     ∧ (someShort → (supplier ≤ TokenDistributor.subAccount costs)%Z →
          outcome = Throw errNotEnoughFunds)
     ∧ (someShort → (TokenDistributor.subAccount costs < supplier)%Z →
          Batcher.neverRejects (axios node) →
          ∃ ready,
            outcome = Ok ready
            ∧ ∀ index, index ∈ ready → index ∈ readyMnemonicIndexes ∧ short index)).
Proof.
  intros Hcosts Hpos short someShort supplier outcome _ _ _ _.
  unfold outcome, TokenDistributor.distributeTokens. rewrite Hcosts. split.
  - intros Hnone.
    destruct readyMnemonicIndexes as [|index rest]; [done|].
    unfold TokenDistributor.findAccountsForDistribution. simpl.
    unfold TokenDistributor.scanIndex, ERC20Runtime.GetTokenBalance.
    by rewrite Hnone.
  - intros [token Hinit].
    destruct (token_scan (H:=H) fromMnemonic tokenRuntime token
                (TokenDistributor.subAccount costs) readyMnemonicIndexes heap_new Hinit)
      as (shortAddresses & Hscan & Hitems).
    rewrite heap_new_items in Hitems. simpl in Hitems. fold short in Hitems.
    unfold TokenDistributor.findAccountsForDistribution. rewrite Hscan.
    cbn [mbind result_bind].
    assert (Distributor.mnemonicIndex <$> heap_items shortAddresses
            ≡ₚ filter short readyMnemonicIndexes) as Hindexes.
    { rewrite Hitems, <- list_fmap_compose. by rewrite list_fmap_id. }
    assert (someShort ↔ heap_size shortAddresses ≠ 0) as Hshort.
    { rewrite heap_size_items, <- (length_fmap Distributor.mnemonicIndex), Hindexes.
      unfold someShort. split.
      - intros (index & Hin & Hlt) Hlen. apply nil_length_inv in Hlen.
        assert (index ∈ filter short readyMnemonicIndexes) as Hin'
          by (by apply list_elem_of_filter).
        rewrite Hlen in Hin'. by apply elem_of_nil in Hin'.
      - destruct (filter short readyMnemonicIndexes) as [|index rest] eqn:Heq; [done|].
        intros _. assert (index ∈ filter short readyMnemonicIndexes) as Hin.
        { rewrite Heq. left. }
        apply list_elem_of_filter in Hin as [Hlt Hin]. by exists index. }
    assert (ERC20Runtime.GetSupplierBalance tokenRuntime = Ok supplier) as Hsupplier.
    { unfold ERC20Runtime.GetSupplierBalance, ERC20Runtime.GetTokenBalance.
      by rewrite Hinit. }
    case_bool_decide as Hsize.
    { split; [done|]. split; intros Hs; by apply Hshort in Hs. }
    split; [intros Hs; by rewrite Hshort in Hs|].
    unfold TokenDistributor.getFundableAccounts. rewrite Hsupplier.
    cbn [mbind result_bind].
    destruct (fundable_greedy (TokenDistributor.subAccount costs) supplier shortAddresses)
      as (taken & left & Hperm & Hwhile & Hstop & ->).
    destruct taken as [|acc taken].
    + split; [done|]. intros _ Hrich. exfalso.
      simpl in Hstop. destruct Hstop as [->|Hle]; [|lia].
      rewrite app_nil_r in Hperm. simpl in Hperm.
      rewrite heap_size_items, Hperm in Hsize. done.
    + split.
      { intros _ Hle. specialize (Hwhile [] acc taken eq_refl). simpl in Hwhile. lia. }
      intros _ _ _. cbn [mbind result_bind].
      destruct (token_fundAccounts_returns fromMnemonic tokenRuntime node batchSize token
                  costs (acc :: taken) calls0 Hinit Hpos) as (r & -> & Hsub).
      cbn [mbind result_bind mret result_ret]. eexists. split; [reflexivity|].
      intros index Hin. eapply elem_of_sublist in Hin; [|exact Hsub].
      assert (index ∈ Distributor.mnemonicIndex <$> heap_items shortAddresses) as Hin'.
      { rewrite Hperm, fmap_app. apply elem_of_app. by left. }
      rewrite Hindexes in Hin'. apply list_elem_of_filter in Hin' as [Hlt Hin'].
      done.
Qed.

Lemma distributeTokens_outcome_witness :
  ∃ ready,
    TokenDistributor.distributeTokens (H:=list _) Fixtures.addressOf Fixtures.funded
      Samples.unevenToken 10 20 [1; 2] 0 = Ok ready
    ∧ 1 ∉ ready.
Proof.
  destruct (distributeTokens_outcome (H:=list _) Fixtures.addressOf Fixtures.funded
              Samples.unevenToken 10 20 0 [1; 2] Samples.fiveTokens)
    as [_ Hdeployed].
  - reflexivity.
  - lia.
  - split; by vm_compute.
  - split; by vm_compute.
  - split; by vm_compute.
  - intros index Hin. simpl. repeat case_bool_decide; lia.
  - destruct Hdeployed as (_ & _ & Hfunded); [by eexists|].
    destruct Hfunded as (ready & Hrun & Hshort).
    + exists 2. split; [repeat constructor | reflexivity].
    + reflexivity.
    + exact steadyNode_neverRejects.
    + exists ready. split; [exact Hrun|].
      intros Hin. destruct (Hshort 1 Hin) as [_ Hlt]. vm_compute in Hlt. discriminate.
Defined.

(** ** The transactions of the three runtimes *)

Section workload_facts.
Import Signer.
Context {Request Signed : Type}.
Variable create : senderAccount → option senderAccount → result Request.
Variable receiverIndex : nat → nat → nat → nat.
Variable sign : Wallet → Request → Signed.
Variable accounts0 : list senderAccount.
Variable k : nat.

(** Of the receiver only the address is read. *)
Hypothesis Haddress : ∀ sender receiver receiver',
  getAddress <$> receiver = getAddress <$> receiver' →
  create sender receiver = create sender receiver'.
(** Every request of the run can be created. *)
Hypothesis Hcreate : ∀ i sender j,
  accounts0 !! i = Some sender → j < k →
  ∃ tx, create (EOARuntime.advance j sender)
               (accounts0 !! receiverIndex i j (length accounts0)) = Ok tx.

Lemma incrNonce_advance j sender :
  incrNonce (EOARuntime.advance j sender) = EOARuntime.advance (S j) sender.
Proof. unfold incrNonce, EOARuntime.advance. simpl. f_equal. lia. Qed.

Lemma sameAddresses_lookup (accounts accounts' : list senderAccount) r :
  getAddress <$> accounts = getAddress <$> accounts' →
  getAddress <$> accounts !! r = getAddress <$> accounts' !! r.
Proof. intros Heq. by rewrite <- !list_lookup_fmap, Heq. Qed.

Lemma workload_forSender i sender :
  accounts0 !! i = Some sender →
  ∀ left j accounts txs,
    j + left = k →
    getAddress <$> accounts = getAddress <$> accounts0 →
    accounts !! i = Some (EOARuntime.advance j sender) →
    ∃ new,
      Workload.constructForSender create receiverIndex sign i left j accounts txs
      = Ok (<[i := EOARuntime.advance k sender]> accounts, txs ++ new)
      ∧ length new = left
      ∧ ∀ j', j' < left →
          ∃ tx,
            create (EOARuntime.advance (j + j') sender)
                   (accounts0 !! receiverIndex i (j + j') (length accounts0)) = Ok tx
            ∧ new !! j' = Some (sign (wallet sender) tx).
Proof using Haddress Hcreate.
  intros Hsender. induction left as [|left IH]; intros j accounts txs Hk Hsame Hcur.
  - exists []. simpl. rewrite app_nil_r. assert (j = k) as -> by lia.
    rewrite list_insert_id by done. split; [done|]. split; [done|]. lia.
  - simpl. rewrite Hcur.
    assert (length accounts = length accounts0) as Hlen.
    { by rewrite <- (length_fmap getAddress accounts), Hsame, length_fmap. }
    rewrite Hlen.
    rewrite (Haddress _ _ (accounts0 !! receiverIndex i j (length accounts0)))
      by (by apply sameAddresses_lookup).
    destruct (Hcreate i sender j Hsender ltac:(lia)) as (tx & Htx). rewrite Htx.
    cbn [mbind result_bind]. rewrite incrNonce_advance.
    destruct (IH (S j) (<[i := EOARuntime.advance (S j) sender]> accounts)
                (txs ++ [sign (wallet (EOARuntime.advance j sender)) tx]))
      as (new & -> & Hnew & Hbuilt).
    + lia.
    + rewrite list_fmap_insert, <- Hsame. apply list_insert_id.
      rewrite list_lookup_fmap, Hcur. done.
    + apply list_lookup_insert_eq. by eapply lookup_lt_Some.
    + exists (sign (wallet sender) tx :: new).
      rewrite list_insert_insert_eq, <- app_assoc. simpl.
      split; [done|]. split; [by rewrite Hnew|].
      intros [|j'] Hj'.
      * rewrite Nat.add_0_r. by exists tx.
      * destruct (Hbuilt j' ltac:(lia)) as (tx' & Htx' & Hlookup).
        exists tx'. by rewrite <- Nat.add_succ_comm.
Qed.

Lemma workload_loop : ∀ left i transactions,
  i + left = length accounts0 →
  (∀ i' sender,
     accounts0 !! i' = Some sender → i' < i →
     (∀ i'' sender'', i' < i'' → i'' < i → accounts0 !! i'' = Some sender'' →
                      getAddress sender'' ≠ getAddress sender) →
     ∃ txs, transactions !! getAddress sender = Some txs
            ∧ Workload.builtBy create receiverIndex sign accounts0 k i' sender txs) →
  (∀ address, is_Some (transactions !! address) →
              ∃ sender, sender ∈ accounts0 ∧ getAddress sender = address) →
  ∃ transactions',
    Workload.constructLoop create receiverIndex sign k left i
      ((EOARuntime.advance k <$> take i accounts0) ++ drop i accounts0) transactions
    = Ok (EOARuntime.advance k <$> accounts0, transactions')
    ∧ (∀ i' sender,
         accounts0 !! i' = Some sender →
         Workload.lastWithAddress accounts0 i' sender →
         ∃ txs, transactions' !! getAddress sender = Some txs
                ∧ Workload.builtBy create receiverIndex sign accounts0 k i' sender txs)
    ∧ (∀ address, is_Some (transactions' !! address) →
                  ∃ sender, sender ∈ accounts0 ∧ getAddress sender = address).
Proof using Haddress Hcreate.
  induction left as [|left IH]; intros i transactions Hlen Hwritten Hdom.
  - exists transactions. simpl. rewrite take_ge, drop_ge, app_nil_r by lia.
    split; [done|]. split; [|done].
    intros i' sender Hsender Hlast. apply Hwritten; [done | |].
    + apply lookup_lt_Some in Hsender. lia.
    + intros i'' sender'' Hlt _. by apply Hlast.
  - destruct (lookup_lt_is_Some_2 accounts0 i) as [sender Hsender]; [lia|].
    assert (length (EOARuntime.advance k <$> take i accounts0) = i) as Hfront.
    { rewrite length_fmap, length_take. lia. }
    set (accounts := (EOARuntime.advance k <$> take i accounts0) ++ drop i accounts0).
    assert (accounts !! i = Some sender) as Hcur.
    { unfold accounts. rewrite lookup_app_r by lia. rewrite Hfront, Nat.sub_diag.
      by rewrite lookup_drop, Nat.add_0_r. }
    assert (getAddress <$> accounts = getAddress <$> accounts0) as Hsame.
    { unfold accounts. rewrite fmap_app, <- list_fmap_compose.
      rewrite <- (take_drop i accounts0) at 3. by rewrite fmap_app. }
    simpl. rewrite Hcur.
    destruct (workload_forSender i sender Hsender k 0 accounts []) as (new & -> & Hnew & Hbuilt).
    { lia. }
    { done. }
    { rewrite Hcur. f_equal. unfold EOARuntime.advance. destruct sender. simpl.
      by rewrite Nat.add_0_r. }
    cbn [mbind result_bind]. simpl app.
    assert (<[i := EOARuntime.advance k sender]> accounts
            = (EOARuntime.advance k <$> take (S i) accounts0) ++ drop (S i) accounts0) as ->.
    { unfold accounts. rewrite insert_app_r_alt, Hfront, Nat.sub_diag by lia.
      rewrite (drop_S _ _ _ Hsender), (take_S_r _ _ _ Hsender). simpl.
      by rewrite fmap_app, <- app_assoc. }
    apply IH; [lia | |].
    + intros i' sender' Hsender' Hlt Hlast.
      destruct (decide (i' = i)) as [->|Hne].
      * assert (sender' = sender) as -> by congruence.
        exists new. rewrite lookup_insert_eq. split; [done|]. split; [done|].
        intros j Hj. destruct (Hbuilt j Hj) as (tx & Htx & Hlookup). by exists tx.
      * rewrite lookup_insert_ne.
        { apply Hwritten; [done | lia |]. intros i'' sender'' ? ?. apply Hlast; lia. }
        apply (Hlast i sender); [lia | lia | done].
    + intros address. rewrite lookup_insert. case_decide as Haddr.
      * intros _. exists sender. split; [by eapply list_elem_of_lookup_2 | done].
      * apply Hdom.
Qed.

(** The two loops from the start. *)
Lemma workload_built :
  ∃ transactions,
    Workload.constructLoop create receiverIndex sign k (length accounts0) 0 accounts0 ∅
    = Ok (EOARuntime.advance k <$> accounts0, transactions)
    ∧ (∀ i sender,
         accounts0 !! i = Some sender →
         Workload.lastWithAddress accounts0 i sender →
         ∃ txs, transactions !! getAddress sender = Some txs
                ∧ Workload.builtBy create receiverIndex sign accounts0 k i sender txs)
    ∧ (∀ address, is_Some (transactions !! address) →
                  ∃ sender, sender ∈ accounts0 ∧ getAddress sender = address).
Proof using Haddress Hcreate.
  destruct (workload_loop (length accounts0) 0 ∅) as (transactions & Hrun & Hbuilt & Hdom).
  - lia.
  - intros i' sender _ Hlt. lia.
  - intros address [txs Hlookup]. by rewrite lookup_empty in Hlookup.
  - rewrite take_0, drop_0 in Hrun. by exists transactions.
Qed.
End workload_facts.

Section runtime_instances.
Import Signer.

Lemma eoa_forSender rt dynamic i : ∀ left j accounts txs,
  EOARuntime.constructForSender rt dynamic i left j accounts txs
  = Workload.constructForSender (Workload.eoa rt dynamic) (λ i j n, (i + j) mod n)
      signTransaction i left j accounts txs.
Proof.
  induction left as [|left IH]; intros j accounts txs; simpl; [done|].
  destruct (accounts !! i) as [sender|]; [|done].
  destruct (accounts !! ((i + j) mod length accounts)) as [receiver|]; simpl; [|done].
  destruct (EOARuntime.createTransferTransaction _ _ _ _ _); simpl; [apply IH | done..].
Qed.

Lemma eoa_loop rt dynamic k : ∀ left i accounts transactions,
  EOARuntime.constructLoop rt dynamic k left i accounts transactions
  = Workload.constructLoop (Workload.eoa rt dynamic) (λ i j n, (i + j) mod n)
      signTransaction k left i accounts transactions.
Proof.
  induction left as [|left IH]; intros i accounts transactions; simpl; [done|].
  destruct (accounts !! i) as [sender|]; [|done].
  rewrite eoa_forSender.
  destruct (Workload.constructForSender _ _ _ _ _ _ _ _) as [[accounts' txs]| |];
    simpl; [apply IH | done..].
Qed.

Lemma erc20_forSender token rt f dynamic i : ∀ left j accounts txs,
  ERC20Runtime.constructForSender token rt f dynamic i left j accounts txs
  = Workload.constructForSender (Workload.erc20 token rt f dynamic)
      (λ i j n, (i + j + 1) mod n) signTransaction i left j accounts txs.
Proof.
  induction left as [|left IH]; intros j accounts txs; simpl; [done|].
  destruct (accounts !! i) as [sender|]; [|done].
  destruct (accounts !! ((i + j + 1) mod length accounts)) as [receiver|]; simpl; [|done].
  destruct (ERC20Runtime.createTransferTransaction _ _ _ _ _ _ _); simpl;
    [apply IH | done..].
Qed.

Lemma erc20_loop token rt f dynamic k : ∀ left i accounts transactions,
  ERC20Runtime.constructLoop token rt f dynamic k left i accounts transactions
  = Workload.constructLoop (Workload.erc20 token rt f dynamic)
      (λ i j n, (i + j + 1) mod n) signTransaction k left i accounts transactions.
Proof.
  induction left as [|left IH]; intros i accounts transactions; simpl; [done|].
  destruct (accounts !! i) as [sender|]; [|done].
  rewrite erc20_forSender.
  destruct (Workload.constructForSender _ _ _ _ _ _ _ _) as [[accounts' txs]| |];
    simpl; [apply IH | done..].
Qed.

Lemma erc721_forSender nft rt dynamic i : ∀ left j accounts txs,
  ERC721Runtime.constructForSender nft rt dynamic i left accounts txs
  = Workload.constructForSender (Workload.erc721 nft rt dynamic) (λ i j n, 0)
      ERC721Runtime.signMint i left j accounts txs.
Proof.
  induction left as [|left IH]; intros j accounts txs; simpl; [done|].
  destruct (accounts !! i) as [sender|]; [|done].
  change (Workload.erc721 nft rt dynamic sender (accounts !! 0))
    with (ERC721Runtime.createTransaction nft rt sender (ERC721Runtime.gasPrice rt) dynamic).
  destruct (ERC721Runtime.createTransaction _ _ _ _ _); simpl; [apply IH | done..].
Qed.

Lemma erc721_loop nft rt dynamic k : ∀ left i accounts transactions,
  ERC721Runtime.constructLoop nft rt dynamic k left i accounts transactions
  = Workload.constructLoop (Workload.erc721 nft rt dynamic) (λ i j n, 0)
      ERC721Runtime.signMint k left i accounts transactions.
Proof.
  induction left as [|left IH]; intros i accounts transactions; simpl; [done|].
  destruct (accounts !! i) as [sender|]; [|done].
  rewrite (erc721_forSender _ _ _ _ _ 0).
  destruct (Workload.constructForSender _ _ _ _ _ _ _ _) as [[accounts' txs]| |];
    simpl; [apply IH | done..].
Qed.

(** The receiver of a turn is there when the sender is. *)
Lemma receiver_exists (accounts : list senderAccount) i sender r :
  accounts !! i = Some sender →
  ∃ receiver, accounts !! (r mod length accounts) = Some receiver.
Proof.
  intros Hsender%lookup_lt_Some. apply lookup_lt_is_Some_2, Nat.mod_upper_bound. lia.
Qed.

Lemma eoa_reads_address rt dynamic sender (receiver receiver' : option senderAccount) :
  getAddress <$> receiver = getAddress <$> receiver' →
  Workload.eoa rt dynamic sender receiver = Workload.eoa rt dynamic sender receiver'.
Proof.
  destruct receiver as [receiver|], receiver' as [receiver'|]; simpl;
    intros Heq; try done.
  injection Heq as Heq. unfold EOARuntime.createTransferTransaction. by rewrite Heq.
Qed.

Lemma erc20_reads_address token rt f dynamic sender
    (receiver receiver' : option senderAccount) :
  getAddress <$> receiver = getAddress <$> receiver' →
  Workload.erc20 token rt f dynamic sender receiver
  = Workload.erc20 token rt f dynamic sender receiver'.
Proof.
  destruct receiver as [receiver|], receiver' as [receiver'|]; simpl;
    intros Heq; try done.
  injection Heq as Heq. unfold ERC20Runtime.createTransferTransaction. by rewrite Heq.
Qed.
End runtime_instances.

Section created_requests.
Import Signer.

Lemma eoa_created rt dynamic sender receiver gasPrice tx :
  EOARuntime.createTransferTransaction rt sender receiver gasPrice dynamic = Ok tx →
  tx_from tx = Some (getAddress sender)
  ∧ tx_to tx = getAddress receiver
  ∧ tx_value tx = EOARuntime.defaultValue rt
  ∧ tx_gasLimit tx = EOARuntime.gasEstimation rt
  ∧ tx_chainId tx = EOARuntime.chainID rt
  ∧ tx_nonce tx = nonce sender
  ∧ tx_data tx = None
  ∧ Workload.feeFields dynamic (EOARuntime.feeData rt) gasPrice
      (tx_gasPrice tx) (tx_maxFeePerGas tx) (tx_maxPriorityFeePerGas tx) (tx_type tx).
Proof.
  unfold EOARuntime.createTransferTransaction, Workload.feeFields.
  destruct dynamic.
  - destruct (EOARuntime.feeData rt ≫= maxFeePerGas) as [fee|]; [|done].
    destruct (EOARuntime.feeData rt ≫= maxPriorityFeePerGas) as [priority|]; [|done].
    by intros [= <-].
  - by intros [= <-].
Qed.

Lemma erc20_created token rt f dynamic receiver sender gasPrice tx :
  ERC20Runtime.createTransferTransaction token rt f receiver sender gasPrice dynamic
    = Ok tx →
  tx_from tx = Some (getAddress sender)
  ∧ tx_to tx = token
  ∧ tx_data tx = Some (getAddress receiver, ERC20Runtime.defaultTransferValue rt)
  ∧ tx_value tx = 0%Z
  ∧ tx_gasLimit tx = (ERC20Runtime.gasEstimation f * 150 ÷ 100)%Z
  ∧ tx_chainId tx = ERC20Runtime.chainID f
  ∧ tx_nonce tx = nonce sender
  ∧ Workload.feeFields dynamic (ERC20Runtime.feeData f) (gasPrice * 150 ÷ 100)%Z
      (tx_gasPrice tx) (tx_maxFeePerGas tx) (tx_maxPriorityFeePerGas tx) (tx_type tx).
Proof.
  unfold ERC20Runtime.createTransferTransaction, Workload.feeFields.
  destruct dynamic.
  - destruct (ERC20Runtime.feeData f ≫= maxFeePerGas) as [fee|]; [|done].
    destruct (ERC20Runtime.feeData f ≫= maxPriorityFeePerGas) as [priority|]; [|done].
    by intros [= <-].
  - by intros [= <-].
Qed.

Lemma erc721_created nft rt dynamic sender gasPrice tx :
  ERC721Runtime.createTransaction nft rt sender gasPrice dynamic = Ok tx →
  ERC721Runtime.mint_from tx = getAddress sender
  ∧ ERC721Runtime.mint_to tx = nft
  ∧ ERC721Runtime.mint_url tx = ERC721Runtime.nftURL rt
  ∧ ERC721Runtime.mint_gasLimit tx = (ERC721Runtime.gasEstimation rt * 150 ÷ 100)%Z
  ∧ ERC721Runtime.mint_chainId tx = ERC721Runtime.chainID rt
  ∧ ERC721Runtime.mint_nonce tx = nonce sender
  ∧ Workload.feeFields dynamic (ERC721Runtime.feeData rt) gasPrice
      (ERC721Runtime.mint_gasPrice tx) (ERC721Runtime.mint_maxFeePerGas tx)
      (ERC721Runtime.mint_maxPriorityFeePerGas tx) (ERC721Runtime.mint_type tx).
Proof.
  unfold ERC721Runtime.createTransaction, Workload.feeFields.
  destruct dynamic.
  - destruct (ERC721Runtime.feeData rt ≫= maxFeePerGas) as [fee|]; [|done].
    destruct (ERC721Runtime.feeData rt ≫= maxPriorityFeePerGas) as [priority|]; [|done].
    by intros [= <-].
  - intros [= <-]. simpl. rewrite Z.quot_mul by done. done.
Qed.

Lemma eoa_creates rt dynamic sender receiver gasPrice :
  Workload.feesFor dynamic (EOARuntime.feeData rt) →
  ∃ tx, EOARuntime.createTransferTransaction rt sender receiver gasPrice dynamic = Ok tx.
Proof.
  intros Hfees. unfold EOARuntime.createTransferTransaction. destruct dynamic.
  - destruct Hfees as [[fee ->] [priority ->]]; [done|]. by eexists.
  - by eexists.
Qed.

Lemma erc20_creates token rt f dynamic receiver sender gasPrice :
  Workload.feesFor dynamic (ERC20Runtime.feeData f) →
  ∃ tx, ERC20Runtime.createTransferTransaction token rt f receiver sender gasPrice dynamic
        = Ok tx.
Proof.
  intros Hfees. unfold ERC20Runtime.createTransferTransaction. destruct dynamic.
  - destruct Hfees as [[fee ->] [priority ->]]; [done|]. by eexists.
  - by eexists.
Qed.

Lemma erc721_creates nft rt dynamic sender gasPrice :
  Workload.feesFor dynamic (ERC721Runtime.feeData rt) →
  ∃ tx, ERC721Runtime.createTransaction nft rt sender gasPrice dynamic = Ok tx.
Proof.
  intros Hfees. unfold ERC721Runtime.createTransaction. destruct dynamic.
  - destruct Hfees as [[fee ->] [priority ->]]; [done|]. by eexists.
  - by eexists.
Qed.
End created_requests.

(** X10: with legacy fees, or with fee data at hand, the value-transfer
    runtime builds for every sender [numOfTxPerAccount] transfers of the
    default value; the receiver of the [j]-th transfer of the sender at
    position [i] is the account at position [(i + j) mod numAccounts],
    so the senders pay round the list starting with themselves; the gas
    limit is the estimate as it is, and the fee fields are the gas price
    as it is, or twice the two fees of the fee data with type 2. *)
Theorem eoa_transfers_go_round (rt : EOARuntime.t)
    (accounts : list Signer.senderAccount) (numOfTxPerAccount : nat) (dynamic : bool) :
  EOARuntime.feesAvailable rt dynamic →
  ∃ accounts' transactions,
    EOARuntime.ConstructTransactions rt accounts numOfTxPerAccount dynamic
      = Ok (accounts', transactions)
    ∧ ∀ i sender,
        accounts !! i = Some sender →
        Workload.lastWithAddress accounts i sender →
        ∃ txs,
          transactions !! Signer.getAddress sender = Some txs
          ∧ length txs = numOfTxPerAccount
          ∧ ∀ j, j < numOfTxPerAccount →
              ∃ signed receiver,
                txs !! j = Some signed
                ∧ accounts !! ((i + j) mod length accounts) = Some receiver
                ∧ tx_to (signedRequest signed) = Signer.getAddress receiver
                ∧ tx_value (signedRequest signed) = EOARuntime.defaultValue rt
                ∧ tx_gasLimit (signedRequest signed) = EOARuntime.gasEstimation rt
                ∧ tx_data (signedRequest signed) = None
                ∧ Workload.feeFields dynamic (EOARuntime.feeData rt) (EOARuntime.gasPrice rt)
                    (tx_gasPrice (signedRequest signed))
                    (tx_maxFeePerGas (signedRequest signed))
                    (tx_maxPriorityFeePerGas (signedRequest signed))
                    (tx_type (signedRequest signed)).
Proof.
  intros Hfees. unfold EOARuntime.ConstructTransactions. rewrite eoa_loop.
  destruct (workload_built (Workload.eoa rt dynamic) (λ i j n, (i + j) mod n)
              signTransaction accounts numOfTxPerAccount)
    as (transactions & Hrun & Hbuilt & _).
  { apply eoa_reads_address. }
  { intros i sender j Hsender Hj.
    destruct (receiver_exists accounts i sender (i + j) Hsender) as [receiver ->].
    by apply eoa_creates. }
  exists (EOARuntime.advance numOfTxPerAccount <$> accounts), transactions.
  split; [exact Hrun|].
  intros i sender Hsender Hlast.
  destruct (Hbuilt i sender Hsender Hlast) as (txs & Hlookup & Hlen & Htxs).
  exists txs. split; [done|]. split; [done|].
  intros j Hj. destruct (Htxs j Hj) as (tx & Htx & Hsigned).
  destruct (receiver_exists accounts i sender (i + j) Hsender) as [receiver Hreceiver].
  rewrite Hreceiver in Htx. simpl in Htx.
  apply eoa_created in Htx as (_ & Hto & Hvalue & Hlimit & _ & _ & Hdata & Hfields).
  exists (signTransaction (Signer.wallet sender) tx), receiver.
  split; [done|]. split; [done|]. simpl. done.
Qed.

Lemma eoa_transfers_go_round_witness :
  ∃ accounts' transactions,
    EOARuntime.ConstructTransactions Fixtures.legacy Samples.threeSenders 2 false
      = Ok (accounts', transactions)
    ∧ ∃ txs signed,
        transactions !! Fixtures.addressOf 3 = Some txs
        ∧ txs !! 1 = Some signed
        ∧ tx_to (signedRequest signed) = Fixtures.addressOf 1.
Proof.
  destruct (eoa_transfers_go_round Fixtures.legacy Samples.threeSenders 2 false)
    as (accounts' & transactions & Hrun & Hbuilt).
  { intros [=]. }
  exists accounts', transactions. split; [exact Hrun|].
  destruct (Hbuilt 2 (Signer.mkSender 3 0 (mkWallet 3 (Fixtures.addressOf 3))))
    as (txs & Hlookup & _ & Htxs).
  { reflexivity. }
  { intros [|[|[|i']]] sender' Hlt; try lia. by intros [=]. }
  destruct (Htxs 1) as (signed & receiver & Hsigned & Hreceiver & Hto & _); [lia|].
  exists txs, signed. split; [exact Hlookup|]. split; [exact Hsigned|].
  rewrite Hto. injection Hreceiver as <-. reflexivity.
Defined.

(** X11: an initialised token runtime, with legacy fees or with fee
    data at hand, builds for every sender [numOfTxPerAccount] calls of
    the token contract; the [j]-th of the sender at position [i] is a
    [transfer] of the default transfer value to the account at position
    [(i + j + 1) mod numAccounts], the next one round the list, with the
    sender's nonce plus [j], no value, one and a half times the gas
    estimate as gas limit and, with legacy fees, one and a half times
    the gas price. A runtime that is not initialised throws the
    not-initialised error whatever the accounts. *)
Theorem erc20_transfers_go_to_the_next (rt : ERC20Runtime.t) (f : ERC20Runtime.fees)
    (accounts : list Signer.senderAccount) (numOfTxPerAccount : nat) (dynamic : bool) :
  (ERC20Runtime.contract rt = None →
   ERC20Runtime.ConstructTransactions rt f accounts numOfTxPerAccount dynamic
   = Throw errRuntimeNotInitialized)
  ∧ (∀ token,
       ERC20Runtime.contract rt = Some token →
       Workload.feesFor dynamic (ERC20Runtime.feeData f) →
       ∃ transactions,
         ERC20Runtime.ConstructTransactions rt f accounts numOfTxPerAccount dynamic
           = Ok (EOARuntime.advance numOfTxPerAccount <$> accounts, transactions)
         ∧ ∀ i sender,
             accounts !! i = Some sender →
             Workload.lastWithAddress accounts i sender →
             ∃ txs,
               transactions !! Signer.getAddress sender = Some txs
               ∧ length txs = numOfTxPerAccount
               ∧ ∀ j, j < numOfTxPerAccount →
                   ∃ signed receiver,
                     txs !! j = Some signed
                     ∧ accounts !! ((i + j + 1) mod length accounts) = Some receiver
                     ∧ signer signed = Signer.getAddress sender
                     ∧ tx_from (signedRequest signed) = Some (Signer.getAddress sender)
                     ∧ tx_to (signedRequest signed) = token
                     ∧ tx_data (signedRequest signed)
                       = Some (Signer.getAddress receiver, ERC20Runtime.defaultTransferValue rt)
                     ∧ tx_value (signedRequest signed) = 0%Z
                     ∧ tx_nonce (signedRequest signed) = Signer.nonce sender + j
                     ∧ tx_gasLimit (signedRequest signed)
                       = (ERC20Runtime.gasEstimation f * 150 ÷ 100)%Z
                     ∧ Workload.feeFields dynamic (ERC20Runtime.feeData f)
                         (ERC20Runtime.gasPrice f * 150 ÷ 100)%Z
                         (tx_gasPrice (signedRequest signed))
                         (tx_maxFeePerGas (signedRequest signed))
                         (tx_maxPriorityFeePerGas (signedRequest signed))
                         (tx_type (signedRequest signed))).
Proof.
  unfold ERC20Runtime.ConstructTransactions. split; [by intros ->|].
  intros token -> Hfees. rewrite erc20_loop.
  destruct (workload_built (Workload.erc20 token rt f dynamic) (λ i j n, (i + j + 1) mod n)
              signTransaction accounts numOfTxPerAccount)
    as (transactions & Hrun & Hbuilt & _).
  { apply erc20_reads_address. }
  { intros i sender j Hsender Hj.
    destruct (receiver_exists accounts i sender (i + j + 1) Hsender) as [receiver ->].
    by apply erc20_creates. }
  exists transactions. split; [exact Hrun|].
  intros i sender Hsender Hlast.
  destruct (Hbuilt i sender Hsender Hlast) as (txs & Hlookup & Hlen & Htxs).
  exists txs. split; [done|]. split; [done|].
  intros j Hj. destruct (Htxs j Hj) as (tx & Htx & Hsigned).
  destruct (receiver_exists accounts i sender (i + j + 1) Hsender) as [receiver Hreceiver].
  rewrite Hreceiver in Htx. simpl in Htx.
  apply erc20_created in Htx
    as (Hfrom & Hto & Hdata & Hvalue & Hlimit & _ & Hnonce & Hfields).
  exists (signTransaction (Signer.wallet sender) tx), receiver.
  split; [done|]. split; [done|]. simpl. done.
Qed.

Lemma erc20_transfers_go_to_the_next_witness :
  ∃ transactions txs signed,
    ERC20Runtime.ConstructTransactions Fixtures.token Samples.tokenFees
      Samples.threeSenders 2 false
      = Ok (EOARuntime.advance 2 <$> Samples.threeSenders, transactions)
    ∧ transactions !! Fixtures.addressOf 1 = Some txs
    ∧ txs !! 0 = Some signed
    ∧ tx_data (signedRequest signed) = Some (Fixtures.addressOf 2, 1%Z)
    ∧ tx_nonce (signedRequest signed) = 7.
Proof.
  destruct (proj2 (erc20_transfers_go_to_the_next Fixtures.token Samples.tokenFees
                     Samples.threeSenders 2 false) "0xToken")
    as (transactions & Hrun & Hbuilt).
  { reflexivity. }
  { intros [=]. }
  destruct (Hbuilt 0 (Signer.mkSender 1 7 (mkWallet 1 (Fixtures.addressOf 1))))
    as (txs & Hlookup & _ & Htxs).
  { reflexivity. }
  { intros [|[|[|i']]] sender' Hlt; try lia; by intros [= <-]. }
  destruct (Htxs 0) as (signed & receiver & Hsigned & Hreceiver & _ & _ & _ & Hdata
                        & _ & Hnonce & _); [lia|].
  exists transactions, txs, signed. split; [exact Hrun|]. split; [exact Hlookup|].
  split; [exact Hsigned|]. split; [|exact Hnonce].
  rewrite Hdata. injection Hreceiver as <-. reflexivity.
Defined.

(** X12: an initialised NFT runtime, with legacy fees or with fee data
    at hand, builds for every sender [numOfTxPerAccount] calls of
    [createNFT] on the contract with the same URL, which differ in the
    nonce only: the sender's nonce plus [j] for the [j]-th; the gas
    limit is one and a half times the estimate, and with legacy fees
    the gas price is the runtime's gas price unchanged. A runtime that
    is not initialised throws the not-initialised error whatever the
    accounts. *)
Theorem erc721_mints (rt : ERC721Runtime.t)
    (accounts : list Signer.senderAccount) (numOfTxPerAccount : nat) (dynamic : bool) :
  (ERC721Runtime.contract rt = None →
   ERC721Runtime.ConstructTransactions rt accounts numOfTxPerAccount dynamic
   = Throw errRuntimeNotInitialized)
  ∧ (∀ nft,
       ERC721Runtime.contract rt = Some nft →
       Workload.feesFor dynamic (ERC721Runtime.feeData rt) →
       ∃ transactions,
         ERC721Runtime.ConstructTransactions rt accounts numOfTxPerAccount dynamic
           = Ok (EOARuntime.advance numOfTxPerAccount <$> accounts, transactions)
         ∧ ∀ i sender,
             accounts !! i = Some sender →
             Workload.lastWithAddress accounts i sender →
             ∃ txs,
               transactions !! Signer.getAddress sender = Some txs
               ∧ length txs = numOfTxPerAccount
               ∧ ∀ j, j < numOfTxPerAccount →
                   ∃ signed,
                     txs !! j = Some signed
                     ∧ ERC721Runtime.mintSigner signed = Signer.getAddress sender
                     ∧ ERC721Runtime.mint_from (ERC721Runtime.mintRequest signed)
                       = Signer.getAddress sender
                     ∧ ERC721Runtime.mint_to (ERC721Runtime.mintRequest signed) = nft
                     ∧ ERC721Runtime.mint_url (ERC721Runtime.mintRequest signed)
                       = ERC721Runtime.nftURL rt
                     ∧ ERC721Runtime.mint_nonce (ERC721Runtime.mintRequest signed)
                       = Signer.nonce sender + j
                     ∧ ERC721Runtime.mint_gasLimit (ERC721Runtime.mintRequest signed)
                       = (ERC721Runtime.gasEstimation rt * 150 ÷ 100)%Z
                     ∧ Workload.feeFields dynamic (ERC721Runtime.feeData rt)
                         (ERC721Runtime.gasPrice rt)
                         (ERC721Runtime.mint_gasPrice (ERC721Runtime.mintRequest signed))
                         (ERC721Runtime.mint_maxFeePerGas (ERC721Runtime.mintRequest signed))
                         (ERC721Runtime.mint_maxPriorityFeePerGas
                            (ERC721Runtime.mintRequest signed))
                         (ERC721Runtime.mint_type (ERC721Runtime.mintRequest signed))).
Proof.
  unfold ERC721Runtime.ConstructTransactions. split; [by intros ->|].
  intros nft -> Hfees. rewrite erc721_loop.
  destruct (workload_built (Workload.erc721 nft rt dynamic) (λ i j n, 0)
              ERC721Runtime.signMint accounts numOfTxPerAccount)
    as (transactions & Hrun & Hbuilt & _).
  { done. }
  { intros i sender j Hsender Hj. by apply erc721_creates. }
  exists transactions. split; [exact Hrun|].
  intros i sender Hsender Hlast.
  destruct (Hbuilt i sender Hsender Hlast) as (txs & Hlookup & Hlen & Htxs).
  exists txs. split; [done|]. split; [done|].
  intros j Hj. destruct (Htxs j Hj) as (tx & Htx & Hsigned).
  apply erc721_created in Htx
    as (Hfrom & Hto & Hurl & Hlimit & _ & Hnonce & Hfields).
  exists (ERC721Runtime.signMint (Signer.wallet sender) tx).
  split; [done|]. simpl. done.
Qed.

Lemma erc721_mints_witness :
  ∃ transactions txs signed,
    ERC721Runtime.ConstructTransactions Samples.nfts Samples.threeSenders 2 false
      = Ok (EOARuntime.advance 2 <$> Samples.threeSenders, transactions)
    ∧ transactions !! Fixtures.addressOf 1 = Some txs
    ∧ txs !! 1 = Some signed
    ∧ ERC721Runtime.mint_nonce (ERC721Runtime.mintRequest signed) = 8
    ∧ ERC721Runtime.mint_gasPrice (ERC721Runtime.mintRequest signed) = Some (10 ^ 9)%Z.
Proof.
  destruct (proj2 (erc721_mints Samples.nfts Samples.threeSenders 2 false) "0xNFT")
    as (transactions & Hrun & Hbuilt).
  { reflexivity. }
  { intros [=]. }
  destruct (Hbuilt 0 (Signer.mkSender 1 7 (mkWallet 1 (Fixtures.addressOf 1))))
    as (txs & Hlookup & _ & Htxs).
  { reflexivity. }
  { intros [|[|[|i']]] sender' Hlt; try lia; by intros [= <-]. }
  destruct (Htxs 1) as (signed & Hsigned & _ & _ & _ & _ & Hnonce & _ & Hfields); [lia|].
  exists transactions, txs, signed. split; [exact Hrun|]. split; [exact Hlookup|].
  split; [exact Hsigned|]. split; [exact Hnonce|]. exact (proj1 Hfields).
Defined.

Section nothing_built.
Import Signer.
Context {Request Signed : Type}.
Variable create : senderAccount → option senderAccount → result Request.
Variable receiverIndex : nat → nat → nat → nat.
Variable sign : Wallet → Request → Signed.

(** When the first request cannot be created the loops return no map. *)
Lemma workload_throws e sender accounts k :
  create sender ((sender :: accounts) !! receiverIndex 0 0 (S (length accounts))) = Throw e →
  Workload.constructLoop create receiverIndex sign (S k) (S (length accounts)) 0
    (sender :: accounts) ∅ = Throw e.
Proof. intros Hthrow. simpl. by rewrite Hthrow. Qed.
End nothing_built.

Section without_fee_data.
Import Signer.

(** Before [EstimateBaseTx] has stored it the runtime holds no fee data:
    [this.feeData?.maxFeePerGas] is [undefined] and the guard throws. *)
Lemma eoa_dynamic_throws rt sender receiver gasPrice :
  EOARuntime.feeData rt = None →
  EOARuntime.createTransferTransaction rt sender receiver gasPrice true
  = Throw errDynamicFee.
Proof. intros Hnone. unfold EOARuntime.createTransferTransaction. by rewrite Hnone. Qed.

Lemma erc20_dynamic_throws token rt f receiver sender gasPrice :
  ERC20Runtime.feeData f = None →
  ERC20Runtime.createTransferTransaction token rt f receiver sender gasPrice true
  = Throw errDynamicFee.
Proof.
  intros Hnone. unfold ERC20Runtime.createTransferTransaction. by rewrite Hnone.
Qed.

Lemma erc721_dynamic_throws nft rt sender gasPrice :
  ERC721Runtime.feeData rt = None →
  ERC721Runtime.createTransaction nft rt sender gasPrice true = Throw errDynamicFee.
Proof. intros Hnone. unfold ERC721Runtime.createTransaction. by rewrite Hnone. Qed.
End without_fee_data.

(** X13: when dynamic fees are asked for and the runtime holds no fee
    data (its [feeData] is [undefined], as it is until [EstimateBaseTx]
    has run), each of the three runtimes throws the dynamic-fee-data
    error as soon as there is one transaction to build (an account and a
    positive number of transactions per account; for the two token
    runtimes, once initialised), and returns no map; with no transaction
    per account it returns, whatever the fee data, and leaves the
    accounts as they are. *)
Theorem dynamic_fees_need_fee_data (accounts : list Signer.senderAccount)
    (numOfTxPerAccount : nat) :
  (∀ rt,
     (EOARuntime.feeData rt = None → accounts ≠ [] → 0 < numOfTxPerAccount →
        EOARuntime.ConstructTransactions rt accounts numOfTxPerAccount true
        = Throw errDynamicFee)
     ∧ ∃ transactions,
         EOARuntime.ConstructTransactions rt accounts 0 true = Ok (accounts, transactions))
  ∧ (∀ rt f token,
       ERC20Runtime.contract rt = Some token →
       (ERC20Runtime.feeData f = None → accounts ≠ [] → 0 < numOfTxPerAccount →
          ERC20Runtime.ConstructTransactions rt f accounts numOfTxPerAccount true
          = Throw errDynamicFee)
       ∧ ∃ transactions,
           ERC20Runtime.ConstructTransactions rt f accounts 0 true
           = Ok (accounts, transactions))
  ∧ (∀ rt nft,
       ERC721Runtime.contract rt = Some nft →
       (ERC721Runtime.feeData rt = None → accounts ≠ [] → 0 < numOfTxPerAccount →
          ERC721Runtime.ConstructTransactions rt accounts numOfTxPerAccount true
          = Throw errDynamicFee)
       ∧ ∃ transactions,
           ERC721Runtime.ConstructTransactions rt accounts 0 true
           = Ok (accounts, transactions)).
Proof.
  assert (EOARuntime.advance 0 <$> accounts = accounts) as Hsame.
  { rewrite <- (list_fmap_id accounts) at 2. apply list_fmap_ext.
    intros i sender _. apply advance_0. }
  split; [|split].
  - intros rt. split.
    + intros Hmissing Hsome Hpos. destruct accounts as [|sender rest]; [done|].
      destruct numOfTxPerAccount as [|k]; [lia|].
      unfold EOARuntime.ConstructTransactions. rewrite eoa_loop.
      apply workload_throws. cbn [length].
      destruct (receiver_exists (sender :: rest) 0 sender (0 + 0) eq_refl)
        as [receiver Hreceiver].
      cbn [length] in Hreceiver. rewrite Hreceiver. unfold Workload.eoa.
      by apply eoa_dynamic_throws.
    + unfold EOARuntime.ConstructTransactions. rewrite eoa_loop.
      destruct (workload_built (Workload.eoa rt true) (λ i j n, (i + j) mod n)
                  signTransaction accounts 0) as (transactions & Hrun & _).
      { apply eoa_reads_address. }
      { intros i sender j _ Hj. lia. }
      exists transactions. by rewrite Hrun, Hsame.
  - intros rt f token Hinit. unfold ERC20Runtime.ConstructTransactions.
    rewrite Hinit. split.
    + intros Hmissing Hsome Hpos. destruct accounts as [|sender rest]; [done|].
      destruct numOfTxPerAccount as [|k]; [lia|].
      rewrite erc20_loop. apply workload_throws. cbn [length].
      destruct (receiver_exists (sender :: rest) 0 sender (0 + 0 + 1) eq_refl)
        as [receiver Hreceiver].
      cbn [length] in Hreceiver. rewrite Hreceiver. unfold Workload.erc20.
      by apply erc20_dynamic_throws.
    + rewrite erc20_loop.
      destruct (workload_built (Workload.erc20 token rt f true)
                  (λ i j n, (i + j + 1) mod n) signTransaction accounts 0)
        as (transactions & Hrun & _).
      { apply erc20_reads_address. }
      { intros i sender j _ Hj. lia. }
      exists transactions. by rewrite Hrun, Hsame.
  - intros rt nft Hinit. unfold ERC721Runtime.ConstructTransactions.
    rewrite Hinit. split.
    + intros Hmissing Hsome Hpos. destruct accounts as [|sender rest]; [done|].
      destruct numOfTxPerAccount as [|k]; [lia|].
      rewrite erc721_loop. apply workload_throws.
      by apply erc721_dynamic_throws.
    + rewrite erc721_loop.
      destruct (workload_built (Workload.erc721 nft rt true) (λ i j n, 0)
                  ERC721Runtime.signMint accounts 0) as (transactions & Hrun & _).
      { done. }
      { intros i sender j _ Hj. lia. }
      exists transactions. by rewrite Hrun, Hsame.
Qed.

Lemma dynamic_fees_need_fee_data_witness :
  EOARuntime.ConstructTransactions Fixtures.legacy Samples.threeSenders 2 true
  = Throw errDynamicFee
  ∧ ERC20Runtime.ConstructTransactions Fixtures.token Samples.tokenFees
      Samples.threeSenders 2 true = Throw errDynamicFee
  ∧ ERC721Runtime.ConstructTransactions Samples.nfts Samples.threeSenders 2 true
    = Throw errDynamicFee.
Proof.
  destruct (dynamic_fees_need_fee_data Samples.threeSenders 2)
    as (Heoa & Herc20 & Herc721).
  split; [|split].
  - apply (proj1 (Heoa Fixtures.legacy)); [reflexivity | discriminate | lia].
  - apply (proj1 (Herc20 Fixtures.token Samples.tokenFees "0xToken" eq_refl));
      [reflexivity | discriminate | lia].
  - apply (proj1 (Herc721 Samples.nfts "0xNFT" eq_refl)); [reflexivity | discriminate | lia].
Defined.

(** ** The funding transactions *)

Section funding_transactions.
Import Distributor.
Variable fromMnemonic : nat → string.

Lemma token_signFunding_each tokenRuntime token gasEstimation gasPrice chainID accounts :
  ERC20Runtime.contract tokenRuntime = Some token →
  ∀ nonce,
  ∃ signedTxs,
    TokenDistributor.signFunding fromMnemonic tokenRuntime gasEstimation gasPrice
      chainID nonce accounts = Ok signedTxs
    ∧ length signedTxs = length accounts
    ∧ ∀ k acc, accounts !! k = Some acc →
        signedTxs !! k
        = Some (signTransaction (TokenDistributor.senderWallet fromMnemonic)
                  (mkTx None token chainID (gasEstimation * 150 ÷ 100)%Z 0 (nonce + k)
                        (Some (gasPrice * 150 ÷ 100)%Z) None None None
                        (Some (address acc, missingFunds acc)))).
Proof.
  intros Hinit. induction accounts as [|acc accounts IH]; intros nonce; simpl.
  - exists []. by split.
  - unfold ERC20Runtime.CreateFundTransaction. rewrite Hinit. simpl.
    destruct (IH (S nonce)) as (signedTxs & -> & Hlen & Heach). simpl.
    eexists. split; [reflexivity|]. split; [simpl; by rewrite Hlen|].
    intros [|k] acc' Hacc; simpl in *.
    + injection Hacc as <-. by rewrite Nat.add_0_r.
    + rewrite (Heach k acc' Hacc). by replace (nonce + S k) with (S nonce + k) by lia.
Qed.
End funding_transactions.

(** X14: both [fundAccounts] sign one funding transaction per account to
    fund, in the order of the accounts, under the wallet of index 0,
    for the node's chain and with the nonces that follow that wallet's
    transaction count one by one, and hand them to the dispatch: against
    a node that answers every POST with the hash of each transaction in
    it, the hashes whose receipts they wait for are those of these
    transactions, in their order. The native one sends the account's
    missing funds as value to the account's address with a gas limit of
    21000; the token one calls the token contract with a [transfer] of
    the missing amount (a [safeAmount]) to the account's address, with
    no value and one and a half times the runtime's gas estimate; both
    offer one and a half times the node's gas price. *)
Theorem funding_transactions_in_order (fromMnemonic : nat → string) (node : Node)
    (batchSize calls0 : nat) (hashOf : SignedTransaction → string)
    (accounts : list Distributor.distributeAccount) :
  0 < batchSize →
  Batcher.accepts hashOf (axios node) →
  (∀ costs readyMnemonicIndexes,
     ∃ signedTxs,
       Distributor.fundAccounts fromMnemonic node batchSize costs accounts
         readyMnemonicIndexes calls0
       = Ok (Distributor.awaitAll node accounts 0 (hashOf <$> signedTxs)
               (readyMnemonicIndexes, []))
       ∧ length signedTxs = length accounts
       ∧ ∀ k acc, accounts !! k = Some acc →
           ∃ signed,
             signedTxs !! k = Some signed
             ∧ signer signed = fromMnemonic 0
             ∧ tx_from (signedRequest signed) = Some (fromMnemonic 0)
             ∧ tx_to (signedRequest signed) = Distributor.address acc
             ∧ tx_value (signedRequest signed) = Distributor.missingFunds acc
             ∧ tx_data (signedRequest signed) = None
             ∧ tx_chainId (signedRequest signed) = getChainId node
             ∧ tx_nonce (signedRequest signed)
               = getTransactionCount node (fromMnemonic 0) + k
             ∧ tx_gasLimit (signedRequest signed) = 21000%Z
             ∧ tx_gasPrice (signedRequest signed) = Some (getGasPrice node * 150 ÷ 100)%Z)
  ∧ (∀ tokenRuntime token costs,
       ERC20Runtime.contract tokenRuntime = Some token →
       Forall (λ acc, safeAmount (Distributor.missingFunds acc)) accounts →
       ∃ signedTxs,
         TokenDistributor.fundAccounts fromMnemonic node tokenRuntime batchSize costs
           accounts calls0
         = Ok (Distributor.awaitAll node accounts 0 (hashOf <$> signedTxs) ([], []))
         ∧ length signedTxs = length accounts
         ∧ ∀ k acc, accounts !! k = Some acc →
             ∃ signed,
               signedTxs !! k = Some signed
               ∧ signer signed = fromMnemonic 0
               ∧ tx_to (signedRequest signed) = token
               ∧ tx_data (signedRequest signed)
                 = Some (Distributor.address acc, Distributor.missingFunds acc)
               ∧ tx_value (signedRequest signed) = 0%Z
               ∧ tx_chainId (signedRequest signed) = getChainId node
               ∧ tx_nonce (signedRequest signed)
                 = getTransactionCount node (fromMnemonic 0) + k
               ∧ tx_gasLimit (signedRequest signed)
                 = (ERC20Runtime.estimateTransfer tokenRuntime * 150 ÷ 100)%Z
               ∧ tx_gasPrice (signedRequest signed)
                 = Some (getGasPrice node * 150 ÷ 100)%Z).
Proof.
  intros Hpos Haccepts. split.
  - intros costs ready. exists (Distributor.signFunding fromMnemonic node accounts).
    split; [|split].
    + unfold Distributor.fundAccounts.
      by rewrite (batchTransactions_accepts hashOf) by done.
    + apply length_imap.
    + intros k acc Hacc. unfold Distributor.signFunding.
      rewrite list_lookup_imap, Hacc. simpl.
      eexists. split; [reflexivity|]. simpl. done.
  - intros tokenRuntime token costs Hinit _.
    destruct (token_signFunding_each fromMnemonic tokenRuntime token
                (ERC20Runtime.estimateTransfer tokenRuntime) (getGasPrice node)
                (getChainId node) accounts Hinit
                (getTransactionCount node (fromMnemonic 0)))
      as (signedTxs & Hrun & Hlen & Heach).
    exists signedTxs. split; [|split; [done|]].
    + unfold TokenDistributor.fundAccounts, ERC20Runtime.EstimateBaseTx.
      rewrite Hinit. cbn [mbind result_bind].
      unfold TokenDistributor.senderWallet. cbn [walletAddress].
      rewrite Hrun. cbn [mbind result_bind].
      by rewrite (batchTransactions_accepts hashOf) by done.
    + intros k acc Hacc. rewrite (Heach k acc Hacc).
      eexists. split; [reflexivity|]. simpl. done.
Qed.

Lemma funding_transactions_in_order_witness :
  ∃ signedTxs signed,
    TokenDistributor.fundAccounts Fixtures.addressOf Fixtures.oneEther Fixtures.token 20
      Fixtures.tenTokens [Fixtures.shortOne; Fixtures.shortTwo] 0
    = Ok (Distributor.awaitAll Fixtures.oneEther [Fixtures.shortOne; Fixtures.shortTwo] 0
            (Fixtures.steadyHash <$> signedTxs) ([], []))
    ∧ signedTxs !! 1 = Some signed
    ∧ tx_nonce (signedRequest signed) = 0 + 1
    ∧ tx_data (signedRequest signed) = Some (Fixtures.addressOf 2, 5%Z).
Proof.
  destruct (funding_transactions_in_order Fixtures.addressOf Fixtures.oneEther 20 0
              Fixtures.steadyHash [Fixtures.shortOne; Fixtures.shortTwo])
    as [_ Htoken]; [lia | exact steadyNode_accepts |].
  destruct (Htoken Fixtures.token "0xToken" Fixtures.tenTokens)
    as (signedTxs & Hrun & _ & Heach).
  - reflexivity.
  - repeat constructor; by vm_compute.
  - destruct (Heach 1 Fixtures.shortTwo eq_refl)
      as (signed & Hsigned & _ & _ & Hdata & _ & _ & Hnonce & _).
    exists signedTxs, signed.
    split; [exact Hrun|]. split; [exact Hsigned|]. split; [exact Hnonce | exact Hdata].
Defined.

(** ** The parallel dispatch of an accepting node *)

Section engine_facts.
Import Signer.

Lemma parallel_judged {Payload}
    (post : nat → list (Batcher.RpcRequest Payload) → string + list Batcher.RpcResponse)
    verdict (Hjudges : Batcher.judges verdict post)
    (Haccepted : ∀ tx, is_Some (Batcher.resultOf (verdict tx)))
    (entries : list (string * list Payload)) : ∀ st,
  length (Batcher.txHashes
            (foldl (λ st entry, Batcher.sendBySender post entry.2 st) st entries))
  = length (Batcher.txHashes st) + sum_list_with (λ entry, length entry.2) entries.
Proof.
  induction entries as [|entry entries IH]; intros st; cbn [foldl sum_list_with]; [lia|].
  rewrite IH.
  destruct (sendBySender_judged post verdict Hjudges entry.2 st) as (-> & _ & _).
  rewrite length_app.
  assert (length (omap (λ tx, Batcher.resultOf (verdict tx)) entry.2) = length entry.2)
    as ->; [|lia].
  induction (entry.2) as [|tx txs IHtxs]; [done|]. csimpl.
  destruct (Haccepted tx) as [hash ->]. simpl. by rewrite IHtxs.
Qed.
End engine_facts.

(** ** Signing the requests of a flat list *)

Section signTransactions_facts.
Import Signer.
Context {Request SignedTx : Type}.
Variable sign : Wallet → Request → string + SignedTx.
Implicit Types (st : gmap string (list SignedTx) * list string).

Lemma signEach_spec w txs : ∀ (st : list SignedTx * list string),
  signEach sign w txs st = (st.1 ++ signedOf sign w txs, st.2 ++ rejectionsOf sign w txs).
Proof.
  unfold signEach, signedOf, rejectionsOf.
  induction txs as [|tx txs IH]; intros [signed errors]; csimpl.
  - by rewrite !app_nil_r.
  - rewrite IH. destruct (sign w tx) as [message|signedTx]; csimpl;
      by rewrite <- !app_assoc.
Qed.

Lemma signed_or_rejected w txs :
  length (signedOf sign w txs) + length (rejectionsOf sign w txs) = length txs.
Proof.
  unfold signedOf, rejectionsOf. induction txs as [|tx txs IH]; csimpl; [done|].
  destruct (sign w tx); csimpl; lia.
Qed.

Lemma submitted_insert_fresh (m : gmap string (list SignedTx)) address txs :
  m !! address = None →
  Batcher.submitted (<[address := txs]> m) = Batcher.submitted m + length txs.
Proof.
  intros Hfresh. unfold Batcher.submitted.
  rewrite (map_to_list_insert m address txs Hfresh). simpl. lia.
Qed.

Lemma submitted_insert_over (m : gmap string (list SignedTx)) address old txs :
  m !! address = Some old →
  Batcher.submitted (<[address := txs]> m) + length old = Batcher.submitted m + length txs.
Proof.
  intros Hold. rewrite <- insert_delete_eq.
  rewrite submitted_insert_fresh by apply lookup_delete_eq.
  unfold Batcher.submitted. rewrite <- (map_to_list_delete m address old Hold).
  simpl. lia.
Qed.

(** The tasks of accounts with distinct addresses that the map does not
    hold yet: what the map holds afterwards, and how many requests were
    signed or rejected. *)
Lemma signTasks_spec q transactions (accounts : list senderAccount) : ∀ index st,
  NoDup (getAddress <$> accounts) →
  (∀ sender, sender ∈ accounts → st.1 !! getAddress sender = None) →
  let st' := signTasks sign q transactions index accounts st in
  (∀ k sender, accounts !! k = Some sender →
     st'.1 !! getAddress sender
     = Some (signedOf sign (wallet sender)
               (slice transactions ((index + k) * q) ((index + k) * q + q))))
  ∧ (∀ address, address ∉ getAddress <$> accounts → st'.1 !! address = st.1 !! address)
  ∧ Batcher.submitted st'.1 + length st'.2
    = Batcher.submitted st.1 + length st.2
      + sum_list_with (λ k, length (slice transactions (k * q) (k * q + q)))
          (seq index (length accounts))
  ∧ ((∀ k sender, accounts !! k = Some sender →
        rejectionsOf sign (wallet sender)
          (slice transactions ((index + k) * q) ((index + k) * q + q)) = []) →
     st'.2 = st.2).
Proof.
  induction accounts as [|sender accounts IH]; intros index st Hnodup Hfresh; simpl.
  { split; [done|]. split; [done|]. split; [lia | done]. }
  apply NoDup_cons in Hnodup as [Hsender Hnodup].
  set (st1 := signTask sign q transactions st index sender).
  assert (st1.1 = <[getAddress sender :=
                      signedOf sign (wallet sender)
                        (slice transactions (index * q) (index * q + q))]> st.1
          ∧ st1.2
            = st.2 ++ rejectionsOf sign (wallet sender)
                        (slice transactions (index * q) (index * q + q)))
    as [Hmap Herrors].
  { unfold st1, signTask. by rewrite signEach_spec. }
  destruct (IH (S index) st1 Hnodup) as (Hlookup & Hother & Hcount & Hquiet).
  { intros sender' Hin. rewrite Hmap, lookup_insert_ne; [apply Hfresh; by right|].
    intros Heq. apply Hsender, list_elem_of_fmap. by exists sender'. }
  split; [|split; [|split]].
  - intros [|k] sender' Hsender'; simpl in Hsender'.
    + injection Hsender' as <-. rewrite Hother by done.
      rewrite Hmap, lookup_insert_eq, Nat.add_0_r. done.
    + rewrite (Hlookup k sender' Hsender'). by rewrite Nat.add_succ_comm.
  - intros address Hnot. apply not_elem_of_cons in Hnot as [Hne Hnot].
    rewrite Hother by done. by rewrite Hmap, lookup_insert_ne.
  - rewrite Hcount, Hmap, Herrors, length_app.
    rewrite submitted_insert_fresh by (apply Hfresh; left).
    pose proof (signed_or_rejected (wallet sender)
                  (slice transactions (index * q) (index * q + q))).
    lia.
  - intros Hnone. rewrite Hquiet.
    + rewrite Herrors. rewrite <- (Nat.add_0_r index) at 1 2.
      rewrite (Hnone 0 sender eq_refl). by rewrite app_nil_r.
    + intros k sender' Hsender'. rewrite Nat.add_succ_comm. by apply (Hnone (S k)).
Qed.

(** The slices that lie within the list hold [q] requests each. *)
Lemma slices_full {A} (l : list A) q n index :
  (index + n) * q ≤ length l →
  sum_list_with (λ k, length (slice l (k * q) (k * q + q))) (seq index n) = n * q.
Proof.
  revert index. induction n as [|n IH]; intros index Hle; simpl; [done|].
  rewrite IH by lia. unfold slice. rewrite length_take, length_drop. nia.
Qed.
End signTransactions_facts.

(** What [signTransactions] returns for accounts with distinct
    addresses. *)
Lemma signTransactions_spec {Request SignedTx : Type}
    (sign : Wallet → Request → string + SignedTx)
    (accounts : list Signer.senderAccount) (transactions : list Request) :
  accounts ≠ [] →
  NoDup (Signer.getAddress <$> accounts) →
  let numAccounts := length accounts in
  let txsPerAccount := length transactions / numAccounts in
  ∃ signedTxs failedTxnSignErrors,
    Signer.signTransactions sign accounts transactions
      = Ok (signedTxs, failedTxnSignErrors)
    ∧ (∀ i sender,
         accounts !! i = Some sender →
         signedTxs !! Signer.getAddress sender
         = Some (Signer.signedOf sign (Signer.wallet sender)
                   (Signer.slice transactions (i * txsPerAccount)
                      (i * txsPerAccount + txsPerAccount))
                 ++ (if bool_decide (i = numAccounts - 1)
                     then Signer.signedOf sign (Signer.wallet sender)
                            (drop (numAccounts * txsPerAccount) transactions)
                     else [])))
    ∧ (∀ address, is_Some (signedTxs !! address) →
                  address ∈ Signer.getAddress <$> accounts)
    ∧ Batcher.submitted signedTxs + length failedTxnSignErrors = length transactions
    ∧ ((∀ i sender,
          accounts !! i = Some sender →
          Signer.rejectionsOf sign (Signer.wallet sender)
            (Signer.slice transactions (i * txsPerAccount)
               (i * txsPerAccount + txsPerAccount)) = []
          ∧ (i = numAccounts - 1 →
             Signer.rejectionsOf sign (Signer.wallet sender)
               (drop (numAccounts * txsPerAccount) transactions) = [])) →
       failedTxnSignErrors = []).
Proof.
  intros Hsome Hnodup numAccounts txsPerAccount. unfold Signer.signTransactions.
  destruct (last accounts) as [account|] eqn:Hlast; [|by apply last_None in Hlast].
  fold numAccounts. fold txsPerAccount.
  assert (accounts !! (numAccounts - 1) = Some account) as Haccount.
  { rewrite last_lookup in Hlast. unfold numAccounts.
    by replace (length accounts - 1) with (pred (length accounts)) by lia. }
  assert (0 < numAccounts) as Hpos by (apply lookup_lt_Some in Haccount; lia).
  destruct (signTasks_spec sign txsPerAccount transactions accounts 0 (∅, []) Hnodup)
    as (Hlookup & Hother & Hcount & Hquiet).
  { intros sender _. apply lookup_empty. }
  cbn zeta in Hlookup, Hother, Hcount, Hquiet.
  set (st := Signer.signTasks sign txsPerAccount transactions 0 accounts (∅, [])) in *.
  rewrite (slices_full transactions txsPerAccount (length accounts) 0) in Hcount.
  2:{ simpl. apply Nat.Div0.mul_div_le. }
  change (Batcher.submitted (∅, []).1) with (Batcher.submitted (∅ : gmap string (list SignedTx)))
    in Hcount.
  assert (Batcher.submitted (∅ : gmap string (list SignedTx)) = 0) as Hempty.
  { unfold Batcher.submitted. by rewrite map_to_list_empty. }
  rewrite Hempty in Hcount. simpl in Hcount.
  rewrite signEach_spec. rewrite (Hlookup _ _ Haccount). simpl.
  eexists _, _. split; [reflexivity|]. split; [|split; [|split]].
  - intros i sender Hsender. case_bool_decide as Hi.
    + subst i. assert (sender = account) as -> by congruence.
      by rewrite lookup_insert_eq.
    + rewrite lookup_insert_ne.
      * rewrite app_nil_r. by apply Hlookup.
      * intros Heq. apply Hi.
        apply (NoDup_lookup _ _ _ (Signer.getAddress sender) Hnodup);
          rewrite list_lookup_fmap; [by rewrite Hsender|].
        rewrite Haccount. simpl. by rewrite Heq.
  - intros address. rewrite lookup_insert. case_decide as Haddress.
    + intros _. subst address. apply list_elem_of_fmap. exists account.
      split; [done|]. by eapply list_elem_of_lookup_2.
    + intros Hin. destruct (decide (address ∈ Signer.getAddress <$> accounts)); [done|].
      rewrite Hother in Hin by done. simpl in Hin. rewrite lookup_empty in Hin.
      by destruct Hin.
  - match goal with
    | |- Batcher.submitted (<[_ := ?new]> _) + _ = _ =>
        pose proof (submitted_insert_over st.1 (Signer.getAddress account) _ new
                      (Hlookup _ _ Haccount)) as Hover
    end.
    pose proof (signed_or_rejected sign (Signer.wallet account)
                  (drop (length accounts * txsPerAccount) transactions)) as Hrest.
    rewrite length_drop in Hrest.
    pose proof (Nat.Div0.mul_div_le (length transactions) (length accounts)) as Hle.
    unfold txsPerAccount, numAccounts in *.
    rewrite !length_app, ?Nat.add_0_l in Hover. rewrite !length_app. lia.
  - intros Hnone. rewrite Hquiet.
    + simpl. by apply (Hnone _ _ Haccount).
    + intros k sender Hsender. by apply (Hnone k sender).
Qed.


(** X16: [signTransactions] with no account throws a [TypeError]; with
    accounts of distinct addresses it returns a map that holds, for the
    account at position [i], the requests of the [i]-th slice of
    [floor(numTxs / numAccounts)] requests that its wallet signed, in
    their order, followed for the last account by those of the
    remaining requests; no other address is a key; and every request is
    either signed into the map or counted as one signing error. *)
Theorem signTransactions_partition {Request SignedTx : Type}
    (sign : Wallet → Request → string + SignedTx)
    (accounts : list Signer.senderAccount) (transactions : list Request) :
  (accounts = [] → Signer.signTransactions sign accounts transactions = Throw TypeError)
  ∧ (accounts ≠ [] →
     NoDup (Signer.getAddress <$> accounts) →
     let numAccounts := length accounts in
     let txsPerAccount := length transactions / numAccounts in
     ∃ signedTxs failedTxnSignErrors,
       Signer.signTransactions sign accounts transactions
         = Ok (signedTxs, failedTxnSignErrors)
       ∧ (∀ i sender,
            accounts !! i = Some sender →
            signedTxs !! Signer.getAddress sender
            = Some (Signer.signedOf sign (Signer.wallet sender)
                      (Signer.slice transactions (i * txsPerAccount)
                         (i * txsPerAccount + txsPerAccount))
                    ++ (if bool_decide (i = numAccounts - 1)
                        then Signer.signedOf sign (Signer.wallet sender)
                               (drop (numAccounts * txsPerAccount) transactions)
                        else [])))
       ∧ (∀ address, is_Some (signedTxs !! address) →
                     address ∈ Signer.getAddress <$> accounts)
       ∧ Batcher.submitted signedTxs + length failedTxnSignErrors = length transactions).
Proof.
  split; [by intros ->|].
  intros Hsome Hnodup numAccounts txsPerAccount.
  destruct (signTransactions_spec sign accounts transactions Hsome Hnodup)
    as (signedTxs & errors & Hrun & Hlookup & Hdom & Hcount & _).
  exists signedTxs, errors. split; [exact Hrun|]. split; [exact Hlookup|].
  split; [exact Hdom | exact Hcount].
Qed.

Lemma signTransactions_partition_witness :
  ∃ signedTxs failedTxnSignErrors,
    Signer.signTransactions Samples.pickySigner Samples.threeSenders (seq 0 7)
      = Ok (signedTxs, failedTxnSignErrors)
    ∧ signedTxs !! Fixtures.addressOf 3
      = Some [(Fixtures.addressOf 3, 5); (Fixtures.addressOf 3, 6)]
    ∧ Batcher.submitted signedTxs + length failedTxnSignErrors = 7.
Proof.
  destruct (proj2 (signTransactions_partition Samples.pickySigner Samples.threeSenders
                     (seq 0 7)))
    as (signedTxs & errors & Hrun & Hlookup & _ & Hcount).
  { discriminate. }
  { apply (bool_decide_unpack _). vm_compute. reflexivity. }
  exists signedTxs, errors. split; [exact Hrun|]. split; [|exact Hcount].
  apply (Hlookup 2 (Signer.mkSender 3 0 (mkWallet 3 (Fixtures.addressOf 3)))).
  reflexivity.
Defined.

(** ** The flat list of requests and its signing *)

Section flat_facts.
Import Signer.
Variable rt : EOARuntime.t.
Variable chainID : Z.
Variable feeData : FeeData.
Variable dynamic : bool.
Hypothesis Hfees : Workload.feesFor dynamic (Some feeData).

Lemma flat_forSender i : ∀ left j accounts txs,
  EOARuntimeList.constructForSender rt chainID feeData dynamic i left j accounts txs
  = Workload.constructForSender (EOARuntimeList.create rt chainID feeData dynamic)
      (λ i j n, (i + j) mod n) (λ _ tx, tx) i left j accounts txs.
Proof.
  induction left as [|left IH]; intros j accounts txs; simpl; [done|].
  destruct (accounts !! i) as [sender|]; [|done].
  destruct (accounts !! ((i + j) mod length accounts)) as [receiver|]; simpl; [|done].
  destruct (EOARuntimeList.createTransferTransaction _ _ _ _ _ _ _); simpl;
    [apply IH | done..].
Qed.

Lemma flat_remaining : ∀ left j accounts txs,
  EOARuntimeList.constructRemaining rt chainID feeData dynamic left accounts txs
  = Workload.constructForSender (EOARuntimeList.create rt chainID feeData dynamic)
      (λ _ _ _, 0) (λ _ tx, tx) (length accounts - 1) left j accounts txs.
Proof.
  induction left as [|left IH]; intros j accounts txs; simpl; [done|].
  destruct (accounts !! (length accounts - 1)) as [sender|]; [|done].
  destruct (accounts !! 0) as [receiver|]; simpl; [|done].
  destruct (EOARuntimeList.createTransferTransaction _ _ _ _ _ _ _); simpl; [|done..].
  rewrite (IH (S j)). by rewrite length_insert.
Qed.

Lemma flat_reads_address sender (receiver receiver' : option senderAccount) :
  getAddress <$> receiver = getAddress <$> receiver' →
  EOARuntimeList.create rt chainID feeData dynamic sender receiver
  = EOARuntimeList.create rt chainID feeData dynamic sender receiver'.
Proof.
  destruct receiver as [receiver|], receiver' as [receiver'|]; simpl;
    intros Heq; try done.
  injection Heq as Heq. unfold EOARuntimeList.createTransferTransaction. by rewrite Heq.
Qed.

Lemma flat_creates sender receiver :
  ∃ tx, EOARuntimeList.createTransferTransaction rt sender receiver chainID
          (EOARuntime.gasPrice rt) feeData dynamic = Ok tx.
Proof using Hfees.
  unfold EOARuntimeList.createTransferTransaction. destruct dynamic.
  - destruct Hfees as [[fee Hfee] [priority Hpriority]]; [done|].
    simpl in Hfee, Hpriority. rewrite Hfee, Hpriority. by eexists.
  - by eexists.
Qed.

Lemma flat_created sender receiver tx :
  EOARuntimeList.create rt chainID feeData dynamic sender receiver = Ok tx →
  tx_from tx = Some (getAddress sender) ∧ tx_nonce tx = nonce sender.
Proof.
  clear Hfees. destruct receiver as [receiver|]; [|done]. simpl.
  unfold EOARuntimeList.createTransferTransaction. destruct dynamic.
  - destruct (maxFeePerGas feeData); [|done].
    destruct (maxPriorityFeePerGas feeData); [|done]. by intros [= <-].
  - by intros [= <-].
Qed.

(** The requests of one run of the inner loop: sent from the sender,
    with the nonces that follow the sender's. *)
Lemma flat_requests (receiverOf : nat → option senderAccount) sender base left
    (new : list TransactionRequest) :
  length new = left →
  (∀ j, j < left →
     ∃ tx, EOARuntimeList.create rt chainID feeData dynamic
             (EOARuntime.advance (base + j) sender) (receiverOf j) = Ok tx
           ∧ new !! j = Some tx) →
  Forall (λ tx, tx_from tx = Some (getAddress sender)) new
  ∧ tx_nonce <$> new = seq (nonce sender + base) left.
Proof.
  intros Hlen Hbuilt. split.
  - apply Forall_lookup. intros j tx Hlookup.
    destruct (Hbuilt j) as (tx' & Htx & Hlookup').
    { apply lookup_lt_Some in Hlookup. lia. }
    assert (tx = tx') as -> by congruence.
    by apply flat_created in Htx as [Hfrom _].
  - apply list_eq. intros j. rewrite list_lookup_fmap.
    destruct (decide (j < left)) as [Hj|Hj].
    + destruct (Hbuilt j Hj) as (tx & Htx & ->). simpl.
      apply flat_created in Htx as [_ ->]. rewrite lookup_seq_lt by done.
      simpl. f_equal. lia.
    + rewrite lookup_seq_ge by lia. rewrite lookup_ge_None_2 by lia. done.
Qed.

(** The outer loop: one run of the inner loop per account, the lists
    one after the other. *)
Lemma flat_loop accounts0 q : ∀ left i transactions,
  i + left = length accounts0 →
  ∃ pers,
    EOARuntimeList.constructLoop rt chainID feeData dynamic q left i
      ((EOARuntime.advance q <$> take i accounts0) ++ drop i accounts0) transactions
    = Ok (EOARuntime.advance q <$> accounts0, transactions ++ concat pers)
    ∧ length pers = left
    ∧ ∀ k sender,
        accounts0 !! (i + k) = Some sender →
        ∃ per,
          pers !! k = Some per
          ∧ length per = q
          ∧ Forall (λ tx, tx_from tx = Some (getAddress sender)) per
          ∧ tx_nonce <$> per = seq (nonce sender) q.
Proof using Hfees.
  induction left as [|left IH]; intros i transactions Hlen.
  - exists []. simpl. rewrite take_ge, drop_ge, !app_nil_r by lia.
    split; [done|]. split; [done|].
    intros k sender Hsender%lookup_lt_Some. lia.
  - destruct (lookup_lt_is_Some_2 accounts0 i) as [sender Hsender]; [lia|].
    assert (length (EOARuntime.advance q <$> take i accounts0) = i) as Hfront.
    { rewrite length_fmap, length_take. lia. }
    set (accounts := (EOARuntime.advance q <$> take i accounts0) ++ drop i accounts0).
    assert (accounts !! i = Some sender) as Hcur.
    { unfold accounts. rewrite lookup_app_r by lia. rewrite Hfront, Nat.sub_diag.
      by rewrite lookup_drop, Nat.add_0_r. }
    assert (getAddress <$> accounts = getAddress <$> accounts0) as Hsame.
    { unfold accounts. rewrite fmap_app, <- list_fmap_compose.
      rewrite <- (take_drop i accounts0) at 3. by rewrite fmap_app. }
    simpl. rewrite flat_forSender.
    destruct (workload_forSender (EOARuntimeList.create rt chainID feeData dynamic)
                (λ i j n, (i + j) mod n) (λ _ tx, tx) accounts0 q
                flat_reads_address) with (i := i) (sender := sender) (left := q) (j := 0)
                (accounts := accounts) (txs := transactions)
      as (new & -> & Hnew & Hbuilt).
    { intros i' sender' j Hsender' Hj.
      destruct (receiver_exists accounts0 i' sender' (i' + j) Hsender') as [receiver ->].
      apply flat_creates. }
    { done. }
    { lia. }
    { done. }
    { rewrite Hcur. f_equal. unfold EOARuntime.advance. destruct sender. simpl.
      by rewrite Nat.add_0_r. }
    cbn [mbind result_bind].
    assert (<[i := EOARuntime.advance q sender]> accounts
            = (EOARuntime.advance q <$> take (S i) accounts0) ++ drop (S i) accounts0) as ->.
    { unfold accounts. rewrite insert_app_r_alt, Hfront, Nat.sub_diag by lia.
      rewrite (drop_S _ _ _ Hsender), (take_S_r _ _ _ Hsender). simpl.
      by rewrite fmap_app, <- app_assoc. }
    destruct (IH (S i) (transactions ++ new)) as (pers & -> & Hpers & Heach); [lia|].
    exists (new :: pers). simpl. rewrite <- app_assoc.
    split; [done|]. split; [by rewrite Hpers|].
    intros [|k] sender' Hsender'.
    + rewrite Nat.add_0_r in Hsender'. assert (sender' = sender) as -> by congruence.
      exists new. split; [done|]. split; [done|].
      destruct (flat_requests
                  (λ j, accounts0 !! ((i + j) mod length accounts0)) sender 0 q new Hnew)
        as [Hfrom Hnonces]; [exact Hbuilt|].
      rewrite Nat.add_0_r in Hnonces. done.
    + rewrite <- Nat.add_succ_comm in Hsender'. by apply Heach.
Qed.
End flat_facts.

Section slices.
Context {A : Type}.
Implicit Types (pers : list (list A)) (rem : list A).

Lemma length_concat_equal pers q :
  Forall (λ per, length per = q) pers → length (concat pers) = length pers * q.
Proof.
  induction 1 as [|per pers Hper _ IH]; simpl; [done|].
  rewrite length_app, IH, Hper. lia.
Qed.

(** The [i]-th slice of a list made of lists of [q] items is the
    [i]-th of them, and what follows the full slices is the rest. *)
Lemma slice_concat pers q rem :
  Forall (λ per, length per = q) pers →
  ∀ i per, pers !! i = Some per →
           Signer.slice (concat pers ++ rem) (i * q) (i * q + q) = per.
Proof.
  unfold Signer.slice.
  induction 1 as [|per' pers Hper _ IH]; intros i per Hlookup; [done|].
  replace (i * q + q - i * q) with q in * by lia.
  destruct i as [|i]; simpl in *.
  - injection Hlookup as ->. rewrite <- app_assoc. by apply take_app_length'.
  - rewrite <- app_assoc, drop_app_add' by done.
    specialize (IH i per Hlookup).
    by replace (i * q + q - i * q) with q in IH by lia.
Qed.

Lemma drop_concat pers q rem :
  Forall (λ per, length per = q) pers →
  drop (length pers * q) (concat pers ++ rem) = rem.
Proof.
  intros Hpers. apply drop_app_length'. by rewrite (length_concat_equal pers q).
Qed.
End slices.

Section flat_pipeline.
Import Signer.
Variable rt : EOARuntime.t.
Variable chainID : Z.
Variable feeData : FeeData.
Variable dynamic : bool.
Hypothesis Hfees : Workload.feesFor dynamic (Some feeData).

Lemma flat_unfold accounts numTx :
  accounts ≠ [] →
  EOARuntimeList.ConstructTransactions rt chainID feeData dynamic accounts numTx
  = '(accounts', transactions) ←
       EOARuntimeList.constructLoop rt chainID feeData dynamic
         (numTx / length accounts) (length accounts) 0 accounts [];
    EOARuntimeList.constructRemaining rt chainID feeData dynamic
      (numTx mod length accounts) accounts' transactions.
Proof.
  intros Hsome. unfold EOARuntimeList.ConstructTransactions.
  destruct accounts; [done|]. reflexivity.
Qed.

(** The flat list: one list of [floor(numTx / numAccounts)] requests
    per account, then the remaining requests from the last account,
    whose nonces go on from where its own list stopped. *)
Lemma flat_construct accounts numTx :
  accounts ≠ [] →
  let q := numTx / length accounts in
  let r := numTx mod length accounts in
  ∃ accounts' pers rem last,
    EOARuntimeList.ConstructTransactions rt chainID feeData dynamic accounts numTx
      = Ok (accounts', concat pers ++ rem)
    ∧ wallet <$> accounts' = wallet <$> accounts
    ∧ length pers = length accounts
    ∧ (∀ i sender,
         accounts !! i = Some sender →
         ∃ per,
           pers !! i = Some per
           ∧ length per = q
           ∧ Forall (λ tx, tx_from tx = Some (getAddress sender)) per
           ∧ tx_nonce <$> per = seq (nonce sender) q)
    ∧ accounts !! (length accounts - 1) = Some last
    ∧ length rem = r
    ∧ Forall (λ tx, tx_from tx = Some (getAddress last)) rem
    ∧ tx_nonce <$> rem = seq (nonce last + q) r.
Proof using Hfees.
  intros Hsome q r.
  destruct (lookup_lt_is_Some_2 accounts (length accounts - 1)) as [last Hlast].
  { destruct accounts; [done | simpl; lia]. }
  destruct (lookup_lt_is_Some_2 accounts 0) as [first Hfirst].
  { destruct accounts; [done | simpl; lia]. }
  rewrite flat_unfold by done.
  change (numTx / length accounts) with q. change (numTx mod length accounts) with r.
  destruct (flat_loop rt chainID feeData dynamic Hfees accounts q (length accounts) 0 [])
    as (pers & Hloop & Hpers & Heach); [lia|].
  rewrite take_0, drop_0 in Hloop. simpl in Hloop. rewrite Hloop.
  cbn [mbind result_bind]. rewrite (flat_remaining rt chainID feeData dynamic r 0).
  rewrite length_fmap.
  destruct (workload_forSender (EOARuntimeList.create rt chainID feeData dynamic)
              (λ _ _ _, 0) (λ _ tx, tx) (EOARuntime.advance q <$> accounts) r
              (flat_reads_address rt chainID feeData dynamic))
    with (i := length accounts - 1) (sender := EOARuntime.advance q last)
         (left := r) (j := 0) (accounts := EOARuntime.advance q <$> accounts)
         (txs := concat pers)
    as (rem & -> & Hrem & Hbuilt).
  { intros i sender j _ _. rewrite list_lookup_fmap, Hfirst. simpl.
    by apply flat_creates. }
  { by rewrite list_lookup_fmap, Hlast. }
  { lia. }
  { done. }
  { rewrite list_lookup_fmap, Hlast. simpl. f_equal.
    unfold EOARuntime.advance. simpl. f_equal. lia. }
  eexists _, pers, rem, last. split; [reflexivity|].
  split; [|split; [done|split; [|split; [done|split; [done|]]]]].
  - rewrite list_fmap_insert, <- list_fmap_compose. simpl.
    apply list_insert_id. by rewrite list_lookup_fmap, Hlast.
  - intros i sender Hsender. by apply (Heach i sender).
  - destruct (flat_requests rt chainID feeData dynamic
                (λ _, (EOARuntime.advance q <$> accounts) !! 0)
                (EOARuntime.advance q last) 0 r rem Hrem) as [Hfrom Hnonces].
    { intros j Hj. destruct (Hbuilt j Hj) as (tx & Htx & Hlookup).
      by exists tx. }
    split; [done|]. simpl in Hnonces. by rewrite Nat.add_0_r in Hnonces.
Qed.

(** The same in terms of the slices that [signTransactions] cuts. *)
Lemma flat_sliced accounts numTx :
  accounts ≠ [] →
  let n := length accounts in
  let q := numTx / n in
  let r := numTx mod n in
  ∃ accounts' transactions,
    EOARuntimeList.ConstructTransactions rt chainID feeData dynamic accounts numTx
      = Ok (accounts', transactions)
    ∧ wallet <$> accounts' = wallet <$> accounts
    ∧ length transactions = numTx
    ∧ ∀ i sender,
        accounts !! i = Some sender →
        (length (slice transactions (i * q) (i * q + q)) = q
         ∧ Forall (λ tx, tx_from tx = Some (getAddress sender))
             (slice transactions (i * q) (i * q + q))
         ∧ tx_nonce <$> slice transactions (i * q) (i * q + q) = seq (nonce sender) q)
        ∧ (i = n - 1 →
           length (drop (n * q) transactions) = r
           ∧ Forall (λ tx, tx_from tx = Some (getAddress sender))
               (drop (n * q) transactions)
           ∧ tx_nonce <$> drop (n * q) transactions = seq (nonce sender + q) r).
Proof using Hfees.
  intros Hsome n q r.
  destruct (flat_construct accounts numTx Hsome)
    as (accounts' & pers & rem & last & Hrun & Hwallets & Hpers & Heach & Hlast
        & Hrem & Hfrom & Hnonces).
  fold n q r in Hpers, Heach, Hlast, Hrem, Hfrom, Hnonces.
  assert (Forall (λ per, length per = q) pers) as Hfull.
  { apply Forall_lookup. intros i per Hper.
    destruct (lookup_lt_is_Some_2 accounts i) as [sender Hsender].
    { apply lookup_lt_Some in Hper. unfold n in Hpers. lia. }
    destruct (Heach i sender Hsender) as (per' & Hper' & Hlen & _). congruence. }
  exists accounts', (concat pers ++ rem). split; [done|]. split; [done|]. split.
  { rewrite length_app, (length_concat_equal pers q Hfull), Hpers, Hrem.
    unfold q, r, n. pose proof (Nat.div_mod_eq numTx (length accounts)). lia. }
  intros i sender Hsender. split.
  - destruct (Heach i sender Hsender) as (per & Hper & Hlen & Hsent & Hseq).
    by rewrite (slice_concat pers q rem Hfull i per Hper).
  - intros ->. assert (sender = last) as -> by congruence.
    rewrite <- Hpers, (drop_concat pers q rem Hfull). done.
Qed.
End flat_pipeline.

(** X17: the version of [ConstructTransactions] that returns one list
    builds, with no account, the empty list; with accounts and legacy
    fees, or fee data at hand, [numTx] requests: for each account in
    turn [floor(numTx / numAccounts)] requests sent from it with the
    nonces that follow its own, and then the [numTx % numAccounts]
    remaining ones sent from the last account, whose nonces go on where
    its own requests stopped. *)
Theorem flat_requests_by_sender (rt : EOARuntime.t) (chainID : Z) (feeData : FeeData)
    (dynamic : bool) (accounts : list Signer.senderAccount) (numTx : nat) :
  EOARuntimeList.ConstructTransactions rt chainID feeData dynamic [] numTx = Ok ([], [])
  ∧ (accounts ≠ [] →
     Workload.feesFor dynamic (Some feeData) →
     let n := length accounts in
     let q := numTx / n in
     let r := numTx mod n in
     ∃ accounts' transactions,
       EOARuntimeList.ConstructTransactions rt chainID feeData dynamic accounts numTx
         = Ok (accounts', transactions)
       ∧ length transactions = numTx
       ∧ ∀ i sender,
           accounts !! i = Some sender →
           let own :=
             Signer.slice transactions (i * q) (i * q + q)
             ++ (if bool_decide (i = n - 1) then drop (n * q) transactions else []) in
           length own = q + (if bool_decide (i = n - 1) then r else 0)
           ∧ Forall (λ tx, tx_from tx = Some (Signer.getAddress sender)) own
           ∧ tx_nonce <$> own = seq (Signer.nonce sender) (length own)).
Proof.
  split; [reflexivity|].
  intros Hsome Hfees n q r.
  destruct (flat_sliced rt chainID feeData dynamic Hfees accounts numTx Hsome)
    as (accounts' & transactions & Hrun & _ & Hlen & Hown).
  fold n q r in Hown.
  exists accounts', transactions. split; [done|]. split; [done|].
  intros i sender Hsender own.
  destruct (Hown i sender Hsender) as [(Hq & Hfrom & Hnonces) Hlast]. unfold own.
  case_bool_decide as Hi.
  - destruct (Hlast Hi) as (Hr & Hfrom' & Hnonces').
    rewrite length_app, Hq, Hr. split; [done|]. split; [by apply Forall_app|].
    by rewrite fmap_app, Hnonces, Hnonces', seq_app.
  - rewrite app_nil_r, Hq, Nat.add_0_r. done.
Qed.

Lemma flat_requests_by_sender_witness :
  ∃ accounts' transactions,
    EOARuntimeList.ConstructTransactions Fixtures.legacy 100 Samples.noFees false
      Samples.threeSenders 7 = Ok (accounts', transactions)
    ∧ length transactions = 7
    ∧ tx_nonce <$> (Signer.slice transactions 0 2 ++ [])
      = [7; 8]
    ∧ tx_nonce <$> (Signer.slice transactions 4 6 ++ drop 6 transactions)
      = [0; 1; 2].
Proof.
  destruct (proj2 (flat_requests_by_sender Fixtures.legacy 100 Samples.noFees false
                     Samples.threeSenders 7))
    as (accounts' & transactions & Hrun & Hlen & Hown).
  { discriminate. }
  { intros [=]. }
  exists accounts', transactions. split; [exact Hrun|]. split; [exact Hlen|].
  destruct (Hown 0 (Signer.mkSender 1 7 (mkWallet 1 (Fixtures.addressOf 1))) eq_refl)
    as (Hlen0 & _ & Hnonces0).
  destruct (Hown 2 (Signer.mkSender 3 0 (mkWallet 3 (Fixtures.addressOf 3))) eq_refl)
    as (Hlen2 & _ & Hnonces2).
  cbn zeta in *. split.
  - rewrite Hlen0 in Hnonces0. exact Hnonces0.
  - rewrite Hlen2 in Hnonces2. exact Hnonces2.
Defined.

Section signing_own_requests.
Import Signer.
Context {SignedTx : Type}.
Variable sign : Wallet → TransactionRequest → string + SignedTx.
Hypothesis Hown : EOARuntimeList.signsOwn sign.

Lemma own_signed w txs :
  Forall (λ tx, tx_from tx = Some (walletAddress w)) txs →
  rejectionsOf sign w txs = [] ∧ length (signedOf sign w txs) = length txs.
Proof using Hown.
  unfold rejectionsOf, signedOf.
  induction 1 as [|tx txs Hfrom _ [IHrejected IHsigned]]; csimpl; [done|].
  destruct (Hown w tx Hfrom) as [signed ->]. csimpl. by rewrite IHrejected, IHsigned.
Qed.

Lemma same_wallets (accounts accounts' : list senderAccount) i :
  wallet <$> accounts' = wallet <$> accounts →
  (∀ sender', accounts' !! i = Some sender' →
     ∃ sender, accounts !! i = Some sender ∧ wallet sender' = wallet sender)
  ∧ (∀ sender, accounts !! i = Some sender →
       ∃ sender', accounts' !! i = Some sender' ∧ wallet sender' = wallet sender).
Proof.
  intros Hwallets.
  assert (wallet <$> accounts' !! i = wallet <$> accounts !! i) as Hlookup.
  { by rewrite <- !list_lookup_fmap, Hwallets. }
  split.
  - intros sender' Hsender'. rewrite Hsender' in Hlookup.
    destruct (accounts !! i) as [sender|]; [|done].
    exists sender. split; [done|]. by injection Hlookup.
  - intros sender Hsender. rewrite Hsender in Hlookup.
    destruct (accounts' !! i) as [sender'|]; [|done].
    exists sender'. split; [done|]. by injection Hlookup.
Qed.
End signing_own_requests.

(** The flat list is signed as it was built. *)
Lemma flat_pipeline {SignedTx : Type}
    (sign : Wallet → TransactionRequest → string + SignedTx)
    (rt : EOARuntime.t) (chainID : Z) (feeData : FeeData) (dynamic : bool)
    (accounts : list Signer.senderAccount) (numTx : nat) :
  accounts ≠ [] →
  NoDup (Signer.getAddress <$> accounts) →
  Workload.feesFor dynamic (Some feeData) →
  EOARuntimeList.signsOwn sign →
  let n := length accounts in
  ∃ accounts' transactions signedTxs,
    EOARuntimeList.ConstructTransactions rt chainID feeData dynamic accounts numTx
      = Ok (accounts', transactions)
    ∧ Signer.signTransactions sign accounts' transactions = Ok (signedTxs, [])
    ∧ Batcher.submitted signedTxs = numTx
    ∧ ∀ i sender,
        accounts !! i = Some sender →
        ∃ signed,
          signedTxs !! Signer.getAddress sender = Some signed
          ∧ length signed
            = numTx / n + (if bool_decide (i = n - 1) then numTx mod n else 0).
Proof.
  intros Hsome Hnodup Hfees Hown n.
  destruct (flat_sliced rt chainID feeData dynamic Hfees accounts numTx Hsome)
    as (accounts' & transactions & Hrun & Hwallets & Hlen & Hslices).
  fold n in Hslices.
  assert (length accounts' = n) as Hn.
  { by rewrite <- (length_fmap Signer.wallet), Hwallets, length_fmap. }
  assert (Signer.getAddress <$> accounts' = Signer.getAddress <$> accounts) as Haddresses.
  { change Signer.getAddress with (walletAddress ∘ Signer.wallet).
    by rewrite !list_fmap_compose, Hwallets. }
  destruct (signTransactions_spec sign accounts' transactions)
    as (signedTxs & errors & Hsigned & Hlookup & _ & Hcount & Hquiet).
  { intros ->. simpl in Hn. destruct accounts; [done | simpl in n; lia]. }
  { by rewrite Haddresses. }
  rewrite Hn, Hlen in Hlookup, Hquiet.
  assert (errors = []) as ->.
  { apply Hquiet. intros i sender' Hsender'.
    destruct (proj1 (same_wallets accounts accounts' i Hwallets) sender' Hsender')
      as (sender & Hsender & Hwallet).
    destruct (Hslices i sender Hsender) as [(_ & Hfrom & _) Hlast].
    rewrite Hwallet. split.
    - by apply (own_signed sign Hown).
    - intros Hi. destruct (Hlast Hi) as (_ & Hfrom' & _).
      by apply (own_signed sign Hown). }
  exists accounts', transactions, signedTxs. split; [done|]. split; [done|].
  split; [simpl in Hcount; lia|].
  intros i sender Hsender.
  destruct (proj2 (same_wallets accounts accounts' i Hwallets) sender Hsender)
    as (sender' & Hsender' & Hwallet).
  destruct (Hslices i sender Hsender) as [(Hq & Hfrom & _) Hlast].
  assert (Signer.getAddress sender' = Signer.getAddress sender) as Haddress.
  { unfold Signer.getAddress. by rewrite Hwallet. }
  eexists. split; [rewrite <- Haddress; by apply Hlookup|].
  rewrite length_app, Hwallet.
  rewrite (proj2 (own_signed sign Hown (Signer.wallet sender) _ Hfrom)), Hq.
  f_equal. case_bool_decide as Hi; [|done].
  destruct (Hlast Hi) as (Hr & Hfrom' & _).
  by rewrite (proj2 (own_signed sign Hown (Signer.wallet sender) _ Hfrom')).
Qed.


(** X18: the flat pipeline lines up: when the accounts have distinct
    addresses and every wallet signs the requests sent from its own
    address, [signTransactions], run on the accounts and the list that
    [ConstructTransactions] leaves, hands every request to the wallet of
    the account it is sent from; it reports no signing error, the map
    holds all [numTx] requests, and each account's entry holds its
    [floor(numTx / numAccounts)] requests, plus the remaining ones for
    the last account. *)
Theorem flat_pipeline_signs_all {SignedTx : Type}
    (sign : Wallet → TransactionRequest → string + SignedTx)
    (rt : EOARuntime.t) (chainID : Z) (feeData : FeeData) (dynamic : bool)
    (accounts : list Signer.senderAccount) (numTx : nat) :
  accounts ≠ [] →
  NoDup (Signer.getAddress <$> accounts) →
  Workload.feesFor dynamic (Some feeData) →
  EOARuntimeList.signsOwn sign →
  let n := length accounts in
  ∃ accounts' transactions signedTxs,
    EOARuntimeList.ConstructTransactions rt chainID feeData dynamic accounts numTx
      = Ok (accounts', transactions)
    ∧ Signer.signTransactions sign accounts' transactions = Ok (signedTxs, [])
    ∧ Batcher.submitted signedTxs = numTx
    ∧ ∀ i sender,
        accounts !! i = Some sender →
        ∃ signed,
          signedTxs !! Signer.getAddress sender = Some signed
          ∧ length signed
            = numTx / n + (if bool_decide (i = n - 1) then numTx mod n else 0).
Proof.
  intros Hsome Hnodup Hfees Hown n.
  destruct (flat_pipeline sign rt chainID feeData dynamic accounts numTx
              Hsome Hnodup Hfees Hown)
    as (accounts' & transactions & signedTxs & Hrun & Hsigned & Hcount & Heach).
  exists accounts', transactions, signedTxs.
  split; [exact Hrun|]. split; [exact Hsigned|]. split; [exact Hcount | exact Heach].
Qed.

Lemma flat_pipeline_signs_all_witness :
  ∃ accounts' transactions signedTxs,
    EOARuntimeList.ConstructTransactions Fixtures.legacy 100 Samples.noFees false
      Samples.threeSenders 7 = Ok (accounts', transactions)
    ∧ Signer.signTransactions Samples.ownSigner accounts' transactions
      = Ok (signedTxs, [])
    ∧ Batcher.submitted signedTxs = 7.
Proof.
  destruct (flat_pipeline_signs_all Samples.ownSigner Fixtures.legacy 100 Samples.noFees
              false Samples.threeSenders 7)
    as (accounts' & transactions & signedTxs & Hrun & Hsigned & Hcount & _).
  - discriminate.
  - apply (bool_decide_unpack _). vm_compute. reflexivity.
  - intros [=].
  - intros w tx Hfrom. unfold Samples.ownSigner.
    rewrite bool_decide_eq_true_2 by exact Hfrom. by eexists.
  - exists accounts', transactions, signedTxs.
    split; [exact Hrun|]. split; [exact Hsigned | exact Hcount].
Defined.

(** ** What the funding target covers *)

Section funding_target.
Import Signer.

Lemma totalMaxCost_uniform (txs : list SignedTransaction) cost :
  Forall (λ signed, EOAEstimator.maxCost (signedRequest signed) = cost) txs →
  EOAEstimator.totalMaxCost txs = (Z.of_nat (length txs) * cost)%Z.
Proof.
  induction 1 as [|signed txs Hcost _ IH]; [simpl; lia|].
  cbn [EOAEstimator.totalMaxCost foldr length].
  fold (EOAEstimator.totalMaxCost txs). rewrite IH, Hcost. lia.
Qed.
End funding_target.

(** X19: with legacy fees, the balance that [calculateRuntimeCosts]
    requires of a sub-account, computed from what the value-transfer
    runtime answers, is ten times the most that the [totalTx] transfers
    that the same runtime then builds for an account can take from it:
    gas limit times gas price, plus the value, summed over the
    account's transfers. *)
Theorem funding_target_covers_transfers (fromMnemonic : nat → string) (node : Node)
    (getFeeData : FeeData) (rt : EOARuntime.t) (totalTx : nat)
    (accounts : list Signer.senderAccount) :
  ∃ costs accounts' transactions,
    Distributor.calculateRuntimeCosts fromMnemonic node
      (EOAEstimator.estimator fromMnemonic node getFeeData rt) totalTx = Ok costs
    ∧ EOARuntime.ConstructTransactions
        (EOAEstimator.estimated fromMnemonic node getFeeData rt) accounts totalTx false
      = Ok (accounts', transactions)
    ∧ ∀ i sender,
        accounts !! i = Some sender →
        Workload.lastWithAddress accounts i sender →
        ∃ txs,
          transactions !! Signer.getAddress sender = Some txs
          ∧ length txs = totalTx
          ∧ (10 * EOAEstimator.totalMaxCost txs = Distributor.subAccount costs)%Z.
Proof.
  set (rt' := EOAEstimator.estimated fromMnemonic node getFeeData rt).
  unfold Distributor.calculateRuntimeCosts, EOARuntime.ConstructTransactions.
  rewrite eoa_loop.
  destruct (workload_built (Workload.eoa rt' false) (λ i j n, (i + j) mod n)
              signTransaction accounts totalTx)
    as (transactions & Hrun & Hbuilt & _).
  { apply eoa_reads_address. }
  { intros i sender j Hsender Hj.
    destruct (receiver_exists accounts i sender (i + j) Hsender) as [receiver ->].
    by apply eoa_creates. }
  simpl. eexists _, _, transactions. split; [reflexivity|]. split; [exact Hrun|].
  intros i sender Hsender Hlast.
  destruct (Hbuilt i sender Hsender Hlast) as (txs & Hlookup & Hlen & Htxs).
  exists txs. split; [done|]. split; [done|].
  rewrite (totalMaxCost_uniform txs
             (getGasPrice node
              * estimateGas node (fromMnemonic 0%nat) (fromMnemonic 1%nat)
                  (EOARuntime.defaultValue rt)
              + EOARuntime.defaultValue rt)%Z).
  - rewrite Hlen. cbn [Distributor.subAccount]. unfold EOAEstimator.GetValue. lia.
  - apply Forall_lookup. intros j signed Hsigned.
    destruct (Htxs j) as (tx & Htx & Hsigned').
    { apply lookup_lt_Some in Hsigned. lia. }
    assert (signed = signTransaction (Signer.wallet sender) tx) as -> by congruence.
    destruct (receiver_exists accounts i sender (i + j) Hsender) as [receiver Hreceiver].
    rewrite Hreceiver in Htx. simpl in Htx. injection Htx as <-. reflexivity.
Qed.

Lemma funding_target_covers_transfers_witness :
  ∃ costs accounts' transactions txs,
    Distributor.calculateRuntimeCosts Fixtures.addressOf Fixtures.oneEther
      (EOAEstimator.estimator Fixtures.addressOf Fixtures.oneEther Samples.noFees
         Fixtures.legacy) 2 = Ok costs
    ∧ EOARuntime.ConstructTransactions
        (EOAEstimator.estimated Fixtures.addressOf Fixtures.oneEther Samples.noFees
           Fixtures.legacy) Samples.threeSenders 2 false
      = Ok (accounts', transactions)
    ∧ transactions !! Fixtures.addressOf 1 = Some txs
    ∧ (10 * EOAEstimator.totalMaxCost txs = Distributor.subAccount costs)%Z.
Proof.
  destruct (funding_target_covers_transfers Fixtures.addressOf Fixtures.oneEther
              Samples.noFees Fixtures.legacy 2 Samples.threeSenders)
    as (costs & accounts' & transactions & Hcosts & Hrun & Hbuilt).
  destruct (Hbuilt 0 (Signer.mkSender 1 7 (mkWallet 1 (Fixtures.addressOf 1))))
    as (txs & Hlookup & _ & Hcovered).
  { reflexivity. }
  { intros [|[|[|i']]] sender' Hlt; try lia; by intros [= <-]. }
  exists costs, accounts', transactions, txs.
  split; [exact Hcosts|]. split; [exact Hrun|]. split; [exact Hlookup | exact Hcovered].
Defined.

(** ** The engine over the flat list *)

Section flat_engine.
Import Signer.

Lemma getSenderAccounts_addresses fromMnemonic getTransactionCount accountIndexes numTxs :
  getAddress <$> getSenderAccounts fromMnemonic getTransactionCount accountIndexes numTxs
  = take (if numTxs <? length accountIndexes then numTxs else length accountIndexes)
         (fromMnemonic <$> accountIndexes).
Proof.
  unfold getSenderAccounts. by rewrite <- list_fmap_compose, fmap_take.
Qed.

Lemma getSenderAccounts_nil fromMnemonic getTransactionCount accountIndexes numTxs :
  getSenderAccounts fromMnemonic getTransactionCount accountIndexes numTxs = []
  ↔ numTxs = 0 ∨ accountIndexes = [].
Proof.
  unfold getSenderAccounts.
  destruct (numTxs <? length accountIndexes) eqn:Hlt.
  - apply Nat.ltb_lt in Hlt.
    destruct accountIndexes as [|index rest]; [simpl in Hlt; lia|].
    destruct numTxs as [|numTxs]; simpl; split; try done.
    + by left.
    + by intros [|].
  - apply Nat.ltb_ge in Hlt. rewrite take_ge by done. split.
    + intros Hnil%fmap_nil_inv. by right.
    + intros [->| ->]; [|done].
      assert (accountIndexes = []) as -> by (apply nil_length_inv; lia). done.
Qed.
End flat_engine.

(** X20: the engine over the flat list throws a [TypeError] when asked
    for no transaction or given no account index, since
    [signTransactions] then reads the last of no accounts; asked for
    [numTxs] transactions with account indexes of distinct addresses,
    wallets that sign the requests sent from their own address and a
    node that accepts each transaction it judges, it returns exactly
    [numTxs] hashes. *)
Theorem flat_engine_run
    (sign : Wallet → TransactionRequest → string + SignedTransaction)
    (fromMnemonic : nat → string) (node : Node) (getFeeData : FeeData)
    (runtime : EOARuntime.t) (ctx : EngineList.EngineContext) (calls0 : nat) :
  (EngineList.numTxs ctx = 0 ∨ EngineList.accountIndexes ctx = [] →
   EngineList.Run sign fromMnemonic node getFeeData runtime ctx calls0 = Throw TypeError)
  ∧ (0 < EngineList.numTxs ctx →
     EngineList.accountIndexes ctx ≠ [] →
     NoDup (fromMnemonic <$> EngineList.accountIndexes ctx) →
     Workload.feesFor (EngineList.dynamic ctx) (Some getFeeData) →
     EOARuntimeList.signsOwn sign →
     ∀ verdict,
       Batcher.judges verdict (axios node) →
       (∀ tx, is_Some (Batcher.resultOf (verdict tx))) →
       ∃ hashes,
         EngineList.Run sign fromMnemonic node getFeeData runtime ctx calls0 = Ok hashes
         ∧ length hashes = EngineList.numTxs ctx).
Proof.
  unfold EngineList.Run.
  destruct ctx as [accountIndexes numTxs batchSize dynamic]. simpl.
  set (accounts := Signer.getSenderAccounts fromMnemonic (getTransactionCount node)
                     accountIndexes numTxs).
  split.
  - intros Hnone.
    pose proof (proj2 (getSenderAccounts_nil fromMnemonic (getTransactionCount node)
                         accountIndexes numTxs) Hnone) as Hnil.
    unfold accounts. rewrite Hnil. reflexivity.
  - intros Hpos Hsome Hnodup Hfees Hown verdict Hjudges Haccepted.
    assert (accounts ≠ []) as Haccounts.
    { unfold accounts. rewrite getSenderAccounts_nil. intros [|]; [lia | done]. }
    assert (NoDup (Signer.getAddress <$> accounts)) as Hdistinct.
    { unfold accounts. rewrite getSenderAccounts_addresses.
      eapply sublist_NoDup; [exact Hnodup | apply sublist_take]. }
    destruct (flat_pipeline sign runtime (getChainId node) getFeeData dynamic accounts
                numTxs Haccounts Hdistinct Hfees Hown)
      as (accounts' & transactions & signedTxs & -> & Hsigned & Hcount & _).
    cbn [mbind result_bind]. rewrite Hsigned. cbn [mbind result_bind mret result_ret].
    eexists. split; [reflexivity|].
    unfold Batcher.sendTransactionsInParallelBySender,
      Batcher.sendTransactionsInParallelBySender_run.
    rewrite (parallel_judged (axios node) verdict Hjudges Haccepted). simpl.
    exact Hcount.
Qed.

Lemma flat_engine_run_witness :
  ∃ hashes,
    EngineList.Run Samples.ownSigner Fixtures.addressOf Samples.accepting Samples.noFees
      Fixtures.legacy (EngineList.mkContext [1; 2; 3] 7 20 false) 0 = Ok hashes
    ∧ length hashes = 7.
Proof.
  apply (proj2 (flat_engine_run Samples.ownSigner Fixtures.addressOf Samples.accepting
                  Samples.noFees Fixtures.legacy
                  (EngineList.mkContext [1; 2; 3] 7 20 false) 0))
    with (verdict := Samples.acceptAll).
  - simpl. lia.
  - discriminate.
  - apply (bool_decide_unpack _). vm_compute. reflexivity.
  - intros [=].
  - intros w tx Hfrom. unfold Samples.ownSigner.
    rewrite bool_decide_eq_true_2 by exact Hfrom. by eexists.
  - intros n data. reflexivity.
  - intros tx. by eexists.
Defined.
